(** * GameGuardian: tamper detection and escalation

    A shallow embedding of the tamper-detection engine of the repository:

    - [Server]: the Express server (deploy-config.js and the server file):
      the routes [POST /api/log-tampering], [POST /api/register-player] and
      [POST /api/sync-game-values], and the helper [verifyGameValues];
    - [GameValue]: the client-side protected value (class [GameValue<T>]);
    - [Shield]: the client-side orchestrator (classes [ToolDetector] and
      [GuardianShield]).

    Conventions.  Dates are milliseconds since the epoch ([Z]).  JavaScript
    numbers are exact rationals ([Q]) on the server and integers ([Z]) in the
    protected values: rounding of doubles is not modelled.  Calls to the
    clock, to [uuidv4] and to [Math.random] are inputs of the functions that
    make them. *)

From Stdlib Require Import ZArith QArith Qround Lqa Lia.
From Stdlib Require HexadecimalString.
From stdpp Require Import base option list gmap strings pretty.

Local Open Scope Z_scope.
Local Open Scope string_scope.
Local Open Scope list_scope.

(** ** JavaScript values received in a JSON body *)

#[local] Unset Elimination Schemes.
Inductive jsval : Type :=
| JUndefined
| JNull
| JBool (b : bool)
| JNum (q : Q)
| JStr (s : string)
| JArr (elems : list jsval)
| JObj (fields : list (string * jsval)).
#[local] Set Elimination Schemes.

Module JS.

(** [v.name] for a property name that is not an array index. *)
Fixpoint assoc (name : string) (fields : list (string * jsval)) : jsval :=
  match fields with
  | [] => JUndefined
  | (k, v) :: rest => if String.eqb k name then v else assoc name rest
  end.

Definition field (v : jsval) (name : string) : jsval :=
  match v with
  | JObj fields => assoc name fields
  | _ => JUndefined
  end.

(** ToBoolean. *)
Definition truthy (v : jsval) : bool :=
  match v with
  | JUndefined | JNull => false
  | JBool b => b
  | JNum q => negb (Qeq_bool q 0)
  | JStr s => negb (String.eqb s EmptyString)
  | JArr _ | JObj _ => true
  end.

(** [typeof v === 'object'] *)
Definition isObjectType (v : jsval) : bool :=
  match v with
  | JNull | JArr _ | JObj _ => true
  | _ => false
  end.

(** [a > b] on numbers. *)
Definition gt (a b : Q) : bool := negb (Qle_bool a b).

(** [Math.max(a, b)] on numbers. *)
Definition Math_max (a b : Q) : Q := if Qle_bool a b then b else a.

(** [arr.includes(s)] on an array of strings. *)
Definition includes (arr : list string) (s : string) : bool :=
  existsb (String.eqb s) arr.

(** [s.substring(0, n)] *)
Definition substring0 (n : nat) (s : string) : string := String.substring 0 n s.

End JS.

(** ** Effects: state and exceptions *)

Inductive outcome (A : Type) : Type :=
| Returned (a : A)
| Thrown (error : string).
Arguments Returned {A} a.
Arguments Thrown {A} error.

(** A computation over a state [S] that returns or throws. *)
Definition Eff (S A : Type) : Type := S -> outcome A * S.

Definition ret {S A} (a : A) : Eff S A := fun s => (Returned a, s).
Definition throw {S A} (e : string) : Eff S A := fun s => (Thrown e, s).
Definition bind {S A B} (m : Eff S A) (k : A -> Eff S B) : Eff S B :=
  fun s => match m s with
           | (Returned a, s') => k a s'
           | (Thrown e, s') => (Thrown e, s')
           end.
Definition gets {S A} (f : S -> A) : Eff S A := fun s => (Returned (f s), s).
Definition modify {S} (f : S -> S) : Eff S unit := fun s => (Returned tt, f s).

Declare Scope eff_scope.
Delimit Scope eff_scope with eff.
Notation "'let*' x ':=' m 'in' k" := (bind m (fun x => k))
  (at level 10, x pattern, m at level 100, k at level 200) : eff_scope.

(** ** The server *)

Module Server.

(** *** deploy-config.js *)

Record Config := {
  apiKey : string;                  (* security.apiKey *)
  databaseEnabled : bool;           (* database.enabled *)
  maxCoinsPerMinute : Z;            (* gameRules.maxCoinsPerMinute *)
  maxXpPerMinute : Z;               (* gameRules.maxXpPerMinute *)
  maxTamperingAttempts : Z;         (* protection.maxTamperingAttempts *)
  warningMessage : string;          (* serverResponses.warningMessage *)
  terminalMessage : string;         (* serverResponses.terminalMessage *)
  banDuration : Z                   (* serverResponses.banDuration *)
}.

(** The values the configuration takes when no environment variable is set. *)
Definition deployConfig : Config := {|
  apiKey := "change-me-in-production";
  databaseEnabled := true;
  maxCoinsPerMinute := 1000;
  maxXpPerMinute := 500;
  maxTamperingAttempts := 3;
  warningMessage := "Security violation detected.";
  terminalMessage := "Your access has been suspended due to security violations.";
  banDuration := 24 * 60 * 60 * 1000
|}.

(** *** Player records *)

(** [gameData] and [gameValues]: objects whose bounded quantities are
    numbers when present, [powerups] an array of strings, [_lastUpdated] the
    date the server adds, and [other] every further numeric quantity. *)
Record GameValues := {
  health : option Q;
  maxHealth : option Q;
  healthRegenRate : option Q;
  coins : option Q;
  xp : option Q;
  powerups : option (list string);
  _lastUpdated : option Z;
  other : gmap string Q
}.

Definition noValues : GameValues := {|
  health := None; maxHealth := None; healthRegenRate := None;
  coins := None; xp := None; powerups := None; _lastUpdated := None;
  other := ∅
|}.

(** [Object.keys(g).length === 0] *)
Definition hasNoKeys (g : GameValues) : bool :=
  match health g, maxHealth g, healthRegenRate g, coins g, xp g,
        powerups g, _lastUpdated g with
  | None, None, None, None, None, None, None => bool_decide (other g = ∅)
  | _, _, _, _, _, _, _ => false
  end.

Definition orElse {A} (b a : option A) : option A :=
  match b with Some x => Some x | None => a end.

(** [{ ...a, ...b, _lastUpdated: t }] *)
Definition spread (a b : GameValues) (t : Z) : GameValues := {|
  health := orElse (health b) (health a);
  maxHealth := orElse (maxHealth b) (maxHealth a);
  healthRegenRate := orElse (healthRegenRate b) (healthRegenRate a);
  coins := orElse (coins b) (coins a);
  xp := orElse (xp b) (xp a);
  powerups := orElse (powerups b) (powerups a);
  _lastUpdated := Some t;
  other := other b ∪ other a
|}.

(** The reasons [verifyGameValues] gives.  The two numbers are the ones
    the message interpolates: the increase and the elapsed minutes. *)
Inductive Reason :=
| InvalidClientTimestamp          (* "Invalid client timestamp" *)
| ClientTimestampInFuture         (* "Client timestamp is too far in the future" *)
| HealthExceedsMaximum            (* "Health exceeds maximum allowed value" *)
| HealthIncreasedTooFast (increase minutes : Q)
| CoinsIncreasedTooFast (increase minutes : Q)
| XpIncreasedTooFast (increase minutes : Q).

(** Entries of a player's [tampering] array. *)
Inductive TamperingEntry :=
| ReportedTampering (timestamp : Z) (type severity : string)
| InvalidValues (timestamp : Z) (reason : option Reason) (sessionId : jsval).

Record Player := {
  playerId : string;
  deviceId : string;
  created : Z;
  lastSeen : Z;
  gameData : GameValues;
  tamperingAttempts : Z;
  isBanned : bool;
  banTimestamp : option Z;
  lastSync : option Z;
  tampering : list TamperingEntry
}.

(** *** The database and the log files *)

(** The sanitized tampering event ([sanitizedData]). *)
Record TamperingEvent := {
  ev_id : string;
  ev_serverTimestamp : Z;
  ev_clientTimestamp : jsval;
  ev_severity : string;
  ev_type : string;
  ev_deviceId : string;
  ev_playerId : option string;
  ev_appVersion : option string;
  ev_details : jsval
}.

Record SyncLog := {
  sl_playerId : string;
  sl_sessionId : jsval;
  sl_timestamp : Z;
  sl_values : GameValues
}.

Record Db := {
  players : gmap string Player;           (* unique index on playerId *)
  tampering_logs : list TamperingEvent;
  sync_logs : list SyncLog
}.

(** [db] is undefined until the connection is made; [files] is the
    tampering log the server appends to on disk. *)
Record State := {
  db : option Db;
  files : list TamperingEvent
}.

(** *** Responses *)

Inductive Body :=
| ErrorBody (error : string)
| TamperingBan (message : string) (duration : Z) (requestId : string)
| TamperingWarn (message : string) (requestId : string)
| PlayerMessage (message : string) (id : string)
| SyncBan (message : string)
| SyncInvalid (message : string) (reason : option Reason) (serverValues : GameValues)
| SyncValid (serverTimestamp : Z) (verifiedValues : GameValues).

Record Response := { status : Z; body : Body }.

(** The [action] property of a response body, when it has one. *)
Definition action (b : Body) : option string :=
  match b with
  | TamperingBan _ _ _ | SyncBan _ => Some "ban"
  | TamperingWarn _ _ => Some "warn"
  | _ => None
  end.

(** *** Middleware *)

(** [validateApiKey]: [true] when the request goes on to the handler. *)
Definition validateApiKey (cfg : Config) (key : option string) : bool :=
  match key with
  | Some k => negb (String.eqb k EmptyString) && String.eqb k (apiKey cfg)
  | None => false
  end.

Definition unauthorized : Response :=
  {| status := 401; body := ErrorBody "Unauthorized access" |}.

(** [checkDatabaseConnection]: [None] when the request goes on. *)
Definition checkDatabaseConnection (cfg : Config) (st : State) : option Response :=
  if negb (databaseEnabled cfg) then None
  else match db st with
       | None => Some {| status := 503; body := ErrorBody "Database service unavailable" |}
       | Some _ => None
       end.


(** *** verifyGameValues *)

Record VerificationResult := { isValid : bool; reason : option Reason }.

Definition accepted : VerificationResult := {| isValid := true; reason := None |}.
Definition rejected (r : Reason) : VerificationResult :=
  {| isValid := false; reason := Some r |}.

(** [v || d] for a number that may be absent: absent and zero are falsy. *)
Definition orDefault (v : option Q) (d : Q) : Q :=
  match v with
  | Some q => if Qeq_bool q 0 then d else q
  | None => d
  end.

(** [newValues.powerups?.includes('health')] *)
Definition hasHealthPowerup (newValues : GameValues) : bool :=
  match powerups newValues with
  | Some l => JS.includes l "health"
  | None => false
  end.

(** [new Date(player.lastSync || player.created)] *)
Definition lastSyncTime (player : Player) : Z :=
  match lastSync player with
  | Some t => t
  | None => created player
  end.

(** [Math.max(0, (clientTime - lastSyncTime) / 60000)] *)
Definition timeDiffMinutes (player : Player) (clientTime : Z) : Q :=
  JS.Math_max 0 (inject_Z (clientTime - lastSyncTime player) / 60000)%Q.

(** The effective maximum and regeneration rate of the health block. *)
Definition maxHealthOf (player : Player) : Q :=
  orDefault (maxHealth (gameData player)) 100.
Definition maxRegenOf (player : Player) : Q :=
  orDefault (healthRegenRate (gameData player)) 5.

(** The health block: the cap first, then the regeneration rate. *)
Definition checkHealth (player : Player) (newValues : GameValues) (minutes : Q)
  : option Reason :=
  match health newValues, health (gameData player) with
  | Some newHealth, Some oldHealth =>
      let maxHealth := maxHealthOf player in
      if JS.gt newHealth maxHealth && negb (hasHealthPowerup newValues)
      then Some HealthExceedsMaximum
      else
        let maxRegen := maxRegenOf player in
        let maxPossibleHealthIncrease := (maxRegen * minutes)%Q in
        if JS.gt newHealth oldHealth
           && JS.gt maxHealth oldHealth
           && JS.gt newHealth (oldHealth + maxPossibleHealthIncrease)%Q
           && negb (hasHealthPowerup newValues)
        then Some (HealthIncreasedTooFast (newHealth - oldHealth)%Q minutes)
        else None
  | _, _ => None
  end.

(** The coins block. *)
Definition checkCoins (cfg : Config) (player : Player) (newValues : GameValues)
    (minutes : Q) : option Reason :=
  match coins newValues, coins (gameData player) with
  | Some newCoins, Some oldCoins =>
      let maxPossibleIncrease := (inject_Z (maxCoinsPerMinute cfg) * minutes)%Q in
      if JS.gt newCoins (oldCoins + maxPossibleIncrease)%Q
      then Some (CoinsIncreasedTooFast (newCoins - oldCoins)%Q minutes)
      else None
  | _, _ => None
  end.

(** The experience block. *)
Definition checkXp (cfg : Config) (player : Player) (newValues : GameValues)
    (minutes : Q) : option Reason :=
  match xp newValues, xp (gameData player) with
  | Some newXp, Some oldXp =>
      let maxPossibleXP := (inject_Z (maxXpPerMinute cfg) * minutes)%Q in
      if JS.gt newXp (oldXp + maxPossibleXP)%Q
      then Some (XpIncreasedTooFast (newXp - oldXp)%Q minutes)
      else None
  | _, _ => None
  end.

(** [clientTimestamp] is given as the date [new Date(clientTimestamp)]
    denotes, [None] for an invalid date; [currentTime] is the clock read
    inside the function; [clientChecksum] is not used by the function.  The
    function runs on the [player] object it is passed and on the state of
    the server. *)
Definition verifyGameValues (cfg : Config) (currentTime : Z)
    (newValues : GameValues) (clientTimestamp : option Z) (clientChecksum : jsval)
  : Eff (Player * State) VerificationResult :=
  (let* player := gets fst in
   if hasNoKeys (gameData player) then ret accepted
   else match clientTimestamp with
   | None => ret (rejected InvalidClientTimestamp)
   | Some clientTime =>
     if (clientTime >? currentTime + 5 * 60 * 1000)%Z
     then ret (rejected ClientTimestampInFuture)
     else
       let minutes := timeDiffMinutes player clientTime in
       match checkHealth player newValues minutes with
       | Some r => ret (rejected r)
       | None =>
         match checkCoins cfg player newValues minutes with
         | Some r => ret (rejected r)
         | None =>
           match checkXp cfg player newValues minutes with
           | Some r => ret (rejected r)
           | None => ret accepted
           end
         end
       end
   end)%eff.

(** *** Updates of the [players] collection *)

(** [{ $inc: { tamperingAttempts: 1 }, $push: { tampering: e } }] *)
Definition recordTampering (e : TamperingEntry) (p : Player) : Player := {|
  playerId := playerId p; deviceId := deviceId p; created := created p;
  lastSeen := lastSeen p; gameData := gameData p;
  tamperingAttempts := tamperingAttempts p + 1;
  isBanned := isBanned p; banTimestamp := banTimestamp p;
  lastSync := lastSync p;
  tampering := tampering p ++ [e]
|}.

(** [{ $set: { isBanned: true, banTimestamp: t } }] *)
Definition ban (t : Z) (p : Player) : Player := {|
  playerId := playerId p; deviceId := deviceId p; created := created p;
  lastSeen := lastSeen p; gameData := gameData p;
  tamperingAttempts := tamperingAttempts p;
  isBanned := true; banTimestamp := Some t;
  lastSync := lastSync p;
  tampering := tampering p
|}.

(** [{ $set: { gameData: g, lastSync: t } }] *)
Definition storeValues (g : GameValues) (t : Z) (p : Player) : Player := {|
  playerId := playerId p; deviceId := deviceId p; created := created p;
  lastSeen := lastSeen p; gameData := g;
  tamperingAttempts := tamperingAttempts p;
  isBanned := isBanned p; banTimestamp := banTimestamp p;
  lastSync := Some t;
  tampering := tampering p
|}.

(** [{ $set: { lastSeen: t, deviceId: d } }] *)
Definition touch (t : Z) (d : string) (p : Player) : Player := {|
  playerId := playerId p; deviceId := d; created := created p;
  lastSeen := t; gameData := gameData p;
  tamperingAttempts := tamperingAttempts p;
  isBanned := isBanned p; banTimestamp := banTimestamp p;
  lastSync := lastSync p;
  tampering := tampering p
|}.

(** [db.collection('players').updateOne({ playerId: id }, f)] *)
Definition updateOne (id : string) (f : Player -> Player) (d : Db) : Db := {|
  players := alter f id (players d);
  tampering_logs := tampering_logs d;
  sync_logs := sync_logs d
|}.

Definition insertPlayer (p : Player) (d : Db) : Db := {|
  players := <[playerId p := p]> (players d);
  tampering_logs := tampering_logs d;
  sync_logs := sync_logs d
|}.

Definition insertTamperingLog (e : TamperingEvent) (d : Db) : Db := {|
  players := players d;
  tampering_logs := tampering_logs d ++ [e];
  sync_logs := sync_logs d
|}.

Definition insertSyncLog (l : SyncLog) (d : Db) : Db := {|
  players := players d;
  tampering_logs := tampering_logs d;
  sync_logs := sync_logs d ++ [l]
|}.

Definition withDb (d : Db) (st : State) : State :=
  {| db := Some d; files := files st |}.

Definition respond (code : Z) (b : Body) : Response := {| status := code; body := b |}.

(** *** POST /api/log-tampering *)

Record TamperingRequest := {
  tr_apiKey : option string;          (* the x-api-key header *)
  tr_body : jsval                     (* req.body *)
}.

(** The recognised severities. *)
Definition severities : list string := ["low"; "medium"; "high"; "critical"].

Definition sanitizeSeverity (v : jsval) : string :=
  match v with
  | JStr s => if JS.includes severities s then s else "unknown"
  | _ => "unknown"
  end.

(** [typeof v === 'string' ? v.substring(0, n) : ...] *)
Definition stringPrefix (n : nat) (v : jsval) : option string :=
  match v with
  | JStr s => Some (JS.substring0 n s)
  | _ => None
  end.

(** [sanitizedData]; [now] is the server clock and [uuid] the result of
    [uuidv4()].  The client timestamp defaults to the server clock, given
    here as the number it denotes. *)
Definition sanitize (now : Z) (uuid : string) (tamperingData : jsval) : TamperingEvent := {|
  ev_id := uuid;
  ev_serverTimestamp := now;
  ev_clientTimestamp :=
    if JS.truthy (JS.field tamperingData "timestamp")
    then JS.field tamperingData "timestamp" else JNum (inject_Z now);
  ev_severity := sanitizeSeverity (JS.field tamperingData "severity");
  ev_type := default "unknown" (stringPrefix 50 (JS.field tamperingData "type"));
  ev_deviceId := default "unknown" (stringPrefix 100 (JS.field tamperingData "deviceId"));
  ev_playerId := stringPrefix 100 (JS.field tamperingData "playerId");
  ev_appVersion := stringPrefix 20 (JS.field tamperingData "appVersion");
  ev_details :=
    if JS.truthy (JS.field tamperingData "details")
    then JS.field tamperingData "details" else JObj []
|}.

(** The database part of the handler: the event is stored, and the counter
    of the player it names, if any, incremented. *)
Definition storeTampering (e : TamperingEvent) (d : Db) : Db :=
  let d1 := insertTamperingLog e d in
  match ev_playerId e with
  | Some id =>
      if String.eqb id EmptyString then d1
      else updateOne id
             (recordTampering
                (ReportedTampering (ev_serverTimestamp e) (ev_type e) (ev_severity e)))
             d1
  | None => d1
  end.

(** The route callback, reached once [validateApiKey] has let the request
    through. *)
Definition logTampering (cfg : Config) (now : Z) (uuid : string)
    (tamperingData : jsval) (st : State) : Response * State :=
  if negb (JS.truthy tamperingData) || negb (JS.isObjectType tamperingData)
  then (respond 400 (ErrorBody "Invalid request body"), st)
  else
    let sanitizedData := sanitize now uuid tamperingData in
    let st' := {| db := storeTampering sanitizedData <$> db st;
                  files := files st ++ [sanitizedData] |} in
    if String.eqb (ev_severity sanitizedData) "critical"
    then (respond 403 (TamperingBan (terminalMessage cfg) (banDuration cfg)
                         (ev_id sanitizedData)), st')
    else (respond 200 (TamperingWarn (warningMessage cfg) (ev_id sanitizedData)), st').

(** The route: [app.post('/api/log-tampering', validateApiKey, ...)]. *)
Definition postLogTampering (cfg : Config) (now : Z) (uuid : string)
    (req : TamperingRequest) (st : State) : Response * State :=
  if validateApiKey cfg (tr_apiKey req)
  then logTampering cfg now uuid (tr_body req) st
  else (unauthorized, st).

(** *** POST /api/register-player *)

Record RegisterRequest := {
  rr_apiKey : option string;
  rr_playerId : jsval;
  rr_deviceId : jsval;
  rr_initialData : option GameValues   (* [Some] when initialData is an object *)
}.

(** [!v || typeof v !== 'string' || v.length > 100] fails *)
Definition validId (v : jsval) : option string :=
  match v with
  | JStr s => if String.eqb s EmptyString then None
              else if (100 <? String.length s)%nat then None else Some s
  | _ => None
  end.

Definition registerPlayer (cfg : Config) (now : Z) (req : RegisterRequest)
    (st : State) : Response * State :=
  match validId (rr_playerId req) with
  | None => (respond 400 (ErrorBody "Invalid player ID"), st)
  | Some id =>
    match validId (rr_deviceId req) with
    | None => (respond 400 (ErrorBody "Invalid device ID"), st)
    | Some device =>
      let safeInitialData := default noValues (rr_initialData req) in
      match db st with
      | None => (respond 500 (ErrorBody "Failed to register player"), st)
      | Some d =>
        match players d !! id with
        | Some existingPlayer =>
            (respond 200 (PlayerMessage "Player updated" id),
             withDb (updateOne id (touch now device) d) st)
        | None =>
            let newPlayer := {|
              playerId := id; deviceId := device; created := now; lastSeen := now;
              gameData := safeInitialData; tamperingAttempts := 0; isBanned := false;
              banTimestamp := None; lastSync := None; tampering := []
            |} in
            (respond 201 (PlayerMessage "Player registered" id),
             withDb (insertPlayer newPlayer d) st)
        end
      end
    end
  end.

Definition postRegisterPlayer (cfg : Config) (now : Z) (req : RegisterRequest)
    (st : State) : Response * State :=
  if validateApiKey cfg (rr_apiKey req)
  then match checkDatabaseConnection cfg st with
       | Some r => (r, st)
       | None => registerPlayer cfg now req st
       end
  else (unauthorized, st).

(** *** POST /api/sync-game-values *)

Record SyncRequest := {
  sr_apiKey : option string;
  sr_playerId : jsval;
  sr_sessionId : jsval;
  sr_gameValues : option GameValues;   (* [Some] when gameValues is an object *)
  sr_clientTimestamp : option Z;       (* the date [new Date(clientTimestamp)] denotes *)
  sr_checksum : jsval
}.

(** [!v || typeof v !== 'string'] fails *)
Definition nonEmptyString (v : jsval) : option string :=
  match v with
  | JStr s => if String.eqb s EmptyString then None else Some s
  | _ => None
  end.

(** The failure of the inner [try] block. *)
Definition syncFailed : Response :=
  {| status := 500; body := ErrorBody "Failed to sync game values" |}.

(** The route callback.  [serverTimestamp] is the clock read in the handler
    and [currentTime] the one read inside [verifyGameValues]. *)
Definition syncGameValues (cfg : Config) (serverTimestamp currentTime : Z)
    (req : SyncRequest) (st : State) : Response * State :=
  match nonEmptyString (sr_playerId req) with
  | None => (respond 400 (ErrorBody "Invalid player ID"), st)
  | Some id =>
    match sr_gameValues req with
    | None => (respond 400 (ErrorBody "Invalid game values"), st)
    | Some gameValues =>
      match db st with
      | None => (syncFailed, st)
      | Some d =>
        match players d !! id with
        | None => (respond 404 (ErrorBody "Player not found"), st)
        | Some player =>
          if isBanned player
          then (respond 403 (ErrorBody "Account suspended"), st)
          else
            match verifyGameValues cfg currentTime gameValues
                    (sr_clientTimestamp req) (sr_checksum req) (player, st) with
            | (Thrown _, (_, st)) => (syncFailed, st)
            | (Returned verificationResult, (player, st)) =>
              match db st with
              | None => (syncFailed, st)
              | Some d =>
                if negb (isValid verificationResult) then
                  let d1 := updateOne id
                              (recordTampering
                                 (InvalidValues serverTimestamp
                                    (reason verificationResult) (sr_sessionId req))) d in
                  match players d1 !! id with
                  | None => (syncFailed, withDb d1 st)
                  | Some updatedPlayer =>
                    if (maxTamperingAttempts cfg <=? tamperingAttempts updatedPlayer)%Z
                    then (respond 403 (SyncBan (terminalMessage cfg)),
                          withDb (updateOne id (ban serverTimestamp) d1) st)
                    else (respond 200 (SyncInvalid (warningMessage cfg)
                                         (reason verificationResult) (gameData player)),
                          withDb d1 st)
                  end
                else
                  let updatedData := spread (gameData player) gameValues serverTimestamp in
                  let d1 := updateOne id (storeValues updatedData serverTimestamp) d in
                  let d2 := insertSyncLog {| sl_playerId := id;
                                             sl_sessionId := sr_sessionId req;
                                             sl_timestamp := serverTimestamp;
                                             sl_values := gameValues |} d1 in
                  (respond 200 (SyncValid serverTimestamp updatedData), withDb d2 st)
              end
            end
        end
      end
    end
  end.

Definition postSyncGameValues (cfg : Config) (serverTimestamp currentTime : Z)
    (req : SyncRequest) (st : State) : Response * State :=
  if validateApiKey cfg (sr_apiKey req)
  then match checkDatabaseConnection cfg st with
       | Some r => (r, st)
       | None => syncGameValues cfg serverTimestamp currentTime req st
       end
  else (unauthorized, st).

(** *** Sequences of requests *)

Inductive Request :=
| LogTampering (now : Z) (uuid : string) (req : TamperingRequest)
| RegisterPlayer (now : Z) (req : RegisterRequest)
| SyncGameValues (serverTimestamp currentTime : Z) (req : SyncRequest).

Definition handle (cfg : Config) (r : Request) (st : State) : Response * State :=
  match r with
  | LogTampering now uuid req => postLogTampering cfg now uuid req st
  | RegisterPlayer now req => postRegisterPlayer cfg now req st
  | SyncGameValues t t' req => postSyncGameValues cfg t t' req st
  end.

(** The state after a sequence of requests, served one after the other. *)
Definition serve (cfg : Config) (rs : list Request) (st : State) : State :=
  fold_left (fun s r => snd (handle cfg r s)) rs st.

(** The answers to a sequence of requests, served one after the other. *)
Fixpoint answers (cfg : Config) (rs : list Request) (st : State) : list Response :=
  match rs with
  | [] => []
  | r :: rs => fst (handle cfg r st) :: answers cfg rs (snd (handle cfg r st))
  end.

(** A severity the sanitizer keeps: one of the four recognised strings. *)
Definition recognised (v : jsval) : Prop :=
  exists s, v = JStr s /\ In s severities.

(** A player of the store whose account is suspended. *)
Definition suspended (id : string) (st : State) : Prop :=
  exists d p, db st = Some d /\ players d !! id = Some p /\ isBanned p = true.


(** The two records have the same standing and the same game data. *)
Definition sameStanding (p p' : Player) : Prop :=
  isBanned p' = isBanned p /\ banTimestamp p' = banTimestamp p /\
  gameData p' = gameData p /\ lastSync p' = lastSync p /\
  created p' = created p.

(** What a report does to the players: nothing but one more attempt. *)
Definition reportedOn (d d' : Db) : Prop :=
  sync_logs d' = sync_logs d /\
  (forall id, players d !! id = None -> players d' !! id = None) /\
  (forall id p, players d !! id = Some p ->
     exists p', players d' !! id = Some p' /\ sameStanding p p' /\
       (tamperingAttempts p' = tamperingAttempts p \/
        tamperingAttempts p' = tamperingAttempts p + 1)).

(** The reasons of the health block. *)
Definition healthReason (r : option Reason) : bool :=
  match r with
  | Some HealthExceedsMaximum | Some (HealthIncreasedTooFast _ _) => true
  | _ => false
  end.


End Server.

(** ** The protected value *)

Module GameValue.

(** *** Values, objects and the heap *)

Definition loc := positive.

(** JSON data: primitives are immediate, arrays and objects are references
    into the heap. *)
Inductive value :=
| VNull
| VBool (b : bool)
| VNum (n : Z)
| VStr (s : string)
| VRef (l : loc).

(** An array or a plain object, with its own properties in enumeration
    order (for an array, its elements under their indices). *)
Record object := { isArray : bool; props : list (string * value) }.

(** The tree [JSON.stringify] walks and [JSON.parse] builds. *)
#[local] Unset Elimination Schemes.
Inductive json :=
| JsNull
| JsBool (b : bool)
| JsNum (n : Z)
| JsStr (s : string)
| JsNode (array : bool) (members : list (string * json)).
#[local] Set Elimination Schemes.

(** The tree of a value.  A reference costs one unit of [fuel]; [None] is
    the [TypeError] of a cyclic structure. *)
Fixpoint toJson (fuel : nat) (h : gmap loc object) (v : value) : option json :=
  match v with
  | VNull => Some JsNull
  | VBool b => Some (JsBool b)
  | VNum n => Some (JsNum n)
  | VStr s => Some (JsStr s)
  | VRef l =>
      match fuel with
      | O => None
      | S fuel' =>
          match h !! l with
          | None => None
          | Some o =>
              JsNode (isArray o) <$>
                mapM (fun kv => pair (fst kv) <$> toJson fuel' h (snd kv)) (props o)
          end
      end
  end.

(** A chain of distinct references is no longer than the heap, so this
    much fuel runs out only on a cycle. *)
Definition treeOf (h : gmap loc object) (v : value) : option json :=
  toJson (size h) h v.

(** The objects [JSON.parse] allocates for a tree, members first. *)
Fixpoint alloc (j : json) (h : gmap loc object) {struct j} : value * gmap loc object :=
  match j with
  | JsNull => (VNull, h)
  | JsBool b => (VBool b, h)
  | JsNum n => (VNum n, h)
  | JsStr s => (VStr s, h)
  | JsNode array members =>
      let '(vs, h1) :=
        (fix allocMembers (ms : list (string * json)) (h : gmap loc object)
           : list (string * value) * gmap loc object :=
           match ms with
           | [] => ([], h)
           | (k, j') :: rest =>
               let '(v, h1) := alloc j' h in
               let '(vs, h2) := allocMembers rest h1 in
               ((k, v) :: vs, h2)
           end) members h in
      let l := fresh (dom h1) in
      (VRef l, <[l := {| isArray := array; props := vs |}]> h1)
  end.

(** The members of a node, allocated in order. *)
Definition allocMembers : list (string * json) -> gmap loc object ->
                          list (string * value) * gmap loc object :=
  fix allocMembers ms h :=
    match ms with
    | [] => ([], h)
    | (k, j') :: rest =>
        let '(v, h1) := alloc j' h in
        let '(vs, h2) := allocMembers rest h1 in
        ((k, v) :: vs, h2)
    end.

(** The number of arrays and objects in a tree. *)
Fixpoint nodes (j : json) : nat :=
  match j with
  | JsNode _ members => S (sum_list (map (fun kj => nodes (snd kj)) members))
  | _ => O
  end.

(** *** JSON.stringify: the text *)

Definition quoteChar : string := String (Ascii.ascii_of_nat 34) EmptyString.

Definition hexDigit (n : nat) : string :=
  String.substring n 1 "0123456789abcdef".

(** The escape of one code unit inside a JSON string. *)
Definition escape (c : Ascii.ascii) : string :=
  let n := Ascii.nat_of_ascii c in
  if (n =? 34)%nat then "\" +:+ quoteChar
  else if (n =? 92)%nat then "\\"
  else if (n =? 8)%nat then "\b"
  else if (n =? 9)%nat then "\t"
  else if (n =? 10)%nat then "\n"
  else if (n =? 12)%nat then "\f"
  else if (n =? 13)%nat then "\r"
  else if (n <? 32)%nat then "\u00" +:+ hexDigit (n / 16) +:+ hexDigit (n mod 16)
  else String c EmptyString.

Fixpoint escapeAll (s : string) : string :=
  match s with
  | EmptyString => EmptyString
  | String c rest => escape c +:+ escapeAll rest
  end.

Definition quote (s : string) : string := quoteChar +:+ escapeAll s +:+ quoteChar.

Fixpoint stringify (j : json) : string :=
  match j with
  | JsNull => "null"
  | JsBool true => "true"
  | JsBool false => "false"
  | JsNum n => pretty n
  | JsStr s => quote s
  | JsNode true members =>
      "[" +:+ String.concat "," (map (fun kj => stringify (snd kj)) members) +:+ "]"
  | JsNode false members =>
      "{" +:+ String.concat ","
               (map (fun kj => quote (fst kj) +:+ ":" +:+ stringify (snd kj)) members)
          +:+ "}"
  end.

(** *** calculateChecksum *)

(** ToInt32 *)
Definition toInt32 (z : Z) : Z := (z + 2 ^ 31) mod 2 ^ 32 - 2 ^ 31.

(** One turn of the loop: [hash = ((hash << 5) - hash) + char; hash = hash & hash]. *)
Definition hashStep (hash char : Z) : Z :=
  let hash := toInt32 (Z.shiftl (toInt32 hash) 5) - hash + char in
  Z.land (toInt32 hash) (toInt32 hash).

Definition charCodes (s : string) : list Z :=
  map (fun c => Z.of_nat (Ascii.nat_of_ascii c)) (String.list_ascii_of_string s).

Definition hashOf (valueString : string) : Z :=
  fold_left hashStep (charCodes valueString) 0.

(** [n.toString(16)] for an integer [n >= 0] *)
Definition toString16 (n : Z) : string :=
  HexadecimalString.NilZero.string_of_uint (N.to_hex_uint (Z.to_N n)).

Definition checksumOf (j : json) : string :=
  toString16 (Z.abs (hashOf (stringify j))).

(** [None]: [JSON.stringify] throws. *)
Definition calculateChecksum (h : gmap loc object) (v : value) : option string :=
  checksumOf <$> treeOf h v.

(** *** The class *)

(** What the methods can reach besides [this]: the heap and the console. *)
Record World := { heap : gmap loc object; console : list string }.

Definition withHeap (h : gmap loc object) (w : World) : World :=
  {| heap := h; console := console w |}.

Definition consoleLog (line : string) (w : World) : World :=
  {| heap := heap w; console := console w ++ [line] |}.

(** [deepClone]: primitives are returned as they are; an object goes
    through [JSON.parse(JSON.stringify(value))], and comes back itself when
    that throws. *)
Definition deepClone (v : value) : Eff World value :=
  fun w =>
    match v with
    | VRef _ =>
        match treeOf (heap w) v with
        | Some j => let '(r, h') := alloc j (heap w) in (Returned r, withHeap h' w)
        | None => (Returned v, consoleLog "[GameValue] Error cloning value" w)
        end
    | _ => (Returned v, w)
    end.

Section Class.

(** The state a verification callback reads. *)
Context {Env : Type}.

Record GameValue := {
  key : string;
  originalValue : value;
  currentValue : value;
  checksums : list string;
  lastAccessTime : Z;
  accessCount : Z;
  verificationCallback : option (Env -> bool)
}.

Definition accessed (now : Z) (g : GameValue) : GameValue := {|
  key := key g; originalValue := originalValue g; currentValue := currentValue g;
  checksums := checksums g;
  lastAccessTime := now; accessCount := accessCount g + 1;
  verificationCallback := verificationCallback g
|}.

Definition withCurrentValue (v : value) (g : GameValue) : GameValue := {|
  key := key g; originalValue := originalValue g; currentValue := v;
  checksums := checksums g;
  lastAccessTime := lastAccessTime g; accessCount := accessCount g;
  verificationCallback := verificationCallback g
|}.

Definition withChecksums (cs : list string) (g : GameValue) : GameValue := {|
  key := key g; originalValue := originalValue g; currentValue := currentValue g;
  checksums := cs;
  lastAccessTime := lastAccessTime g; accessCount := accessCount g;
  verificationCallback := verificationCallback g
|}.

(** A method runs on [this] and the world. *)
Definition Method (A : Type) : Type := Eff (GameValue * World) A.

Definition this : Method GameValue := gets fst.
Definition setThis (f : GameValue -> GameValue) : Method unit :=
  modify (fun s => (f (fst s), snd s)).
Definition onWorld {A} (m : Eff World A) : Method A :=
  fun s => let '(r, w) := m (snd s) in (r, (fst s, w)).
Definition log (line : string) : Method unit :=
  modify (fun s => (fst s, consoleLog line (snd s))).

Local Open Scope eff_scope.

(** [this.calculateChecksum(value)] *)
Definition checksum (v : value) : Method string :=
  fun s => match calculateChecksum (heap (snd s)) v with
           | Some c => ret c s
           | None => throw "TypeError" s
           end.

Definition isChecksumValid : Method bool :=
  let* g := this in
  let* currentChecksum := checksum (currentValue g) in
  ret (bool_decide (currentChecksum ∈ checksums g)).

Definition updateChecksums : Method unit :=
  let* g := this in
  let* c := checksum (currentValue g) in
  setThis (withChecksums [c]).

(** [now] is the value of [Date.now()]. *)
Definition get (now : Z) : Method value :=
  let* _ := setThis (accessed now) in
  let* ok := isChecksumValid in
  let* g := this in
  let* _ := (if ok then ret tt
             else log ("[GameValue] Tampering detected when accessing: " +:+ key g)) in
  onWorld (deepClone (currentValue g)).

Definition set (now : Z) (newValue : value) : Method unit :=
  let* _ := setThis (accessed now) in
  let* ok := isChecksumValid in
  let* g := this in
  let* _ := (if ok then ret tt
             else log ("[GameValue] Tampering detected when setting: " +:+ key g)) in
  let* v := onWorld (deepClone newValue) in
  let* _ := setThis (withCurrentValue v) in
  updateChecksums.

Definition reset : Method unit :=
  let* g := this in
  let* v := onWorld (deepClone (originalValue g)) in
  let* _ := setThis (withCurrentValue v) in
  let* _ := updateChecksums in
  log ("[GameValue] Reset value: " +:+ key g).

(** [env] is the state the callback finds when it is called. *)
Definition verify (env : Env) : Method bool :=
  let* isChecksumValid := isChecksumValid in
  let* g := this in
  let isCustomVerificationValid :=
    if negb isChecksumValid then false
    else match verificationCallback g with
         | Some callback => callback env
         | None => true
         end in
  ret (isChecksumValid && isCustomVerificationValid).

(** [new GameValue(key, initialValue, verificationCallback)] *)
Definition new (now : Z) (key : string) (initialValue : value)
    (verificationCallback : option (Env -> bool)) : Eff World GameValue :=
  let* original := deepClone initialValue in
  let* current := deepClone initialValue in
  fun w =>
    match calculateChecksum (heap w) current with
    | None => (Thrown "TypeError", w)
    | Some c =>
        (Returned {| key := key; originalValue := original; currentValue := current;
                     checksums := [c]; lastAccessTime := now; accessCount := 0;
                     verificationCallback := verificationCallback |},
         consoleLog ("[GameValue] Protected value created: " +:+ key) w)
    end.

End Class.
Arguments GameValue Env : clear implicits.

End GameValue.

(** ** The orchestrator *)

Module Shield.

(** *** Detections *)

(** What each detection finds when it is run in one cycle: the outcomes of
    [Math.random] in [ToolDetector] and of the scan in [MemoryScanner]. *)
Record Probes := {
  cheatToolApps : bool;
  suspiciousProcesses : bool;
  memorySignatures : bool;
  debugger : bool;
  emulator : bool;
  memoryTampered : bool
}.

(** The checks a cycle can perform. *)
Inductive Check :=
| DetectCheatToolApps
| DetectSuspiciousProcesses
| DetectMemorySignatures
| DetectDebugger
| DetectEmulator
| ScanMemoryForTampering
| VerifyValue (key : string).

(** [CheatToolDetectionResult]; [confidence] is [details.confidence]. *)
Record CheatToolDetectionResult := {
  detected : bool;
  detectionType : option string;
  confidence : option string
}.

Definition notDetected : CheatToolDetectionResult :=
  {| detected := false; detectionType := None; confidence := None |}.

Definition found (type conf : string) (positive : bool) : CheatToolDetectionResult :=
  if positive
  then {| detected := true; detectionType := Some type; confidence := Some conf |}
  else notDetected.

Inductive CheatDetectionType :=
| MEMORY_TAMPERING
| VALUE_TAMPERING
| TOOL_DETECTED
| DEBUGGER_DETECTED
| EMULATOR_DETECTED
| SUSPICIOUS_BEHAVIOR.

Inductive Details :=
| ToolDetails (result : CheatToolDetectionResult)
| ScanDetails
| TamperedKeys (tamperedKeys : list string).

(** [CheatDetectionEvent], without its timestamp. *)
Record CheatDetectionEvent := {
  type : CheatDetectionType;
  severity : string;
  details : Details
}.

(** *** GuardianShield *)

(** The fields of the shield and of its protector, the world its protected
    values live in, and what it has done: the checks run, in order, and the
    events handed to [handleCheatDetected]. *)
Record State := {
  isRunning : bool;
  checkInterval : Z;
  intervalId : option nat;
  protectedValues : list (string * GameValue.GameValue bool);
  isVerifying : bool;
  detectedTamperingAttempts : Z;
  world : GameValue.World;
  timers : nat;
  checksRun : list Check;
  events : list CheatDetectionEvent
}.

Definition withWorld (w : GameValue.World) (s : State) : State := {|
  isRunning := isRunning s; checkInterval := checkInterval s;
  intervalId := intervalId s; protectedValues := protectedValues s;
  isVerifying := isVerifying s;
  detectedTamperingAttempts := detectedTamperingAttempts s;
  world := w; timers := timers s; checksRun := checksRun s; events := events s
|}.

Definition withVerifying (b : bool) (s : State) : State := {|
  isRunning := isRunning s; checkInterval := checkInterval s;
  intervalId := intervalId s; protectedValues := protectedValues s;
  isVerifying := b;
  detectedTamperingAttempts := detectedTamperingAttempts s;
  world := world s; timers := timers s; checksRun := checksRun s; events := events s
|}.

Definition ran (c : Check) (s : State) : State := {|
  isRunning := isRunning s; checkInterval := checkInterval s;
  intervalId := intervalId s; protectedValues := protectedValues s;
  isVerifying := isVerifying s;
  detectedTamperingAttempts := detectedTamperingAttempts s;
  world := world s; timers := timers s;
  checksRun := checksRun s ++ [c]; events := events s
|}.

(** [handleCheatDetected]: the protector counts the attempt and the event
    goes to the server report and to the registered callback. *)
Definition handled (e : CheatDetectionEvent) (s : State) : State := {|
  isRunning := isRunning s; checkInterval := checkInterval s;
  intervalId := intervalId s; protectedValues := protectedValues s;
  isVerifying := isVerifying s;
  detectedTamperingAttempts := detectedTamperingAttempts s + 1;
  world := world s; timers := timers s; checksRun := checksRun s;
  events := events s ++ [e]
|}.

(** [this.isRunning = true; this.intervalId = setInterval(...)] *)
Definition started (s : State) : State := {|
  isRunning := true; checkInterval := checkInterval s;
  intervalId := Some (timers s); protectedValues := protectedValues s;
  isVerifying := isVerifying s;
  detectedTamperingAttempts := detectedTamperingAttempts s;
  world := world s; timers := S (timers s); checksRun := checksRun s;
  events := events s
|}.

(** [this.isRunning = false; clearInterval(this.intervalId); this.intervalId = null] *)
Definition stopped (s : State) : State := {|
  isRunning := false; checkInterval := checkInterval s;
  intervalId := None; protectedValues := protectedValues s;
  isVerifying := isVerifying s;
  detectedTamperingAttempts := detectedTamperingAttempts s;
  world := world s; timers := timers s; checksRun := checksRun s;
  events := events s
|}.

Local Open Scope eff_scope.

(** One detection of [ToolDetector]: it is recorded as run and answers what
    the probe says. *)
Definition detect (c : Check) (type conf : string) (positive : bool)
  : Eff State CheatToolDetectionResult :=
  let* _ := modify (ran c) in
  ret (found type conf positive).

(** [ToolDetector.detectCheatTools] *)
Definition detectCheatTools (p : Probes) : Eff State CheatToolDetectionResult :=
  let* appDetection :=
    detect DetectCheatToolApps "installed_package" "high" (cheatToolApps p) in
  if detected appDetection then ret appDetection else
  let* processDetection :=
    detect DetectSuspiciousProcesses "running_process" "medium" (suspiciousProcesses p) in
  if detected processDetection then ret processDetection else
  let* signatureDetection :=
    detect DetectMemorySignatures "memory_signature" "medium" (memorySignatures p) in
  if detected signatureDetection then ret signatureDetection else
  let* debuggerDetection := detect DetectDebugger "debugger" "high" (debugger p) in
  if detected debuggerDetection then ret debuggerDetection else
  let* emulatorDetection := detect DetectEmulator "emulator" "high" (emulator p) in
  if detected emulatorDetection then ret emulatorDetection else
  ret notDetected.

(** [MemoryScanner.scanMemoryForTampering], as the probe it is. *)
Definition scanMemoryForTampering (p : Probes) : Eff State bool :=
  let* _ := modify (ran ScanMemoryForTampering) in
  ret (memoryTampered p).

Definition handleCheatDetected (e : CheatDetectionEvent) : Eff State unit :=
  modify (handled e).

(** [value.verify()] on one protected value of the shield; its callback
    finds the flag [isVerifying] as it is at the call. *)
Definition verifyValue (key : string) (g : GameValue.GameValue bool) : Eff State bool :=
  fun s =>
    let '(r, gw) := GameValue.verify (isVerifying s)
                      (g, world (ran (VerifyValue key) s)) in
    (r, withWorld (snd gw) (ran (VerifyValue key) s)).

(** The [forEach] over [protectedValues]: the keys whose value fails. *)
Fixpoint verifyValues (values : list (string * GameValue.GameValue bool))
  : Eff State (list string) :=
  match values with
  | [] => ret []
  | (key, value) :: rest =>
      let* ok := verifyValue key value in
      let* tamperedKeys := verifyValues rest in
      ret (if ok then tamperedKeys else key :: tamperedKeys)
  end.

(** [runChecks]: the result is [criticalIssueDetected]. *)
Definition runChecks (p : Probes) : Eff State bool :=
  let* toolsDetectionResult := detectCheatTools p in
  let* _ := (if detected toolsDetectionResult
             then handleCheatDetected
                    {| type := TOOL_DETECTED; severity := "critical";
                       details := ToolDetails toolsDetectionResult |}
             else ret tt) in
  let* memoryTamperingResult := scanMemoryForTampering p in
  let* _ := (if memoryTamperingResult
             then handleCheatDetected
                    {| type := MEMORY_TAMPERING; severity := "high";
                       details := ScanDetails |}
             else ret tt) in
  let* _ := modify (withVerifying true) in
  let* values := gets protectedValues in
  let* tamperedKeys := verifyValues values in
  let* _ := modify (withVerifying false) in
  let valuesTampered := negb (bool_decide (tamperedKeys = [])) in
  let* _ := (if valuesTampered
             then handleCheatDetected
                    {| type := VALUE_TAMPERING; severity := "high";
                       details := TamperedKeys tamperedKeys |}
             else ret tt) in
  ret (detected toolsDetectionResult || memoryTamperingResult || valuesTampered).

(** The callback [protectValue] gives to the values it creates; it reads the
    flag [isVerifying]. *)
Definition verificationCallback (isVerifying : bool) : bool :=
  if isVerifying then true else true.

(** [this.protectedValues.set(key, gameValue)]: a key that is present keeps
    its place. *)
Fixpoint mapSet (key : string) (g : GameValue.GameValue bool)
    (values : list (string * GameValue.GameValue bool))
  : list (string * GameValue.GameValue bool) :=
  match values with
  | [] => [(key, g)]
  | (k, g') :: rest =>
      if String.eqb k key then (key, g) :: rest else (k, g') :: mapSet key g rest
  end.

Definition withValues (values : list (string * GameValue.GameValue bool))
    (s : State) : State := {|
  isRunning := isRunning s; checkInterval := checkInterval s;
  intervalId := intervalId s; protectedValues := values;
  isVerifying := isVerifying s;
  detectedTamperingAttempts := detectedTamperingAttempts s;
  world := world s; timers := timers s; checksRun := checksRun s; events := events s
|}.

(** [protectValue]; [now] is the value of [Date.now()]. *)
Definition protectValue (now : Z) (key : string) (initialValue : GameValue.value)
  : Eff State (GameValue.GameValue bool) :=
  fun s =>
    match GameValue.new now key initialValue (Some verificationCallback) (world s) with
    | (Returned gameValue, w) =>
        (Returned gameValue,
         withValues (mapSet key gameValue (protectedValues s)) (withWorld w s))
    | (Thrown e, w) => (Thrown e, withWorld w s)
    end.

(** [start]; [p] is what the initial check finds. *)
Definition start (p : Probes) : Eff State bool :=
  let* running := gets isRunning in
  if running then ret true else
  let* criticalIssueDetected := runChecks p in
  if criticalIssueDetected then ret false else
  let* _ := modify started in
  ret true.

Definition stop : Eff State unit :=
  let* running := gets isRunning in
  if negb running then ret tt else modify stopped.

(** One firing of the interval timer. *)
Definition cycle (p : Probes) : Eff State unit :=
  fun s =>
    match intervalId s with
    | Some _ => let '(r, s') := runChecks p s in
                (match r with Returned _ => Returned tt | Thrown e => Thrown e end, s')
    | None => (Returned tt, s)
    end.

(** A shield that has just been constructed, protecting [values]. *)
Definition fresh (values : list (string * GameValue.GameValue bool))
    (w : GameValue.World) : State := {|
  isRunning := false; checkInterval := 1000; intervalId := None;
  protectedValues := values; isVerifying := false;
  detectedTamperingAttempts := 0; world := w; timers := 0;
  checksRun := []; events := []
|}.

(** *** Vocabulary of the statements *)

(** The detections [detectCheatTools] performs: in its fixed order, up to
    and including the first that finds something. *)
Definition toolChecks (p : Probes) : list Check :=
  DetectCheatToolApps ::
  if cheatToolApps p then [] else
  DetectSuspiciousProcesses ::
  if suspiciousProcesses p then [] else
  DetectMemorySignatures ::
  if memorySignatures p then [] else
  DetectDebugger ::
  if debugger p then [] else
  [DetectEmulator].

Definition toolDetected (p : Probes) : bool :=
  cheatToolApps p || suspiciousProcesses p || memorySignatures p
  || debugger p || emulator p.

(** The verifications of the protected values, in the order of the map. *)
Definition valueChecks (s : State) : list Check :=
  map (fun kv => VerifyValue (fst kv)) (protectedValues s).

(** The state with further checks recorded as run. *)
Definition advance (cs : list Check) (s : State) : State := {|
  isRunning := isRunning s; checkInterval := checkInterval s;
  intervalId := intervalId s; protectedValues := protectedValues s;
  isVerifying := isVerifying s;
  detectedTamperingAttempts := detectedTamperingAttempts s;
  world := world s; timers := timers s;
  checksRun := checksRun s ++ cs; events := events s
|}.

(** What [runChecks] leaves alone. *)
Definition control (s : State)
  : bool * Z * option nat * list (string * GameValue.GameValue bool) * nat :=
  (isRunning s, checkInterval s, intervalId s, protectedValues s, timers s).

(** The events a check reports, by what it found. *)
Definition toolEvent (r : CheatToolDetectionResult) : CheatDetectionEvent :=
  {| type := TOOL_DETECTED; severity := "critical"; details := ToolDetails r |}.
Definition memoryEvent : CheatDetectionEvent :=
  {| type := MEMORY_TAMPERING; severity := "high"; details := ScanDetails |}.
Definition valueEvent (keys : list string) : CheatDetectionEvent :=
  {| type := VALUE_TAMPERING; severity := "high"; details := TamperedKeys keys |}.

Definition reported (r : CheatToolDetectionResult) (p : Probes) (keys : list string)
  : list CheatDetectionEvent :=
  (if detected r then [toolEvent r] else [])
  ++ (if memoryTampered p then [memoryEvent] else [])
  ++ (if negb (bool_decide (keys = [])) then [valueEvent keys] else []).

(** Every protected value of the shield holds a value that
    [JSON.stringify] accepts, as it does after its construction. *)
Definition intact (s : State) : Prop :=
  Forall (fun kv => is_Some (GameValue.treeOf (GameValue.heap (world s))
                               (GameValue.currentValue (snd kv))))
    (protectedValues s).

(** [value.verify()] as a check of the shield finds it, with the flag
    [isVerifying] set: [true] when it returns true. *)
Definition verifies (w : GameValue.World) (g : GameValue.GameValue bool) : bool :=
  match fst (GameValue.verify true (g, w)) with
  | Returned ok => ok
  | Thrown _ => false
  end.

(** The keys of the protected values that fail their verification, in the
    order of the map. *)
Definition failing (s : State) : list string :=
  map fst (List.filter (fun kv => negb (verifies (world s) (snd kv)))
             (protectedValues s)).

(** Every protected value of the shield holds a value that
    [JSON.stringify] accepts, and verifies. *)
Definition allVerify (s : State) : Prop :=
  Forall (fun kv => is_Some (GameValue.treeOf (GameValue.heap (world s))
                               (GameValue.currentValue (snd kv)))
                    /\ verifies (world s) (snd kv) = true)
    (protectedValues s).

(** Calls of [protectValue], one after the other: each item is the clock,
    the key and the initial value of a call. *)
Fixpoint protectAll (items : list (Z * string * GameValue.value)) : Eff State unit :=
  match items with
  | [] => ret tt
  | (now, key, initialValue) :: rest =>
      let* _ := protectValue now key initialValue in
      protectAll rest
  end.

(** What happens to a shield: the calls of its public methods, and the
    firings of its timer. *)
Inductive Call :=
| Start (p : Probes)
| Stop
| Tick (p : Probes)
| ProtectValue (now : Z) (key : string) (initialValue : GameValue.value).

(** The shield after a call, whether the call returned or threw. *)
Definition after (c : Call) (s : State) : State :=
  match c with
  | Start p => snd (start p s)
  | Stop => snd (stop s)
  | Tick p => snd (cycle p s)
  | ProtectValue now key initialValue => snd (protectValue now key initialValue s)
  end.

Definition history (cs : list Call) (s : State) : State :=
  fold_left (fun s c => after c s) cs s.


End Shield.

(** ** The memory scanner *)

Module Scanner.

(** *** Region keys *)

(** The piece of [s] before its first colon (code 58), and what follows
    that colon when there is one. *)
Fixpoint piece (s : string) : string * option string :=
  match s with
  | EmptyString => (EmptyString, None)
  | String c rest =>
      if (Ascii.nat_of_ascii c =? 58)%nat then (EmptyString, Some rest)
      else let '(p, r) := piece rest in (String c p, r)
  end.


(** [const [address, sizeStr] = region.split(':')]; [None] is undefined. *)
Definition splitRegion (region : string) : string * option string :=
  let '(address, rest) := piece region in
  (address, (fun r => fst (piece r)) <$> rest).

(** White space, among the code units below 256. *)
Definition isWhiteSpace (c : Ascii.ascii) : bool :=
  let n := Ascii.nat_of_ascii c in
  (n =? 9)%nat || (n =? 10)%nat || (n =? 11)%nat || (n =? 12)%nat
  || (n =? 13)%nat || (n =? 32)%nat || (n =? 160)%nat.

Fixpoint trimStart (s : string) : string :=
  match s with
  | String c rest => if isWhiteSpace c then trimStart rest else s
  | EmptyString => s
  end.

Definition digit (c : Ascii.ascii) : option Z :=
  let n := Ascii.nat_of_ascii c in
  if (48 <=? n)%nat && (n <=? 57)%nat then Some (Z.of_nat (n - 48)) else None.

(** The number the longest prefix of decimal digits denotes, after the
    digits read so far; [None] when no digit was read. *)
Fixpoint digits (s : string) (read : option Z) : option Z :=
  match s with
  | String c rest =>
      match digit c with
      | Some d => digits rest (Some (10 * default 0 read + d))
      | None => read
      end
  | EmptyString => read
  end.

(** [parseInt(s, 10)], exact on integers; [None] is NaN.  The sign is a
    minus (code 45) or a plus (code 43). *)
Definition parseInt (s : option string) : option Z :=
  match s with
  | None => None
  | Some s =>
      match trimStart s with
      | String c rest =>
          if (Ascii.nat_of_ascii c =? 45)%nat then Z.opp <$> digits rest None
          else if (Ascii.nat_of_ascii c =? 43)%nat then digits rest None
          else digits (String c rest) None
      | EmptyString => None
      end
  end.

(** The string of a number in a concatenation. *)
Definition showNumber (n : option Z) : string :=
  match n with
  | Some z => pretty z
  | None => "NaN"
  end.

(** [s.padStart(n, '0')] *)
Definition padStart (n : nat) (s : string) : string :=
  String.concat EmptyString (replicate (n - String.length s) "0") +:+ s.

(** [simulateMd5]: the loop is the one of [GameValue.calculateChecksum]. *)
Definition simulateMd5 (input : string) : string :=
  if (String.length input =? 0)%nat then GameValue.toString16 0
  else padStart 32 (GameValue.toString16 (Z.abs (GameValue.hashOf input))).

(** [calculateChecksumForRegion] for the value [now] of [Date.now()]. *)
Definition checksumAt (now : Z) (region : string) : string :=
  let '(address, sizeStr) := splitRegion region in
  let size := parseInt sizeStr in
  simulateMd5 (address +:+ showNumber size +:+ pretty now).

(** *** The class *)

Record MemoryScanner := {
  memoryChecksums : gmap string string;
  lastScanTime : Z;
  sensitiveAddresses : list string
}.

(** The clock: the values [Date.now()] returns, in the order of the calls,
    and the number of calls made so far. *)
Record Clock := { time : nat -> Z; reads : nat }.

Definition Method (A : Type) : Type := Eff (MemoryScanner * Clock) A.

Local Open Scope eff_scope.

Definition Date_now : Method Z :=
  fun s => (Returned (time (snd s) (reads (snd s))),
            (fst s, {| time := time (snd s); reads := S (reads (snd s)) |})).

Definition this : Method MemoryScanner := gets fst.

Definition withChecksum (region checksum : string) (m : MemoryScanner)
  : MemoryScanner := {|
  memoryChecksums := <[region := checksum]> (memoryChecksums m);
  lastScanTime := lastScanTime m;
  sensitiveAddresses := sensitiveAddresses m
|}.

Definition withLastScanTime (t : Z) (m : MemoryScanner) : MemoryScanner := {|
  memoryChecksums := memoryChecksums m;
  lastScanTime := t;
  sensitiveAddresses := sensitiveAddresses m
|}.

Definition pushRegion (regionKey : string) (m : MemoryScanner) : MemoryScanner := {|
  memoryChecksums := memoryChecksums m;
  lastScanTime := lastScanTime m;
  sensitiveAddresses := sensitiveAddresses m ++ [regionKey]
|}.

Definition calculateChecksumForRegion (region : string) : Method string :=
  let* now := Date_now in
  ret (checksumAt now region).

Definition updateChecksumForRegion (region : string) : Method unit :=
  let* checksum := calculateChecksumForRegion region in
  modify (fun s => (withChecksum region checksum (fst s), snd s)).

(** The loop of [updateMemoryChecksums] over the regions. *)
Fixpoint updateAll (regions : list string) : Method unit :=
  match regions with
  | [] => ret tt
  | region :: rest =>
      let* _ := updateChecksumForRegion region in
      updateAll rest
  end.

Definition updateMemoryChecksums : Method unit :=
  let* m := this in
  updateAll (sensitiveAddresses m).

(** [savedChecksum && currentChecksum !== savedChecksum] *)
Definition changed (savedChecksum : option string) (currentChecksum : string) : bool :=
  match savedChecksum with
  | Some saved =>
      negb (String.eqb saved EmptyString) && negb (String.eqb currentChecksum saved)
  | None => false
  end.

(** The loop of [checkMemoryChecksums] over the regions. *)
Fixpoint checkAll (regions : list string) : Method (list string) :=
  match regions with
  | [] => ret []
  | region :: rest =>
      let* currentChecksum := calculateChecksumForRegion region in
      let* m := this in
      let* tamperedRegions := checkAll rest in
      ret (if changed (memoryChecksums m !! region) currentChecksum
           then region :: tamperedRegions else tamperedRegions)
  end.

Definition checkMemoryChecksums : Method (list string) :=
  let* m := this in
  checkAll (sensitiveAddresses m).

Inductive Details :=
| TimeManipulation (timeDiff expectedMaxDiff : Z)
| ChecksumMismatch (affectedRegions : nat).

Record MemoryScanResult := {
  tampered : bool;
  regions : option (list string);
  details : option Details
}.

(** [scanMemoryForTampering].  Nothing in its [try] block throws, and what
    it writes to the console is left out. *)
Definition scanMemoryForTampering : Method MemoryScanResult :=
  let* currentTime := Date_now in
  let* m := this in
  let timeDiff := currentTime - lastScanTime m in
  let* _ := modify (fun s => (withLastScanTime currentTime (fst s), snd s)) in
  if (0 <? currentTime)%Z && ((5000 <? timeDiff)%Z || (timeDiff <? 0)%Z)
  then ret {| tampered := true; regions := None;
              details := Some (TimeManipulation timeDiff 5000) |}
  else
    let* tamperedRegions := checkMemoryChecksums in
    if (0 <? length tamperedRegions)%nat
    then ret {| tampered := true; regions := Some tamperedRegions;
                details := Some (ChecksumMismatch (length tamperedRegions)) |}
    else
      let* _ := updateMemoryChecksums in
      ret {| tampered := false; regions := None; details := None |}.

(** [addSensitiveRegion(address, size)] for an integer [size]. *)
Definition addSensitiveRegion (address : string) (size : Z) : Method unit :=
  let regionKey := address +:+ ":" +:+ pretty size in
  let* _ := modify (fun s => (pushRegion regionKey (fst s), snd s)) in
  updateChecksumForRegion regionKey.

Definition getSensitiveRegions : Method (list string) :=
  let* m := this in
  ret (sensitiveAddresses m).

(** The regions [initializeSensitiveRegions] starts with. *)
Definition sensitiveRegions : list (string * Z) :=
  [("0x12340000", 1024); ("0x12350000", 512); ("0x12360000", 256)].

Fixpoint initializeAll (regions : list (string * Z)) : Method unit :=
  match regions with
  | [] => ret tt
  | (address, size) :: rest =>
      let regionKey := address +:+ ":" +:+ pretty size in
      let* _ := modify (fun s => (pushRegion regionKey (fst s), snd s)) in
      let* _ := updateChecksumForRegion regionKey in
      initializeAll rest
  end.

Definition initializeSensitiveRegions : Method unit := initializeAll sensitiveRegions.

(** [new MemoryScanner()], on the clock it finds. *)
Definition new (c : Clock) : MemoryScanner * Clock :=
  snd (initializeSensitiveRegions
         ({| memoryChecksums := ∅; lastScanTime := 0; sensitiveAddresses := [] |}, c)).

(** What the shield finds when the memory scan of a cycle is the scan
    [result]. *)
Definition scanned (p : Shield.Probes) (result : outcome MemoryScanResult)
  : Shield.Probes := {|
  Shield.cheatToolApps := Shield.cheatToolApps p;
  Shield.suspiciousProcesses := Shield.suspiciousProcesses p;
  Shield.memorySignatures := Shield.memorySignatures p;
  Shield.debugger := Shield.debugger p;
  Shield.emulator := Shield.emulator p;
  Shield.memoryTampered :=
    match result with
    | Returned r => tampered r
    | Thrown _ => false
    end
|}.

End Scanner.

(** ** The protector *)

Module Protector.

(** The fields of [MemoryProtector], and what it wrote to the console.
    Numbers are integers. *)
Record MemoryProtector := {
  obfuscationEnabled : bool;
  encryptionEnabled : bool;
  detectedTamperingAttempts : Z;
  maxTamperingAttempts : Z;
  serverLogEndpoint : option string;
  console : list string
}.

Definition logged (lines : list string) (p : MemoryProtector) : MemoryProtector := {|
  obfuscationEnabled := obfuscationEnabled p;
  encryptionEnabled := encryptionEnabled p;
  detectedTamperingAttempts := detectedTamperingAttempts p;
  maxTamperingAttempts := maxTamperingAttempts p;
  serverLogEndpoint := serverLogEndpoint p;
  console := console p ++ lines
|}.

(** [new MemoryProtector(options)]; [endpoint] is
    [options?.serverLogEndpoint], kept when it is truthy. *)
Definition new (endpoint : option string) : MemoryProtector := {|
  obfuscationEnabled := true;
  encryptionEnabled := true;
  detectedTamperingAttempts := 0;
  maxTamperingAttempts := 3;
  serverLogEndpoint :=
    match endpoint with
    | Some e => if String.eqb e EmptyString then None else Some e
    | None => None
    end;
  console := ["[STFUGameGuardian] Setting up memory protection measures"]
|}.

Definition attemptLine (attempts max : Z) : string :=
  "[STFUGameGuardian] Applying countermeasures (attempt " +:+ pretty attempts
  +:+ "/" +:+ pretty max +:+ ")".

(** What [applyWarningCountermeasures] and [applyTerminalCountermeasures]
    write. *)
Definition warningLine : string := "[STFUGameGuardian] Applied warning countermeasures".
Definition terminalLine : string := "[STFUGameGuardian] Applied terminal countermeasures".

Definition applyCountermeasures (p : MemoryProtector) : MemoryProtector :=
  let attempts := detectedTamperingAttempts p + 1 in
  {| obfuscationEnabled := obfuscationEnabled p;
     encryptionEnabled := encryptionEnabled p;
     detectedTamperingAttempts := attempts;
     maxTamperingAttempts := maxTamperingAttempts p;
     serverLogEndpoint := serverLogEndpoint p;
     console :=
       console p ++
       [attemptLine attempts (maxTamperingAttempts p);
        if (maxTamperingAttempts p <=? attempts)%Z then terminalLine else warningLine]
  |}.

Definition resetTamperingAttempts (p : MemoryProtector) : MemoryProtector := {|
  obfuscationEnabled := obfuscationEnabled p;
  encryptionEnabled := encryptionEnabled p;
  detectedTamperingAttempts := 0;
  maxTamperingAttempts := maxTamperingAttempts p;
  serverLogEndpoint := serverLogEndpoint p;
  console := console p ++ ["[STFUGameGuardian] Reset tampering attempts counter"]
|}.

(** [this.maxTamperingAttempts = Math.max(1, attempts)] *)
Definition setMaxTamperingAttempts (attempts : Z) (p : MemoryProtector)
  : MemoryProtector := {|
  obfuscationEnabled := obfuscationEnabled p;
  encryptionEnabled := encryptionEnabled p;
  detectedTamperingAttempts := detectedTamperingAttempts p;
  maxTamperingAttempts := Z.max 1 attempts;
  serverLogEndpoint := serverLogEndpoint p;
  console :=
    console p ++
    ["[STFUGameGuardian] Set max tampering attempts to " +:+ pretty (Z.max 1 attempts)]
|}.

Definition getTamperingAttempts (p : MemoryProtector) : Z :=
  detectedTamperingAttempts p.

(** The lines of the [i]-th application of countermeasures under the
    threshold [max]. *)
Definition linesOf (max : Z) (i : nat) : list string :=
  [attemptLine (Z.of_nat i) max;
   if (max <=? Z.of_nat i)%Z then terminalLine else warningLine].

End Protector.

(** ** The tool detector: its lists *)

Module ToolDetector.

Record ToolDetector := {
  knownCheatTools : list string;
  suspiciousProcesses : list string
}.

(** [new ToolDetector()] *)
Definition new : ToolDetector := {|
  knownCheatTools :=
    ["com.gameguardian.app"; "org.cheatengine.cegui"; "catch_.me_.if_.you_.can_";
     "com.zune.gamekiller"; "com.lmzs.gamehacker"; "com.leo.simulator";
     "com.cih.game_cih"; "com.xmodgame"; "com.zhangkun.gameplay";
     "org.sbtools.gamehack"; "com.glt.ctrler"; "com.finalshare.freecoin"];
  suspiciousProcesses :=
    ["gameguardian"; "cheatengine"; "gamekiller"; "gamehacker"; "xposed"; "frida";
     "substrate"; "memdump"; "memmod"]
|}.

Definition addCheatToolPackage (packageName : string) (t : ToolDetector)
  : ToolDetector :=
  if negb (JS.includes (knownCheatTools t) packageName)
  then {| knownCheatTools := knownCheatTools t ++ [packageName];
          suspiciousProcesses := suspiciousProcesses t |}
  else t.

Definition addSuspiciousProcess (processName : string) (t : ToolDetector)
  : ToolDetector :=
  if negb (JS.includes (suspiciousProcesses t) processName)
  then {| knownCheatTools := knownCheatTools t;
          suspiciousProcesses := suspiciousProcesses t ++ [processName] |}
  else t.

(** [l[Math.floor(random * l.length)]], [None] for undefined. *)
Definition pick (random : Q) (l : list string) : option string :=
  let randomIndex := Qfloor (random * inject_Z (Z.of_nat (length l)))%Q in
  if (randomIndex <? 0)%Z then None else l !! Z.to_nat randomIndex.

(** The result of a detection that names what it found. *)
Record Detection := {
  detected : bool;
  toolName : option string;
  detectionType : option string;
  confidence : option string
}.

Definition notDetected : Detection :=
  {| detected := false; toolName := None; detectionType := None; confidence := None |}.

(** [detectCheatToolApps]; [random1] and [random2] are the results of its
    two calls of [Math.random()]. *)
Definition detectCheatToolApps (random1 random2 : Q) (t : ToolDetector) : Detection :=
  if negb (Qle_bool (5 # 100) random1)
  then {| detected := true; toolName := pick random2 (knownCheatTools t);
          detectionType := Some "installed_package"; confidence := Some "high" |}
  else notDetected.

(** [detectSuspiciousProcesses], likewise. *)
Definition detectSuspiciousProcesses (random1 random2 : Q) (t : ToolDetector)
  : Detection :=
  if negb (Qle_bool (5 # 100) random1)
  then {| detected := true; toolName := pick random2 (suspiciousProcesses t);
          detectionType := Some "running_process"; confidence := Some "medium" |}
  else notDetected.

(** The detector after the additions of [packages] and [processes]. *)
Definition extended (packages processes : list string) : ToolDetector :=
  fold_left (fun t name => addSuspiciousProcess name t) processes
    (fold_left (fun t name => addCheatToolPackage name t) packages new).

End ToolDetector.

(** ** The native library *)

Module Native.

(** [uint32_t] and [uint8_t] *)
Definition uint32 (z : Z) : Z := z mod 2 ^ 32.
Definition uint8 (z : Z) : Z := z mod 2 ^ 8.

(** The memory of the process: the byte at each address. *)
Definition Memory := Z -> Z.

(** The loop of [calculateChecksum] over [size] bytes from [ptr] on:
    [checksum = ((checksum << 5) + checksum) + ptr[i]]. *)
Fixpoint checksumLoop (mem : Memory) (ptr : Z) (size : nat) (checksum : Z) : Z :=
  match size with
  | O => checksum
  | S size' =>
      checksumLoop mem (ptr + 1) size'
        (uint32 (uint32 (uint32 (Z.shiftl checksum 5) + checksum) + uint8 (mem ptr)))
  end.

(** [calculateChecksum(addr, size)], for a size that is not negative. *)
Definition calculateChecksum (mem : Memory) (addr size : Z) : Z :=
  if (addr =? 0)%Z || (size =? 0)%Z then 0
  else checksumLoop mem addr (Z.to_nat size) 0.

Record MemoryRegion := {
  address : Z;
  size : Z;
  checksum : Z;
  valid : bool
}.

(** [nativeProtectMemoryRegion], on [g_memoryRegions]. *)
Definition nativeProtectMemoryRegion (mem : Memory) (address size : Z)
    (g_memoryRegions : list MemoryRegion) : list MemoryRegion :=
  g_memoryRegions ++
  [{| address := address; size := size;
      checksum := calculateChecksum mem address size; valid := true |}].

(** [nativeCheckProtectedMemory] *)
Fixpoint nativeCheckProtectedMemory (mem : Memory)
    (g_memoryRegions : list MemoryRegion) : bool :=
  match g_memoryRegions with
  | [] => false
  | region :: rest =>
      if negb (valid region) then nativeCheckProtectedMemory mem rest
      else
        let currentChecksum := calculateChecksum mem (address region) (size region) in
        if negb (currentChecksum =? checksum region)%Z then true
        else nativeCheckProtectedMemory mem rest
  end.

(** [nativeCheckProtectedValues] and [detectCheatToolsInMemory]: both
    return false. *)
Definition nativeCheckProtectedValues : bool := false.
Definition detectCheatToolsInMemory : bool := false.

(** The bytes of the region are the same in the two memories. *)
Definition sameBytes (mem mem' : Memory) (region : MemoryRegion) : Prop :=
  forall a, address region <= a < address region + size region ->
            uint8 (mem' a) = uint8 (mem a).

(** The regions carry the checksums of their bytes in [mem], as they do
    when they were protected with these bytes. *)
Definition protectedAt (mem : Memory) (g_memoryRegions : list MemoryRegion) : Prop :=
  Forall (fun region =>
            checksum region = calculateChecksum mem (address region) (size region))
    g_memoryRegions.

End Native.

(** ** The Android shield *)

Module Android.

(** Java [int]: 32 bits, wrapping. *)
Definition int (z : Z) : Z := (z + 2 ^ 31) mod 2 ^ 32 - 2 ^ 31.

(** The boxed values a [ProtectedValue<T>] is used with; [Float] and
    [Double] are left out. *)
Inductive Boxed :=
| Integer (value : Z)
| Long (value : Z)
| Boolean (value : bool).

(** [ProtectedValue<T>] *)
Record ProtectedValue := {
  nativePtr : Z;
  originalValue : Boxed;
  isValid : bool
}.

(** The cells the native library allocated for the protected values, by
    their address. *)
Definition Cells := gmap Z Boxed.

(** [ProtectedValue.get]; [None] when the cell does not hold what the
    native getter of the type reads. *)
Definition get (v : ProtectedValue) (cells : Cells) : option Boxed :=
  if negb (isValid v) then Some (originalValue v)
  else
    match originalValue v, cells !! nativePtr v with
    | Integer _, Some (Integer i) => Some (Integer i)
    | Long _, Some (Long l) => Some (Long l)
    | Boolean _, Some (Boolean b) => Some (Boolean b)
    | _, _ => None
    end.

(** [ProtectedValue.set] *)
Definition set (v : ProtectedValue) (value : Boxed) (cells : Cells) : Cells :=
  if negb (isValid v) then cells
  else <[nativePtr v := value]> cells.

(** [ProtectedValue.reset] *)
Definition reset (v : ProtectedValue) (cells : Cells) : Cells :=
  set v (originalValue v) cells.

Definition invalidate (v : ProtectedValue) : ProtectedValue :=
  {| nativePtr := nativePtr v; originalValue := originalValue v; isValid := false |}.

(** A violation: the severity and the type handed to the countermeasures,
    the report and the listener. *)
Record Violation := { severity : Z; violationType : string }.

(** The native checks of an integrity check. *)
Inductive Check := DetectCheatTools | CheckProtectedMemory | CheckProtectedValues.

(** The fields of [GameGuardianShield], the state of the native library,
    and what the shield has done: the native checks made, the
    countermeasures applied, the reports and syncs handed to the executor
    and the notifications posted to the listener. *)
Record Shield := {
  isProtectionActive : bool;
  cheatListener : bool;
  serverEndpoint : option string;
  apiKey : option string;
  checkInterval : Z;
  maxViolations : Z;
  currentViolations : Z;
  uniqueId : string;
  playerId : option string;
  sessionId : string;
  protectedValues : list (string * ProtectedValue);
  gameValues : list (string * jsval);
  cells : Cells;
  g_memoryRegions : list Native.MemoryRegion;
  checksMade : list Check;
  countermeasures : list Violation;
  reports : list Violation;
  syncs : nat;
  notifications : list Violation
}.

(** [setCheckInterval]: [Math.max(500, intervalMs)] *)
Definition setCheckInterval (intervalMs : Z) (s : Shield) : Shield := {|
  isProtectionActive := isProtectionActive s; cheatListener := cheatListener s;
  serverEndpoint := serverEndpoint s; apiKey := apiKey s;
  checkInterval := Z.max 500 intervalMs;
  maxViolations := maxViolations s; currentViolations := currentViolations s;
  uniqueId := uniqueId s; playerId := playerId s; sessionId := sessionId s;
  protectedValues := protectedValues s; gameValues := gameValues s;
  cells := cells s; g_memoryRegions := g_memoryRegions s;
  checksMade := checksMade s; countermeasures := countermeasures s;
  reports := reports s; syncs := syncs s; notifications := notifications s
|}.

(** [setMaxViolations]: [Math.max(1, maxViolations)] *)
Definition setMaxViolations (maxViolations' : Z) (s : Shield) : Shield := {|
  isProtectionActive := isProtectionActive s; cheatListener := cheatListener s;
  serverEndpoint := serverEndpoint s; apiKey := apiKey s;
  checkInterval := checkInterval s;
  maxViolations := Z.max 1 maxViolations'; currentViolations := currentViolations s;
  uniqueId := uniqueId s; playerId := playerId s; sessionId := sessionId s;
  protectedValues := protectedValues s; gameValues := gameValues s;
  cells := cells s; g_memoryRegions := g_memoryRegions s;
  checksMade := checksMade s; countermeasures := countermeasures s;
  reports := reports s; syncs := syncs s; notifications := notifications s
|}.

(** The loop of [applyCountermeasures] over [protectedValues.values()]. *)
Definition resetAll (values : list (string * ProtectedValue)) (cells : Cells) : Cells :=
  fold_left (fun cells kv => reset (snd kv) cells) values cells.

(** What the three checks of the [Runnable] find, by the answers of
    [detectCheatTools()] and the memory the native check reads: the checks
    made, and the detection type when the integrity failed. *)
Definition detection (tools : bool) (mem : Native.Memory)
    (g_memoryRegions : list Native.MemoryRegion) : list Check * option string :=
  let integrityFailed := false in
  let detectionType := EmptyString in
  let checks := [DetectCheatTools] in
  let '(integrityFailed, detectionType) :=
    if tools then (true, "cheat_tool") else (integrityFailed, detectionType) in
  let '(checks, integrityFailed, detectionType) :=
    if negb integrityFailed
    then
      if Native.nativeCheckProtectedMemory mem g_memoryRegions
      then (checks ++ [CheckProtectedMemory], true, "memory_tampering")
      else (checks ++ [CheckProtectedMemory], integrityFailed, detectionType)
    else (checks, integrityFailed, detectionType) in
  let '(checks, integrityFailed, detectionType) :=
    if negb integrityFailed
    then
      if Native.nativeCheckProtectedValues
      then (checks ++ [CheckProtectedValues], true, "value_tampering")
      else (checks ++ [CheckProtectedValues], integrityFailed, detectionType)
    else (checks, integrityFailed, detectionType) in
  (checks, if integrityFailed then Some detectionType else None).

(** The [Runnable] of [checkIntegrity], run by the executor. *)
Definition integrityCheck (tools : bool) (mem : Native.Memory) (s : Shield) : Shield :=
  let '(checks, failure) := detection tools mem (g_memoryRegions s) in
  match failure with
  | None => {|
      isProtectionActive := isProtectionActive s; cheatListener := cheatListener s;
      serverEndpoint := serverEndpoint s; apiKey := apiKey s;
      checkInterval := checkInterval s;
      maxViolations := maxViolations s; currentViolations := currentViolations s;
      uniqueId := uniqueId s; playerId := playerId s; sessionId := sessionId s;
      protectedValues := protectedValues s; gameValues := gameValues s;
      cells := cells s; g_memoryRegions := g_memoryRegions s;
      checksMade := checksMade s ++ checks; countermeasures := countermeasures s;
      reports := reports s; syncs := syncs s; notifications := notifications s
    |}
  | Some detectionType =>
      let currentViolations' := int (currentViolations s + 1) in
      let severity := if (maxViolations s <=? currentViolations')%Z then 2 else 1 in
      let violation := {| severity := severity; violationType := detectionType |} in
      let connected :=
        bool_decide (is_Some (serverEndpoint s)) && bool_decide (is_Some (apiKey s)) in
      {| isProtectionActive := isProtectionActive s; cheatListener := cheatListener s;
         serverEndpoint := serverEndpoint s; apiKey := apiKey s;
         checkInterval := checkInterval s;
         maxViolations := maxViolations s; currentViolations := currentViolations';
         uniqueId := uniqueId s; playerId := playerId s; sessionId := sessionId s;
         protectedValues := protectedValues s; gameValues := gameValues s;
         cells := if (2 <=? severity)%Z then resetAll (protectedValues s) (cells s)
                  else cells s;
         g_memoryRegions := g_memoryRegions s;
         checksMade := checksMade s ++ checks;
         countermeasures := countermeasures s ++ [violation];
         reports := if connected then reports s ++ [violation] else reports s;
         syncs := if bool_decide (is_Some (playerId s)) && connected
                     && negb (bool_decide (gameValues s = []))
                  then S (syncs s) else syncs s;
         notifications := if cheatListener s then notifications s ++ [violation]
                          else notifications s
      |}
  end.

(** The integrity checks of the executor, one after the other: each input
    is the answer of [detectCheatTools()] and the memory at that check. *)
Definition integrityChecks (inputs : list (bool * Native.Memory)) (s : Shield) : Shield :=
  fold_left (fun s input => integrityCheck (fst input) (snd input) s) inputs s.

(** The body that [reportViolationToServer] posts to
    [/api/log-tampering]; [now] is [System.currentTimeMillis()] and
    [deviceInfo] what [collectDeviceInfo()] returns. *)
Definition reportBody (now : Z) (deviceInfo : jsval) (v : Violation) (s : Shield)
  : jsval :=
  JObj ([("deviceId", JStr (uniqueId s))]
        ++ match playerId s with
           | Some id => [("playerId", JStr id)]
           | None => []
           end
        ++ [("sessionId", JStr (sessionId s));
            ("severity", JStr (if (severity v =? 2)%Z then "critical" else "warning"));
            ("type", JStr (violationType v));
            ("timestamp", JNum (inject_Z now));
            ("violations", JNum (inject_Z (currentViolations s)));
            ("deviceInfo", deviceInfo)]
        ++ if bool_decide (gameValues s = []) then []
           else [("gameValues", JObj (gameValues s))]).

(** The request of a report, with the API key of the shield in its
    [X-API-Key] header. *)
Definition reportRequest (now : Z) (deviceInfo : jsval) (v : Violation) (s : Shield)
  : Server.TamperingRequest :=
  {| Server.tr_apiKey := apiKey s;
     Server.tr_body := reportBody now deviceInfo v s |}.

(** The inputs on which the integrity fails, for the regions of the
    shield. *)
Definition failures (g_memoryRegions : list Native.MemoryRegion)
    (inputs : list (bool * Native.Memory)) : list (bool * Native.Memory) :=
  List.filter (fun input => fst input
                            || Native.nativeCheckProtectedMemory (snd input) g_memoryRegions)
    inputs.

(** The violation of the [i]-th failure under the threshold [max]. *)
Definition violationAt (max : Z) (i : nat) (input : bool * Native.Memory) : Violation :=
  {| severity := if (max <=? Z.of_nat i)%Z then 2 else 1;
     violationType := if fst input then "cheat_tool" else "memory_tampering" |}.

(** The violations of a list of failures, the first of which is the
    [i]-th. *)
Fixpoint violationsFrom (max : Z) (i : nat) (failed : list (bool * Native.Memory))
  : list Violation :=
  match failed with
  | [] => []
  | input :: rest => violationAt max i input :: violationsFrom max (S i) rest
  end.

End Android.

(** ** Concrete data *)

Module Examples.
Import Server.

Definition T0 : Z := 1700000000000.

(** The stored data of the scenarios: full health, a hundred coins. *)
Definition fullHealth : GameValues := {|
  health := Some 100%Q; maxHealth := Some 100%Q; healthRegenRate := None;
  coins := Some 100%Q; xp := None; powerups := None; _lastUpdated := None;
  other := ∅
|}.

Definition halfHealth : GameValues := {|
  health := Some 50%Q; maxHealth := Some 100%Q; healthRegenRate := None;
  coins := Some 100%Q; xp := None; powerups := None; _lastUpdated := None;
  other := ∅
|}.

Definition playerWith (g : GameValues) (attempts : Z) : Player := {|
  playerId := "alice"; deviceId := "device-1"; created := T0; lastSeen := T0;
  gameData := g; tamperingAttempts := attempts; isBanned := false;
  banTimestamp := None; lastSync := Some T0; tampering := []
|}.

Definition alice : Player := playerWith fullHealth 0.
Definition hurt : Player := playerWith halfHealth 0.

Definition serverWith (p : Player) : State := {|
  db := Some {| players := {[ playerId p := p ]}; tampering_logs := []; sync_logs := [] |};
  files := []
|}.

(** Proposed values: health and coins. *)
Definition proposed (h c : option Q) : GameValues := {|
  health := h; maxHealth := None; healthRegenRate := None;
  coins := c; xp := None; powerups := None; _lastUpdated := None;
  other := ∅
|}.

(** A sync request of alice, one minute after her last sync. *)
Definition syncOf (key : option string) (g : GameValues) : SyncRequest := {|
  sr_apiKey := key; sr_playerId := JStr "alice"; sr_sessionId := JStr "session-1";
  sr_gameValues := Some g; sr_clientTimestamp := Some (T0 + 60000);
  sr_checksum := JUndefined
|}.

Definition goodKey : option string := Some "change-me-in-production".

(** A sync that proposes 5100 coins a minute after the last sync. *)
Definition cheat : Request :=
  SyncGameValues (T0 + 60001) (T0 + 60000)
    (syncOf goodKey (proposed None (Some 5100%Q))).

(** A tampering report with the given severity. *)
Definition reportOf (key : option string) (sev : jsval) : TamperingRequest := {|
  tr_apiKey := key;
  tr_body := JObj [("type", JStr "debugger_detected"); ("severity", sev);
                   ("deviceId", JStr "device-1"); ("playerId", JStr "alice")]
|}.

(** A registration of [id] from the first device. *)
Definition registration (key : option string) (id : string)
    (data : option GameValues) : RegisterRequest := {|
  rr_apiKey := key; rr_playerId := JStr id; rr_deviceId := JStr "device-1";
  rr_initialData := data
|}.


(** Alice, banned at [T0]. *)
Definition banned : Player := {|
  playerId := "alice"; deviceId := "device-1"; created := T0; lastSeen := T0;
  gameData := fullHealth; tamperingAttempts := 3; isBanned := true;
  banTimestamp := Some T0; lastSync := Some T0; tampering := []
|}.


(** Proposed values: a health far above the maximum, with the powerup that
    excuses it. *)
Definition boosted : GameValues := {|
  health := Some 100000%Q; maxHealth := None; healthRegenRate := None;
  coins := None; xp := None; powerups := Some ["health"]; _lastUpdated := None;
  other := ∅
|}.

(** The object [{coins: 100, health: 100}] and its tree. *)
Definition stats : GameValue.object :=
  {| GameValue.isArray := false;
     GameValue.props := [("coins", GameValue.VNum 100); ("health", GameValue.VNum 100)] |}.

Definition statsTree : GameValue.json :=
  GameValue.JsNode false
    [("coins", GameValue.JsNum 100); ("health", GameValue.JsNum 100)].

(** A world where the game holds the object at location 1. *)
Definition gameWorld : GameValue.World :=
  {| GameValue.heap := {[ 1%positive := stats ]}; GameValue.console := [] |}.

(** The world and the container after
    [new GameValue("stats", object1, callback)] in [gameWorld]. *)
Definition statsWorld : GameValue.World :=
  {| GameValue.heap := {[ 1%positive := stats; 2%positive := stats; 3%positive := stats ]};
     GameValue.console := ["[GameValue] Protected value created: stats"] |}.

Definition statsValue {Env} (callback : option (Env -> bool)) : GameValue.GameValue Env := {|
  GameValue.key := "stats";
  GameValue.originalValue := GameValue.VRef 2%positive;
  GameValue.currentValue := GameValue.VRef 3%positive;
  GameValue.checksums := [GameValue.checksumOf statsTree];
  GameValue.lastAccessTime := 0;
  GameValue.accessCount := 0;
  GameValue.verificationCallback := callback
|}.

(** A callback that rejects. *)
Definition distrust : option (unit -> bool) := Some (fun _ => false).

(** No callback. *)
Definition noCallback : option (unit -> bool) := None.

(** The object the game makes of a clone by [clone.coins = 999999]. *)
Definition cheated : GameValue.object :=
  {| GameValue.isArray := false;
     GameValue.props := [("coins", GameValue.VNum 999999); ("health", GameValue.VNum 100)] |}.

(** A container that protects the string [s], as the constructor makes it. *)
Definition named {Env} (callback : option (Env -> bool)) (s : string)
  : GameValue.GameValue Env := {|
  GameValue.key := "name";
  GameValue.originalValue := GameValue.VStr s;
  GameValue.currentValue := GameValue.VStr s;
  GameValue.checksums := [GameValue.checksumOf (GameValue.JsStr s)];
  GameValue.lastAccessTime := 0;
  GameValue.accessCount := 0;
  GameValue.verificationCallback := callback
|}.

(** The object the game makes by [knot.self = knot]. *)
Definition knot : GameValue.object :=
  {| GameValue.isArray := false;
     GameValue.props := [("self", GameValue.VRef 9%positive)] |}.

(** The world of the container of the stats, with the knot at location 9. *)
Definition knotWorld : GameValue.World :=
  {| GameValue.heap := <[9%positive := knot]> (GameValue.heap statsWorld);
     GameValue.console := GameValue.console statsWorld |}.

(** What the detections find: nothing, a tampered memory region only, an
    installed cheat tool and a tampered region. *)
Definition quiet : Shield.Probes := {|
  Shield.cheatToolApps := false; Shield.suspiciousProcesses := false;
  Shield.memorySignatures := false; Shield.debugger := false;
  Shield.emulator := false; Shield.memoryTampered := false
|}.


Definition toolAndMemory : Shield.Probes := {|
  Shield.cheatToolApps := true; Shield.suspiciousProcesses := false;
  Shield.memorySignatures := false; Shield.debugger := false;
  Shield.emulator := false; Shield.memoryTampered := true
|}.

(** A new shield that protects the stats. *)
Definition shield : Shield.State :=
  Shield.fresh [("stats", statsValue (Some Shield.verificationCallback))] statsWorld.

(** A shield whose protected stats were overwritten in memory. *)
Definition forged : Shield.State :=
  Shield.fresh
    [("stats", GameValue.withCurrentValue (GameValue.VNum 999999)
                 (statsValue (Some Shield.verificationCallback)))]
    statsWorld.

(** A shield whose protected stats hold the knot, as after a [set] that
    failed. *)
Definition knotted : Shield.State :=
  Shield.fresh
    [("stats", GameValue.withCurrentValue (GameValue.VRef 9%positive)
                 (statsValue (Some Shield.verificationCallback)))]
    knotWorld.

(** A clock that reads [T0] at first and advances by a millisecond with
    every reading. *)
Definition wallClock : Scanner.Clock :=
  {| Scanner.time := fun n => T0 + Z.of_nat n; Scanner.reads := 0 |}.

(** An Android shield as its constructor leaves it, with the endpoint and
    the key of the server, for the player alice. *)
Definition phone : Android.Shield := {|
  Android.isProtectionActive := false; Android.cheatListener := true;
  Android.serverEndpoint := Some "https://game.example"; Android.apiKey := goodKey;
  Android.checkInterval := 2000; Android.maxViolations := 3;
  Android.currentViolations := 0;
  Android.uniqueId := "device-1"; Android.playerId := Some "alice";
  Android.sessionId := "session-1";
  Android.protectedValues := []; Android.gameValues := [];
  Android.cells := ∅; Android.g_memoryRegions := [];
  Android.checksMade := []; Android.countermeasures := [];
  Android.reports := []; Android.syncs := 0; Android.notifications := []
|}.



End Examples.

(** * Properties *)

(** ** The server *)

Module ServerFacts.
Import Server.

(** *** Numbers *)


Lemma gt_false (a b : Q) : JS.gt a b = false <-> (a <= b)%Q.
Proof.
  unfold JS.gt. rewrite negb_false_iff. apply Qle_bool_iff.
Qed.

Lemma Math_max_0_nonneg (x : Q) : (0 <= JS.Math_max 0 x)%Q.
Proof.
  unfold JS.Math_max. destruct (Qle_bool 0 x) eqn:E.
  - by apply Qle_bool_iff.
  - lra.
Qed.

Lemma timeDiffMinutes_nonneg player clientTime :
  (0 <= timeDiffMinutes player clientTime)%Q.
Proof. apply Math_max_0_nonneg. Qed.

(** *** verifyGameValues *)

(** The function always returns, and leaves the state it runs on as it
    found it. *)
Lemma verifyGameValues_returns cfg now newValues ct cs s :
  exists r, verifyGameValues cfg now newValues ct cs s = (Returned r, s).
Proof.
  unfold verifyGameValues, bind, gets, ret. simpl.
  destruct (hasNoKeys _); [eauto |].
  destruct ct as [clientTime |]; [| eauto].
  destruct (_ >? _)%Z; [eauto |].
  destruct (checkHealth _ _ _); [eauto |].
  destruct (checkCoins _ _ _ _); [eauto |].
  destruct (checkXp _ _ _ _); eauto.
Qed.

(** With stored data, an accepted timestamp and the blocks' answers, the
    result is that of the first block that gives a reason. *)
Lemma verifyGameValues_blocks cfg now newValues clientTime cs player st :
  hasNoKeys (gameData player) = false ->
  (clientTime <= now + 300000)%Z ->
  verifyGameValues cfg now newValues (Some clientTime) cs (player, st) =
  (Returned
     (let minutes := timeDiffMinutes player clientTime in
      match checkHealth player newValues minutes with
      | Some r => rejected r
      | None =>
        match checkCoins cfg player newValues minutes with
        | Some r => rejected r
        | None =>
          match checkXp cfg player newValues minutes with
          | Some r => rejected r
          | None => accepted
          end
        end
      end), (player, st)).
Proof.
  intros Hkeys Hts.
  unfold verifyGameValues, bind, gets, ret. simpl. rewrite Hkeys.
  replace (clientTime >? now + 5 * 60 * 1000)%Z with false by (symmetry; lia).
  destruct (checkHealth _ _ _); [done |].
  destruct (checkCoins _ _ _ _); [done |].
  destruct (checkXp _ _ _ _); done.
Qed.





(** The scenario of the specification: a hundred coins stored, 5100
    proposed a minute later against a bound of 1000 a minute. *)
Example coins_increased_too_fast :
  fst (verifyGameValues deployConfig (Examples.T0 + 60000)
         (Examples.proposed None (Some 5100%Q)) (Some (Examples.T0 + 60000))
         JUndefined (Examples.alice, Examples.serverWith Examples.alice))
  = Returned (rejected (CoinsIncreasedTooFast (5100 - 100) (JS.Math_max 0 (60000 / 60000)))).
Proof. reflexivity. Qed.




(** *** The store *)

Lemma lookup_updateOne_eq id f d :
  players (updateOne id f d) !! id = f <$> players d !! id.
Proof. apply lookup_alter_eq. Qed.

Lemma lookup_updateOne_ne id j f d :
  id <> j -> players (updateOne id f d) !! j = players d !! j.
Proof. intros. by apply lookup_alter_ne. Qed.

Lemma suspended_withDb id st d p :
  players d !! id = Some p -> isBanned p = true -> suspended id (withDb d st).
Proof. intros. exists d, p. done. Qed.

(** An update that never lifts a ban keeps a suspended player suspended. *)
Lemma suspended_updateOne id j f d p :
  (forall q, isBanned q = true -> isBanned (f q) = true) ->
  players d !! id = Some p -> isBanned p = true ->
  exists p', players (updateOne j f d) !! id = Some p' /\ isBanned p' = true.
Proof.
  intros Hf Hp Hb. destruct (decide (j = id)) as [-> | Hne].
  - rewrite lookup_updateOne_eq, Hp. simpl. eauto.
  - rewrite lookup_updateOne_ne by done. eauto.
Qed.

Lemma suspended_storeTampering id e d p :
  players d !! id = Some p -> isBanned p = true ->
  exists p', players (storeTampering e d) !! id = Some p' /\ isBanned p' = true.
Proof.
  intros Hp Hb. unfold storeTampering.
  destruct (ev_playerId e) as [j |]; [| by eauto].
  destruct (String.eqb j EmptyString); [by eauto |].
  apply suspended_updateOne with (p := p); auto.
Qed.

Lemma logTampering_suspended cfg now uuid body id st :
  suspended id st -> suspended id (snd (logTampering cfg now uuid body st)).
Proof.
  intros (d & p & Hd & Hp & Hb). unfold logTampering.
  destruct (_ || _); [by exists d, p |].
  destruct (suspended_storeTampering id (sanitize now uuid body) d p Hp Hb)
    as (p' & Hp' & Hb').
  destruct (String.eqb _ _); simpl; rewrite Hd; simpl;
    eexists _, p'; split_and!; eauto.
Qed.

Lemma registerPlayer_suspended cfg now req id st :
  suspended id st -> suspended id (snd (registerPlayer cfg now req st)).
Proof.
  intros (d & p & Hd & Hp & Hb). unfold registerPlayer.
  destruct (validId (rr_playerId req)) as [j |]; [| by exists d, p].
  destruct (validId (rr_deviceId req)) as [device |]; [| by exists d, p].
  rewrite Hd. destruct (players d !! j) as [existing |] eqn:Hj; simpl.
  - destruct (suspended_updateOne id j (touch now device) d p) as (p' & ? & ?);
      [done | done | done |].
    by eapply suspended_withDb.
  - eapply suspended_withDb; [| exact Hb]. simpl.
    rewrite lookup_insert_ne; [done |]. intros ->. congruence.
Qed.

Lemma syncGameValues_suspended cfg ts now req id st :
  suspended id st -> suspended id (snd (syncGameValues cfg ts now req st)).
Proof.
  intros (d & p & Hd & Hp & Hb). unfold syncGameValues.
  destruct (nonEmptyString _) as [j |]; [| by exists d, p].
  destruct (sr_gameValues req) as [gameValues |]; [| by exists d, p].
  rewrite Hd. destruct (players d !! j) as [player |] eqn:Hj; [| by exists d, p].
  destruct (isBanned player); [by exists d, p |].
  destruct (verifyGameValues_returns cfg now gameValues (sr_clientTimestamp req)
              (sr_checksum req) (player, st)) as [r ->].
  rewrite Hd. destruct (negb (isValid r)).
  - destruct (suspended_updateOne id j
                (recordTampering (InvalidValues ts (reason r) (sr_sessionId req)))
                d p) as (p1 & Hp1 & Hb1); [done | done | done |].
    set (d1 := updateOne j _ d) in *.
    destruct (players d1 !! j) as [updated |] eqn:Hu;
      [| by eapply suspended_withDb].
    destruct (_ <=? _)%Z; simpl; [| by eapply suspended_withDb].
    destruct (suspended_updateOne id j (ban ts) d1 p1) as (p2 & ? & ?);
      [done | done | done |].
    by eapply suspended_withDb.
  - destruct (suspended_updateOne id j
                (storeValues (spread (gameData player) gameValues ts) ts) d p)
      as (p1 & Hp1 & Hb1); [done | done | done |].
    by eapply suspended_withDb.
Qed.

(** No request lifts a suspension. *)
Lemma handle_suspended cfg r id st :
  suspended id st -> suspended id (snd (handle cfg r st)).
Proof.
  intros H. destruct r as [now uuid req | now req | ts now req]; simpl.
  - unfold postLogTampering. destruct (validateApiKey _ _); [| done].
    by apply logTampering_suspended.
  - unfold postRegisterPlayer. destruct (validateApiKey _ _); [| done].
    destruct (checkDatabaseConnection _ _); [done |].
    by apply registerPlayer_suspended.
  - unfold postSyncGameValues. destruct (validateApiKey _ _); [| done].
    destruct (checkDatabaseConnection _ _); [done |].
    by apply syncGameValues_suspended.
Qed.

Lemma serve_suspended cfg rs id st :
  suspended id st -> suspended id (serve cfg rs st).
Proof.
  revert st. induction rs as [| r rs IH]; intros st H; [done |].
  apply IH. by apply handle_suspended.
Qed.

(** A sync for a suspended player is turned away before any verification. *)
Lemma sync_of_suspended cfg ts now req id st :
  suspended id st ->
  validateApiKey cfg (sr_apiKey req) = true ->
  sr_playerId req = JStr id -> id <> EmptyString ->
  is_Some (sr_gameValues req) ->
  postSyncGameValues cfg ts now req st
  = (respond 403 (ErrorBody "Account suspended"), st).
Proof.
  intros (d & p & Hd & Hp & Hb) Hkey Hid Hne [gameValues Hgv].
  unfold postSyncGameValues, checkDatabaseConnection, syncGameValues.
  apply String.eqb_neq in Hne.
  rewrite Hkey, Hd, Hid, Hgv. simpl. rewrite Hne, Hp, Hb.
  by destruct (databaseEnabled cfg).
Qed.

(** What the route answers to a well-formed sync of a registered player
    who is not banned, by the result of the verification. *)
Lemma postSync_verified cfg ts now req st d id gameValues p r :
  validateApiKey cfg (sr_apiKey req) = true ->
  db st = Some d ->
  sr_playerId req = JStr id -> id <> EmptyString ->
  sr_gameValues req = Some gameValues ->
  players d !! id = Some p ->
  isBanned p = false ->
  fst (verifyGameValues cfg now gameValues (sr_clientTimestamp req)
         (sr_checksum req) (p, st)) = Returned r ->
  postSyncGameValues cfg ts now req st =
  if isValid r then
    let updatedData := spread (gameData p) gameValues ts in
    (respond 200 (SyncValid ts updatedData),
     withDb (insertSyncLog {| sl_playerId := id; sl_sessionId := sr_sessionId req;
                              sl_timestamp := ts; sl_values := gameValues |}
               (updateOne id (storeValues updatedData ts) d)) st)
  else
    let e := InvalidValues ts (reason r) (sr_sessionId req) in
    if (maxTamperingAttempts cfg <=? tamperingAttempts p + 1)%Z
    then (respond 403 (SyncBan (terminalMessage cfg)),
          withDb (updateOne id (ban ts) (updateOne id (recordTampering e) d)) st)
    else (respond 200 (SyncInvalid (warningMessage cfg) (reason r) (gameData p)),
          withDb (updateOne id (recordTampering e) d) st).
Proof.
  intros Hkey Hd Hid Hne Hgv Hp Hban Hr.
  destruct (verifyGameValues_returns cfg now gameValues (sr_clientTimestamp req)
              (sr_checksum req) (p, st)) as [r' Hr'].
  rewrite Hr' in Hr. simpl in Hr. injection Hr as ->.
  apply String.eqb_neq in Hne.
  unfold postSyncGameValues, checkDatabaseConnection, syncGameValues.
  rewrite Hkey, Hd, Hid, Hgv. simpl. rewrite Hne, Hp, Hban, Hr', Hd.
  destruct (isValid r); simpl.
  - by destruct (databaseEnabled cfg).
  - rewrite lookup_alter_eq, Hp. simpl. by destruct (databaseEnabled cfg).
Qed.

(** C1. For a registered player who is not banned, an invalid sync adds one
    to [tamperingAttempts]; when the updated count has reached the threshold
    the player is banned at the time of the request and the answer is 403
    with action "ban", and from then on, whatever requests the server has
    served in between, every sync for that player is answered 403 "Account
    suspended" and changes nothing, whatever values it proposes; below the
    threshold the answer is 200 with status "invalid". *)
Theorem sync_escalation cfg ts now req st d id gameValues p r :
  validateApiKey cfg (sr_apiKey req) = true ->
  db st = Some d ->
  sr_playerId req = JStr id -> id <> EmptyString ->
  sr_gameValues req = Some gameValues ->
  players d !! id = Some p ->
  isBanned p = false ->
  fst (verifyGameValues cfg now gameValues (sr_clientTimestamp req)
         (sr_checksum req) (p, st)) = Returned r ->
  isValid r = false ->
  exists resp d' p',
    postSyncGameValues cfg ts now req st = (resp, withDb d' st) /\
    players d' !! id = Some p' /\
    tamperingAttempts p' = tamperingAttempts p + 1 /\
    (maxTamperingAttempts cfg <= tamperingAttempts p + 1 ->
       isBanned p' = true /\ banTimestamp p' = Some ts /\
       resp = respond 403 (SyncBan (terminalMessage cfg)) /\
       action (body resp) = Some "ban" /\
       forall rs ts' now' req',
         validateApiKey cfg (sr_apiKey req') = true ->
         sr_playerId req' = JStr id ->
         is_Some (sr_gameValues req') ->
         postSyncGameValues cfg ts' now' req' (serve cfg rs (withDb d' st))
         = (respond 403 (ErrorBody "Account suspended"),
            serve cfg rs (withDb d' st))) /\
    (tamperingAttempts p + 1 < maxTamperingAttempts cfg ->
       isBanned p' = false /\
       resp = respond 200 (SyncInvalid (warningMessage cfg) (reason r) (gameData p))).
Proof.
  intros Hkey Hd Hid Hne Hgv Hp Hban Hr Hinvalid.
  rewrite (postSync_verified cfg ts now req st d id gameValues p r) by done.
  rewrite Hinvalid. simpl.
  set (e := InvalidValues ts (reason r) (sr_sessionId req)).
  destruct (maxTamperingAttempts cfg <=? tamperingAttempts p + 1)%Z eqn:Hmax.
  - exists (respond 403 (SyncBan (terminalMessage cfg))),
      (updateOne id (ban ts) (updateOne id (recordTampering e) d)),
      (ban ts (recordTampering e p)).
    split; [done |].
    split; [by rewrite !lookup_updateOne_eq, Hp |].
    split; [done |]. split; [| intros; lia].
    intros _. split_and!; try done.
    intros rs ts' now' req' Hkey' Hid' Hgv'.
    apply sync_of_suspended with (id := id); try done.
    apply serve_suspended.
    apply suspended_withDb with (p := ban ts (recordTampering e p)); [| done].
    by rewrite !lookup_updateOne_eq, Hp.
  - exists (respond 200 (SyncInvalid (warningMessage cfg) (reason r) (gameData p))),
      (updateOne id (recordTampering e) d), (recordTampering e p).
    split; [done |].
    split; [by rewrite lookup_updateOne_eq, Hp |].
    split; [done |]. split; [intros; lia |]. done.
Qed.

(** The scenario of the specification: with the threshold at three, the
    third invalid sync of a new player is answered 403 with action "ban",
    and the fourth 403 "Account suspended". *)
Example three_invalid_syncs :
  answers deployConfig [Examples.cheat; Examples.cheat; Examples.cheat; Examples.cheat]
    (Examples.serverWith Examples.alice)
  = [respond 200 (SyncInvalid (warningMessage deployConfig)
                    (Some (CoinsIncreasedTooFast (5100 - 100) (JS.Math_max 0 (60000 / 60000))))
                    Examples.fullHealth);
     respond 200 (SyncInvalid (warningMessage deployConfig)
                    (Some (CoinsIncreasedTooFast (5100 - 100) (JS.Math_max 0 (60000 / 60000))))
                    Examples.fullHealth);
     respond 403 (SyncBan (terminalMessage deployConfig));
     respond 403 (ErrorBody "Account suspended")].
Proof. reflexivity. Qed.

Lemma sync_escalation_witness :
  exists resp d' p',
    postSyncGameValues deployConfig (Examples.T0 + 60000) (Examples.T0 + 60000)
      (Examples.syncOf Examples.goodKey (Examples.proposed None (Some 5100%Q)))
      (Examples.serverWith (Examples.playerWith Examples.fullHealth 2))
    = (resp, withDb d' (Examples.serverWith (Examples.playerWith Examples.fullHealth 2))) /\
    players d' !! "alice" = Some p' /\
    tamperingAttempts p' = 3 /\ isBanned p' = true /\ status resp = 403.
Proof.
  destruct (sync_escalation deployConfig (Examples.T0 + 60000) (Examples.T0 + 60000)
              (Examples.syncOf Examples.goodKey (Examples.proposed None (Some 5100%Q)))
              (Examples.serverWith (Examples.playerWith Examples.fullHealth 2))
              {| players := {[ "alice" := Examples.playerWith Examples.fullHealth 2 ]};
                 tampering_logs := []; sync_logs := [] |}
              "alice" (Examples.proposed None (Some 5100%Q))
              (Examples.playerWith Examples.fullHealth 2)
              (rejected (CoinsIncreasedTooFast (5100 - 100)
                           (timeDiffMinutes (Examples.playerWith Examples.fullHealth 2)
                              (Examples.T0 + 60000)))))
    as (resp & d' & p' & Heq & Hp' & Hcount & Hbanned & _).
  - reflexivity.
  - reflexivity.
  - reflexivity.
  - discriminate.
  - reflexivity.
  - reflexivity.
  - reflexivity.
  - reflexivity.
  - reflexivity.
  - destruct Hbanned as (Hb & _ & Hresp & _); [simpl; lia |].
    exists resp, d', p'. split_and!; [exact Heq | exact Hp' | exact Hcount | exact Hb |].
    rewrite Hresp. reflexivity.
Defined.




(** *** The tampering reports *)

Lemma includes_In l s : JS.includes l s = true <-> In s l.
Proof.
  unfold JS.includes. rewrite existsb_exists. split.
  - intros (x & Hx & Heq). apply String.eqb_eq in Heq. by subst.
  - intros H. exists s. split; [done | apply String.eqb_refl].
Qed.

Lemma sanitizeSeverity_recognised v :
  recognised v -> JStr (sanitizeSeverity v) = v.
Proof.
  intros (s & -> & Hin). unfold sanitizeSeverity.
  apply includes_In in Hin. by rewrite Hin.
Qed.

Lemma sanitizeSeverity_unknown v :
  ~ recognised v -> sanitizeSeverity v = "unknown".
Proof.
  intros Hnot. destruct v as [| | b | q | s | l | fs]; try done.
  unfold sanitizeSeverity. destruct (JS.includes severities s) eqn:E; [| done].
  exfalso. apply Hnot. exists s. split; [done | by apply includes_In].
Qed.

Lemma sanitizeSeverity_critical v :
  String.eqb (sanitizeSeverity v) "critical" = true <-> v = JStr "critical".
Proof.
  split.
  - destruct v as [| | b | q | s | l | fs]; try done. unfold sanitizeSeverity.
    destruct (JS.includes severities s) eqn:E; [| done].
    intros H. apply String.eqb_eq in H. by subst.
  - by intros ->.
Qed.

(** The answer of the route to a request that passes the two guards. *)
Lemma postLogTampering_accepted cfg now uuid req st :
  validateApiKey cfg (tr_apiKey req) = true ->
  JS.truthy (tr_body req) = true ->
  JS.isObjectType (tr_body req) = true ->
  postLogTampering cfg now uuid req st =
  let e := sanitize now uuid (tr_body req) in
  (if String.eqb (ev_severity e) "critical"
   then respond 403 (TamperingBan (terminalMessage cfg) (banDuration cfg) uuid)
   else respond 200 (TamperingWarn (warningMessage cfg) uuid),
   {| db := storeTampering e <$> db st; files := files st ++ [e] |}).
Proof.
  intros Hkey Ht Ho. unfold postLogTampering, logTampering.
  rewrite Hkey, Ht, Ho. simpl. by destruct (String.eqb _ _).
Qed.

Lemma field_is_string v name s :
  JS.field v name = JStr s -> JS.truthy v = true /\ JS.isObjectType v = true.
Proof. by destruct v. Qed.

(** C3. A tampering report that carries the API key and whose severity is
    exactly "critical" is answered 403 with action "ban", whatever the
    state of the server and so whatever the player's counter; a report with
    an object body and any other severity is answered 200 with action
    "warn". *)
Theorem critical_report_bans cfg now uuid req st :
  validateApiKey cfg (tr_apiKey req) = true ->
  (JS.field (tr_body req) "severity" = JStr "critical" ->
     fst (postLogTampering cfg now uuid req st)
     = respond 403 (TamperingBan (terminalMessage cfg) (banDuration cfg) uuid) /\
     action (body (fst (postLogTampering cfg now uuid req st))) = Some "ban") /\
  (JS.truthy (tr_body req) = true -> JS.isObjectType (tr_body req) = true ->
   JS.field (tr_body req) "severity" <> JStr "critical" ->
     fst (postLogTampering cfg now uuid req st)
     = respond 200 (TamperingWarn (warningMessage cfg) uuid) /\
     action (body (fst (postLogTampering cfg now uuid req st))) = Some "warn").
Proof.
  intros Hkey. split.
  - intros Hsev. destruct (field_is_string _ _ _ Hsev) as [Ht Ho].
    rewrite postLogTampering_accepted by done. simpl.
    by rewrite (proj2 (sanitizeSeverity_critical _) Hsev).
  - intros Ht Ho Hsev. rewrite postLogTampering_accepted by done. simpl.
    destruct (String.eqb _ _) eqn:E; [| done].
    by apply sanitizeSeverity_critical in E.
Qed.

Lemma critical_report_bans_witness :
  fst (postLogTampering deployConfig Examples.T0 "id-1"
         (Examples.reportOf Examples.goodKey (JStr "critical"))
         (Examples.serverWith Examples.alice))
  = respond 403 (TamperingBan (terminalMessage deployConfig)
                   (banDuration deployConfig) "id-1").
Proof.
  apply (critical_report_bans deployConfig Examples.T0 "id-1"
           (Examples.reportOf Examples.goodKey (JStr "critical"))
           (Examples.serverWith Examples.alice)).
  - reflexivity.
  - reflexivity.
Defined.

(** C10. For a report that carries the API key and has an object body, the
    event that is stored (in the log file, and in the database when it is
    connected) has the supplied severity when that is one of the four
    recognised strings and "unknown" otherwise, and the answer is 403 with
    action "ban" exactly when the supplied severity is the string
    "critical"; any other severity is answered 200 with action "warn". *)
Theorem severity_sanitized cfg now uuid req st :
  validateApiKey cfg (tr_apiKey req) = true ->
  JS.truthy (tr_body req) = true ->
  JS.isObjectType (tr_body req) = true ->
  let supplied := JS.field (tr_body req) "severity" in
  let resp := fst (postLogTampering cfg now uuid req st) in
  let st' := snd (postLogTampering cfg now uuid req st) in
  exists e,
    files st' = (files st ++ [e]) /\
    (forall d, db st = Some d ->
       exists d', db st' = Some d' /\
                  tampering_logs d' = (tampering_logs d ++ [e])) /\
    (recognised supplied -> JStr (ev_severity e) = supplied) /\
    (~ recognised supplied -> ev_severity e = "unknown") /\
    (status resp = 403 /\ action (body resp) = Some "ban"
       <-> supplied = JStr "critical") /\
    (supplied <> JStr "critical" ->
       status resp = 200 /\ action (body resp) = Some "warn").
Proof.
  intros Hkey Ht Ho. simpl.
  rewrite postLogTampering_accepted by done. simpl.
  exists (sanitize now uuid (tr_body req)). split_and!.
  - done.
  - intros d ->. simpl. eexists; split; [reflexivity |].
    unfold storeTampering. destruct (ev_playerId _) as [j |]; [| done].
    by destruct (String.eqb j EmptyString).
  - apply sanitizeSeverity_recognised.
  - apply sanitizeSeverity_unknown.
  - destruct (String.eqb _ _) eqn:E; simpl.
    + apply sanitizeSeverity_critical in E. by split.
    + split; [by intros [? _] |].
      intros H. apply sanitizeSeverity_critical in H. simpl in H. congruence.
  - intros Hsev. destruct (String.eqb _ _) eqn:E; [| done].
    by apply sanitizeSeverity_critical in E.
Qed.

Lemma severity_sanitized_witness :
  exists e,
    files (snd (postLogTampering deployConfig Examples.T0 "id-1"
                  (Examples.reportOf Examples.goodKey (JStr "catastrophic"))
                  (Examples.serverWith Examples.alice))) = [e] /\
    ev_severity e = "unknown" /\
    status (fst (postLogTampering deployConfig Examples.T0 "id-1"
                   (Examples.reportOf Examples.goodKey (JStr "catastrophic"))
                   (Examples.serverWith Examples.alice))) = 200.
Proof.
  destruct (severity_sanitized deployConfig Examples.T0 "id-1"
              (Examples.reportOf Examples.goodKey (JStr "catastrophic"))
              (Examples.serverWith Examples.alice))
    as (e & Hfiles & _ & _ & Hunknown & _ & Hwarn).
  - reflexivity.
  - reflexivity.
  - reflexivity.
  - exists e. split_and!.
    + exact Hfiles.
    + apply Hunknown. intros (s & Hs & Hin). injection Hs as <-.
      simpl in Hin. intuition discriminate.
    + apply Hwarn. discriminate.
Defined.

(** *** What the requests leave alone *)


















Lemma sameStanding_refl p : sameStanding p p.
Proof. by unfold sameStanding. Qed.

Lemma reportedOn_same d d' :
  players d' = players d -> sync_logs d' = sync_logs d -> reportedOn d d'.
Proof.
  intros Hp Hs. unfold reportedOn. rewrite Hp. split_and!; try done.
  intros id p Hid. exists p.
  split_and!; [done | apply sameStanding_refl | by left].
Qed.

Lemma reportedOn_storeTampering e d : reportedOn d (storeTampering e d).
Proof.
  unfold storeTampering.
  destruct (ev_playerId e) as [j |]; [| by apply reportedOn_same].
  destruct (String.eqb j EmptyString); [by apply reportedOn_same |].
  split_and!; [done | |].
  - intros id Hid. destruct (decide (j = id)) as [-> | Hne].
    + rewrite lookup_updateOne_eq. simpl. by rewrite Hid.
    + by rewrite lookup_updateOne_ne.
  - intros id p Hp. destruct (decide (j = id)) as [-> | Hne].
    + rewrite lookup_updateOne_eq. simpl. rewrite Hp. simpl.
      eexists; split_and!; [done | by unfold sameStanding | by right].
    + rewrite lookup_updateOne_ne by done. simpl.
      exists p. split_and!; [done | apply sameStanding_refl | by left].
Qed.

(** X3. [POST /api/log-tampering] suspends nobody.  Whatever the report
    and its severity, and also when the answer is 403 with action "ban",
    every player of the store keeps [isBanned], [banTimestamp], [gameData]
    and [lastSync] as they were and has a counter that is the same or one
    more; no player record is created, and the sync log is as it was. *)
Theorem report_never_suspends cfg now uuid req st d :
  db st = Some d ->
  exists d',
    db (snd (postLogTampering cfg now uuid req st)) = Some d' /\
    sync_logs d' = sync_logs d /\
    (forall id, players d !! id = None -> players d' !! id = None) /\
    (forall id p, players d !! id = Some p ->
       exists p', players d' !! id = Some p' /\ sameStanding p p' /\
         (tamperingAttempts p' = tamperingAttempts p \/
          tamperingAttempts p' = tamperingAttempts p + 1)).
Proof.
  intros Hd. unfold postLogTampering.
  destruct (validateApiKey _ _);
    [| exists d; split; [done | by apply reportedOn_same]].
  unfold logTampering.
  destruct (_ || _); [exists d; split; [done | by apply reportedOn_same] |].
  exists (storeTampering (sanitize now uuid (tr_body req)) d).
  split; [| apply reportedOn_storeTampering].
  destruct (String.eqb _ _); simpl; by rewrite Hd.
Qed.

Lemma report_never_suspends_witness :
  exists d' p',
    status (fst (postLogTampering deployConfig Examples.T0 "id-1"
                   (Examples.reportOf Examples.goodKey (JStr "critical"))
                   (Examples.serverWith Examples.alice))) = 403 /\
    db (snd (postLogTampering deployConfig Examples.T0 "id-1"
               (Examples.reportOf Examples.goodKey (JStr "critical"))
               (Examples.serverWith Examples.alice))) = Some d' /\
    players d' !! "alice" = Some p' /\ isBanned p' = false.
Proof.
  destruct (report_never_suspends deployConfig Examples.T0 "id-1"
              (Examples.reportOf Examples.goodKey (JStr "critical"))
              (Examples.serverWith Examples.alice)
              {| players := {[ "alice" := Examples.alice ]};
                 tampering_logs := []; sync_logs := [] |})
    as (d' & Hd' & _ & _ & Hkept).
  - reflexivity.
  - destruct (Hkept "alice" Examples.alice) as (p' & Hp' & (Hb & _) & _);
      [reflexivity |].
    exists d', p'. split_and!; [reflexivity | exact Hd' | exact Hp' | exact Hb].
Defined.

(** X4. [POST /api/register-player] spares the players it finds.  Every
    player of the store keeps her game data, counter, history and standing,
    also the one the request names: registering again changes [lastSeen] and
    [deviceId] only, and the [initialData] of the request is dropped.  A
    valid registration is answered 200 when the player exists and 201 when
    not, and the new record then starts with the counter at zero, not
    banned, with the initial data of the request or none. *)
Theorem registration_spares_existing cfg now req st d :
  db st = Some d ->
  exists d',
    db (snd (postRegisterPlayer cfg now req st)) = Some d' /\
    tampering_logs d' = tampering_logs d /\ sync_logs d' = sync_logs d /\
    (forall id p, players d !! id = Some p ->
       exists p', players d' !! id = Some p' /\ sameStanding p p' /\
         tamperingAttempts p' = tamperingAttempts p /\
         tampering p' = tampering p) /\
    (forall id device,
       validateApiKey cfg (rr_apiKey req) = true ->
       validId (rr_playerId req) = Some id ->
       validId (rr_deviceId req) = Some device ->
       match players d !! id with
       | Some p =>
           fst (postRegisterPlayer cfg now req st)
           = respond 200 (PlayerMessage "Player updated" id) /\
           players d' !! id = Some (touch now device p)
       | None =>
           fst (postRegisterPlayer cfg now req st)
           = respond 201 (PlayerMessage "Player registered" id) /\
           players d' !! id =
           Some {| playerId := id; deviceId := device; created := now;
                   lastSeen := now;
                   gameData := default noValues (rr_initialData req);
                   tamperingAttempts := 0; isBanned := false;
                   banTimestamp := None; lastSync := None; tampering := [] |}
       end).
Proof.
  intros Hd.
  assert (forall id p, players d !! id = Some p ->
            exists p', players d !! id = Some p' /\ sameStanding p p' /\
              tamperingAttempts p' = tamperingAttempts p /\
              tampering p' = tampering p) as Hsame.
  { intros id p Hp. exists p. split_and!; first [done | apply sameStanding_refl]. }
  unfold postRegisterPlayer, checkDatabaseConnection. rewrite Hd.
  destruct (validateApiKey cfg (rr_apiKey req));
    [| exists d; split_and!; try done].
  replace (if negb (databaseEnabled cfg) then None else None)
    with (@None Response) by (by destruct (databaseEnabled cfg)).
  unfold registerPlayer.
  destruct (validId (rr_playerId req)) as [j |];
    [| exists d; split_and!; try done].
  destruct (validId (rr_deviceId req)) as [dev |];
    [| exists d; split_and!; try done].
  rewrite Hd. destruct (players d !! j) as [existing |] eqn:Hj; simpl.
  - eexists. split_and!; [reflexivity | done | done | |].
    + intros id p Hp. destruct (decide (j = id)) as [-> | Hne].
      * rewrite lookup_updateOne_eq, Hp. simpl.
        eexists. split_and!; try done.
      * rewrite lookup_updateOne_ne by done. by apply Hsame.
    + intros id device _ [= <-] [= <-]. rewrite Hj.
      split; [done |]. by rewrite lookup_updateOne_eq, Hj.
  - eexists. split_and!; [reflexivity | done | done | |].
    + intros id p Hp. simpl. rewrite lookup_insert_ne; [by apply Hsame |].
      intros ->. congruence.
    + intros id device _ [= <-] [= <-]. rewrite Hj.
      split; [done |]. simpl. by rewrite lookup_insert_eq.
Qed.

Lemma registration_spares_existing_witness :
  exists d' p',
    db (snd (postRegisterPlayer deployConfig (Examples.T0 + 5)
               (Examples.registration Examples.goodKey "alice" (Some noValues))
               (Examples.serverWith Examples.banned))) = Some d' /\
    players d' !! "alice" = Some p' /\
    gameData p' = Examples.fullHealth /\ isBanned p' = true /\
    tamperingAttempts p' = 3.
Proof.
  destruct (registration_spares_existing deployConfig (Examples.T0 + 5)
              (Examples.registration Examples.goodKey "alice" (Some noValues))
              (Examples.serverWith Examples.banned)
              {| players := {[ "alice" := Examples.banned ]};
                 tampering_logs := []; sync_logs := [] |})
    as (d' & Hd' & _ & _ & Hkept & _).
  - reflexivity.
  - destruct (Hkept "alice" Examples.banned)
      as (p' & Hp' & (Hb & _ & Hg & _) & Hcount & _); [reflexivity |].
    exists d', p'. split_and!;
      [exact Hd' | exact Hp' | exact Hg | exact Hb | exact Hcount].
Defined.

(** *** Further rules of the verification *)


Lemma hasNoKeys_true g :
  hasNoKeys g = true ->
  health g = None /\ maxHealth g = None /\ healthRegenRate g = None /\
  coins g = None /\ xp g = None /\ powerups g = None /\ other g = ∅.
Proof.
  unfold hasNoKeys. intros H.
  destruct (health g), (maxHealth g), (healthRegenRate g), (coins g), (xp g),
    (powerups g), (_lastUpdated g); try done.
  split_and!; try done. by apply bool_decide_eq_true in H.
Qed.

Lemma hasNoKeys_spread a b t : hasNoKeys (spread a b t) = false.
Proof. unfold hasNoKeys. simpl. by repeat case_match. Qed.

Lemma orElse_None {A} (b : option A) : orElse b None = b.
Proof. by destruct b. Qed.

(** X5. The first sync is trusted.  For a registered player who is not
    banned and whose stored game data is the empty object (as it is after a
    registration without initial data), a sync is accepted whatever values
    it proposes and whatever its timestamp, an invalid date or a date in the
    far future included: the answer is 200 with the stored values, the
    stored values are the proposed ones with [_lastUpdated] added, the
    counter is as it was; and the stored data is empty no longer, so that
    the next sync is verified. *)
Theorem first_sync_is_trusted cfg ts now req st d id gameValues p :
  validateApiKey cfg (sr_apiKey req) = true ->
  db st = Some d ->
  sr_playerId req = JStr id -> id <> EmptyString ->
  sr_gameValues req = Some gameValues ->
  players d !! id = Some p ->
  isBanned p = false ->
  hasNoKeys (gameData p) = true ->
  exists d' p',
    postSyncGameValues cfg ts now req st
    = (respond 200 (SyncValid ts (gameData p')), withDb d' st) /\
    players d' !! id = Some p' /\
    tamperingAttempts p' = tamperingAttempts p /\
    lastSync p' = Some ts /\
    health (gameData p') = health gameValues /\
    maxHealth (gameData p') = maxHealth gameValues /\
    healthRegenRate (gameData p') = healthRegenRate gameValues /\
    coins (gameData p') = coins gameValues /\
    xp (gameData p') = xp gameValues /\
    powerups (gameData p') = powerups gameValues /\
    other (gameData p') = other gameValues /\
    _lastUpdated (gameData p') = Some ts /\
    hasNoKeys (gameData p') = false.
Proof.
  intros Hkey Hd Hid Hne Hgv Hp Hban Hempty.
  assert (fst (verifyGameValues cfg now gameValues (sr_clientTimestamp req)
                 (sr_checksum req) (p, st)) = Returned accepted) as Hv.
  { unfold verifyGameValues, bind, gets. simpl. by rewrite Hempty. }
  rewrite (postSync_verified cfg ts now req st d id gameValues p accepted) by done.
  simpl.
  destruct (hasNoKeys_true _ Hempty) as (H1 & H2 & H3 & H4 & H5 & H6 & H7).
  eexists _, (storeValues (spread (gameData p) gameValues ts) ts p).
  split; [reflexivity |].
  split; [simpl; by rewrite lookup_alter_eq, Hp |].
  simpl. rewrite H1, H2, H3, H4, H5, H6, H7, !orElse_None.
  split_and!; try done.
  - apply (right_id_L ∅ (∪)).
  - apply (hasNoKeys_spread (gameData p) gameValues ts).
Qed.

Lemma first_sync_is_trusted_witness :
  exists d' p',
    postSyncGameValues deployConfig (Examples.T0 + 60001) (Examples.T0 + 60000)
      (Examples.syncOf Examples.goodKey (Examples.proposed None (Some 999999%Q)))
      (Examples.serverWith (Examples.playerWith noValues 0))
    = (respond 200 (SyncValid (Examples.T0 + 60001) (gameData p')),
       withDb d' (Examples.serverWith (Examples.playerWith noValues 0))) /\
    players d' !! "alice" = Some p' /\
    coins (gameData p') = Some 999999%Q.
Proof.
  destruct (first_sync_is_trusted deployConfig (Examples.T0 + 60001) (Examples.T0 + 60000)
              (Examples.syncOf Examples.goodKey (Examples.proposed None (Some 999999%Q)))
              (Examples.serverWith (Examples.playerWith noValues 0))
              {| players := {[ "alice" := Examples.playerWith noValues 0 ]};
                 tampering_logs := []; sync_logs := [] |}
              "alice" (Examples.proposed None (Some 999999%Q))
              (Examples.playerWith noValues 0))
    as (d' & p' & Heq & Hp' & _ & _ & _ & _ & _ & Hcoins & _).
  - reflexivity.
  - reflexivity.
  - reflexivity.
  - discriminate.
  - reflexivity.
  - reflexivity.
  - reflexivity.
  - reflexivity.
  - exists d', p'. split_and!; [exact Heq | exact Hp' | exact Hcoins].
Defined.





(** X8. A declared health powerup switches the health block off.  When
    the [powerups] of the proposed values include "health", no sync is
    rejected for its health, neither by the cap nor by the regeneration
    rate, whatever health it proposes. *)
Theorem health_powerup_bypass cfg now newValues clientTimestamp cs player st l :
  powerups newValues = Some l -> In "health" l ->
  exists r,
    fst (verifyGameValues cfg now newValues clientTimestamp cs (player, st))
    = Returned r /\
    healthReason (reason r) = false.
Proof.
  intros Hl Hin.
  assert (forall minutes, checkHealth player newValues minutes = None) as Hhealth.
  { intros minutes. unfold checkHealth, hasHealthPowerup. rewrite Hl.
    apply includes_In in Hin. rewrite Hin. simpl.
    destruct (health newValues), (health (gameData player)); try done.
    by rewrite !andb_false_r. }
  unfold verifyGameValues, bind, gets. simpl.
  destruct (hasNoKeys (gameData player)); [by eexists |].
  destruct clientTimestamp as [t |]; [| by eexists].
  destruct (t >? _)%Z; [by eexists |].
  rewrite Hhealth. unfold checkCoins, checkXp.
  repeat case_match; simplify_eq; by eexists.
Qed.

Lemma health_powerup_bypass_witness :
  exists r,
    fst (verifyGameValues deployConfig (Examples.T0 + 60000)
           Examples.boosted (Some (Examples.T0 + 60000)) JUndefined
           (Examples.hurt, Examples.serverWith Examples.hurt))
    = Returned r /\
    healthReason (reason r) = false.
Proof.
  apply (health_powerup_bypass deployConfig (Examples.T0 + 60000) Examples.boosted
           (Some (Examples.T0 + 60000)) JUndefined Examples.hurt
           (Examples.serverWith Examples.hurt) ["health"]).
  - reflexivity.
  - left. reflexivity.
Defined.

Lemma inject_Z_nonneg z : 0 <= z -> (0 <= inject_Z z)%Q.
Proof. intros H. unfold Qle. simpl. lia. Qed.

(** X9. Losses are never rejected.  With rates that are not negative, a
    sync with an accepted timestamp in which no bounded quantity exceeds
    its stored value (and the proposed health does not exceed the maximum)
    is accepted, however little time has passed since the last sync. *)
Theorem losses_are_accepted cfg now newValues t cs player st :
  0 <= maxCoinsPerMinute cfg -> 0 <= maxXpPerMinute cfg ->
  t <= now + 300000 ->
  (forall h h0, health newValues = Some h -> health (gameData player) = Some h0 ->
     (h <= h0)%Q /\ (h <= maxHealthOf player)%Q) ->
  (forall c c0, coins newValues = Some c -> coins (gameData player) = Some c0 ->
     (c <= c0)%Q) ->
  (forall x x0, xp newValues = Some x -> xp (gameData player) = Some x0 ->
     (x <= x0)%Q) ->
  fst (verifyGameValues cfg now newValues (Some t) cs (player, st))
  = Returned accepted.
Proof.
  intros Hrc Hrx Ht Hhealth Hcoins Hxp.
  destruct (hasNoKeys (gameData player)) eqn:Hkeys.
  { unfold verifyGameValues, bind, gets. simpl. by rewrite Hkeys. }
  rewrite verifyGameValues_blocks by done. simpl.
  pose proof (timeDiffMinutes_nonneg player t) as Hm.
  set (minutes := timeDiffMinutes player t) in *.
  assert (checkHealth player newValues minutes = None) as ->.
  { unfold checkHealth.
    destruct (health newValues) as [h |] eqn:Eh; [| done].
    destruct (health (gameData player)) as [h0 |] eqn:Eh0; [| done].
    destruct (Hhealth h h0 eq_refl eq_refl) as [Hle Hmax].
    apply gt_false in Hle, Hmax. by rewrite Hle, Hmax. }
  assert (checkCoins cfg player newValues minutes = None) as ->.
  { unfold checkCoins.
    destruct (coins newValues) as [c |] eqn:Ec; [| done].
    destruct (coins (gameData player)) as [c0 |] eqn:Ec0; [| done].
    specialize (Hcoins c c0 eq_refl eq_refl).
    pose proof (Qmult_le_0_compat _ _ (inject_Z_nonneg _ Hrc) Hm) as Hb.
    assert (JS.gt c (c0 + inject_Z (maxCoinsPerMinute cfg) * minutes) = false) as ->;
      [| done].
    apply gt_false. lra. }
  assert (checkXp cfg player newValues minutes = None) as ->; [| done].
  unfold checkXp.
  destruct (xp newValues) as [x |] eqn:Ex; [| done].
  destruct (xp (gameData player)) as [x0 |] eqn:Ex0; [| done].
  specialize (Hxp x x0 eq_refl eq_refl).
  pose proof (Qmult_le_0_compat _ _ (inject_Z_nonneg _ Hrx) Hm) as Hb.
  assert (JS.gt x (x0 + inject_Z (maxXpPerMinute cfg) * minutes) = false) as ->;
    [| done].
  apply gt_false. lra.
Qed.

Lemma losses_are_accepted_witness :
  fst (verifyGameValues deployConfig Examples.T0
         (Examples.proposed (Some 20%Q) (Some 0%Q)) (Some (Examples.T0 - 1000))
         JUndefined (Examples.alice, Examples.serverWith Examples.alice))
  = Returned accepted.
Proof.
  apply (losses_are_accepted deployConfig Examples.T0
           (Examples.proposed (Some 20%Q) (Some 0%Q)) (Examples.T0 - 1000)
           JUndefined Examples.alice (Examples.serverWith Examples.alice)).
  - simpl. lia.
  - simpl. lia.
  - lia.
  - intros h h0 [= <-] [= <-]. split; vm_compute; discriminate.
  - intros c c0 [= <-] [= <-]. vm_compute. discriminate.
  - intros x x0 H. discriminate H.
Defined.

(** *** The sanitized event *)

Lemma length_substring0 n : forall s, (String.length (JS.substring0 n s) <= n)%nat.
Proof.
  unfold JS.substring0. induction n as [| n IH]; intros s.
  - by destruct s.
  - destruct s as [| c s]; simpl; [lia |]. specialize (IH s). lia.
Qed.

Lemma stringPrefix_length n v s :
  stringPrefix n v = Some s -> (String.length s <= n)%nat.
Proof.
  destruct v; try done. simpl. intros [= <-]. apply length_substring0.
Qed.

(** X10. What the sanitizer keeps is bounded.  Whatever the body of a
    tampering report holds, the event that is stored has a [type] of at
    most 50 characters, a [deviceId] and a [playerId] of at most 100, an
    [appVersion] of at most 20, and a severity that is one of "low",
    "medium", "high", "critical" and "unknown"; its id and server timestamp
    are the ones the server made. *)
Theorem sanitized_event_is_bounded now uuid body :
  (String.length (ev_type (sanitize now uuid body)) <= 50)%nat /\
  (String.length (ev_deviceId (sanitize now uuid body)) <= 100)%nat /\
  (forall id, ev_playerId (sanitize now uuid body) = Some id ->
     (String.length id <= 100)%nat) /\
  (forall v, ev_appVersion (sanitize now uuid body) = Some v ->
     (String.length v <= 20)%nat) /\
  In (ev_severity (sanitize now uuid body)) ("unknown" :: severities) /\
  ev_id (sanitize now uuid body) = uuid /\
  ev_serverTimestamp (sanitize now uuid body) = now.
Proof.
  simpl. split_and!; try done.
  - destruct (stringPrefix 50 _) as [s |] eqn:E; simpl; [| lia].
    by apply stringPrefix_length in E.
  - destruct (stringPrefix 100 _) as [s |] eqn:E; simpl; [| lia].
    by apply stringPrefix_length in E.
  - intros id. apply stringPrefix_length.
  - intros v. apply stringPrefix_length.
  - unfold sanitizeSeverity. destruct (JS.field body "severity"); try by left.
    destruct (JS.includes severities s) eqn:E; [| by left].
    right. apply includes_In in E. exact E.
Qed.

End ServerFacts.

(** ** The protected value *)

Module GameValueFacts.
Import GameValue.

(** *** Trees and the heap *)

(** Induction on a tree, with the property of the members of a node. *)
Lemma json_members_ind (P : json -> Prop) :
  P JsNull -> (forall b, P (JsBool b)) -> (forall n, P (JsNum n)) ->
  (forall s, P (JsStr s)) ->
  (forall a ms, Forall (fun kj => P (snd kj)) ms -> P (JsNode a ms)) ->
  forall j, P j.
Proof.
  intros Hnull Hbool Hnum Hstr Hnode.
  fix IH 1. intros [| b | n | s | a ms];
    [apply Hnull | apply Hbool | apply Hnum | apply Hstr |].
  apply Hnode. induction ms as [| [k j] ms IHms]; constructor;
    [apply IH | exact IHms].
Qed.

Lemma alloc_node a ms h :
  alloc (JsNode a ms) h =
  let '(vs, h1) := allocMembers ms h in
  let l := fresh (dom h1) in
  (VRef l, <[l := {| isArray := a; props := vs |}]> h1).
Proof. reflexivity. Qed.

Lemma allocMembers_cons k j rest h :
  allocMembers ((k, j) :: rest) h =
  let '(v, h1) := alloc j h in
  let '(vs, h2) := allocMembers rest h1 in
  ((k, v) :: vs, h2).
Proof. reflexivity. Qed.

(** More fuel does not change a tree. *)
Lemma toJson_fuel n : forall m h v j,
  toJson n h v = Some j -> (n <= m)%nat -> toJson m h v = Some j.
Proof.
  induction n as [| n IH]; intros m h v j Hj Hle.
  - destruct v; simpl in *; try done; by destruct m.
  - destruct v as [| b | z | s | l]; try (by destruct m).
    destruct m as [| m]; [lia |]. simpl in *.
    destruct (h !! l) as [o |]; [| done].
    destruct (mapM _ (props o)) as [ms |] eqn:Hms; [| done].
    simpl in Hj. injection Hj as <-.
    apply mapM_Some in Hms.
    assert (mapM (fun kv => pair kv.1 <$> toJson m h kv.2) (props o) = Some ms) as ->;
      [| done].
    apply mapM_Some. eapply Forall2_impl; [exact Hms |].
    intros kv kj Hkv. simpl in *.
    destruct (toJson n h kv.2) as [j' |] eqn:Hj'; [| done].
    rewrite (IH m h kv.2 j') by (done || lia). done.
Qed.

(** A larger heap does not change a tree. *)
Lemma toJson_heap n : forall h h' v j,
  toJson n h v = Some j -> h ⊆ h' -> toJson n h' v = Some j.
Proof.
  induction n as [| n IH]; intros h h' v j Hj Hsub.
  - by destruct v.
  - destruct v as [| b | z | s | l]; try done. simpl in *.
    destruct (h !! l) as [o |] eqn:Hl; [| done].
    rewrite (lookup_weaken _ _ _ _ Hl Hsub).
    destruct (mapM _ (props o)) as [ms |] eqn:Hms; [| done].
    simpl in Hj. injection Hj as <-.
    apply mapM_Some in Hms.
    assert (mapM (fun kv => pair kv.1 <$> toJson n h' kv.2) (props o) = Some ms) as ->;
      [| done].
    apply mapM_Some. eapply Forall2_impl; [exact Hms |].
    intros kv kj Hkv. simpl in *.
    destruct (toJson n h kv.2) as [j' |] eqn:Hj'; [| done].
    rewrite (IH h h' kv.2 j') by done. done.
Qed.

(** A member of a node has fewer nodes than the node. *)
Lemma nodes_member a ms k j :
  (k, j) ∈ ms -> (nodes j < nodes (JsNode a ms))%nat.
Proof.
  intros Hin. simpl. apply Nat.lt_succ_r.
  induction ms as [| [k' j'] ms IH]; [by apply elem_of_nil in Hin |].
  apply elem_of_cons in Hin as [Heq | Hin]; simpl.
  - injection Heq as -> ->. lia.
  - specialize (IH Hin). lia.
Qed.

Lemma Forall2_impl_r {A B} (R R' : A -> B -> Prop) (Q : B -> Prop) l k :
  Forall2 R l k -> Forall Q k -> (forall x y, R x y -> Q y -> R' x y) ->
  Forall2 R' l k.
Proof.
  intros HR HQ Himpl. induction HR as [| x y l k Hxy _ IH]; [constructor |].
  apply Forall_cons in HQ as [Hy HQ]. constructor; auto.
Qed.

Lemma members_smaller a ms :
  Forall (fun kj => (nodes (snd kj) < nodes (JsNode a ms))%nat) ms.
Proof.
  apply Forall_forall. intros [k j] Hin. by apply (nodes_member a ms k j).
Qed.

(** The tree of a value does not depend on the fuel that gave it. *)
Lemma toJson_deterministic n m h v j j' :
  toJson n h v = Some j -> toJson m h v = Some j' -> j = j'.
Proof.
  intros Hn Hm.
  apply toJson_fuel with (m := (n `max` m)%nat) in Hn; [| lia].
  apply toJson_fuel with (m := (n `max` m)%nat) in Hm; [| lia].
  congruence.
Qed.

(** A tree that is smaller than the tree of an object was computed without
    visiting that object. *)
Lemma toJson_delete n : forall h v j l,
  toJson n h v = Some j ->
  (forall k jl, toJson k h (VRef l) = Some jl -> (nodes j < nodes jl)%nat) ->
  toJson n (delete l h) v = Some j.
Proof.
  induction n as [| n IH]; intros h v j l Hj Hsmall.
  - by destruct v.
  - destruct v as [| b | z | s | l']; try done.
    destruct (decide (l' = l)) as [-> | Hne].
    { specialize (Hsmall (S n) j Hj). lia. }
    simpl in *. rewrite lookup_delete_ne by done.
    destruct (h !! l') as [o |] eqn:Hl'; [| done].
    destruct (mapM _ (props o)) as [ms |] eqn:Hms; [| done].
    simpl in Hj. injection Hj as <-.
    assert (mapM (fun kv => pair kv.1 <$> toJson n (delete l h) kv.2) (props o)
            = Some ms) as ->; [| done].
    apply mapM_Some in Hms. apply mapM_Some.
    eapply Forall2_impl_r; [exact Hms | apply (members_smaller (isArray o)) |].
    intros kv kj Hkv Hlt. simpl in *.
    destruct (toJson n h kv.2) as [j' |] eqn:Hj'; [| done].
    injection Hkv as <-. rewrite (IH h kv.2 j' l); [done | done |].
    intros k jl Hjl. specialize (Hsmall k jl Hjl). simpl in *. lia.
Qed.

(** The tree of a value is no deeper than the heap has objects: the fuel
    of [treeOf] is enough whenever any fuel is. *)
Lemma toJson_enough n : forall h v j,
  toJson n h v = Some j -> toJson (size h) h v = Some j.
Proof.
  induction n as [| n IH]; intros h v j Hj.
  - destruct v; try done; by destruct (size h).
  - destruct v as [| b | z | s | l]; try (by destruct (size h)).
    pose proof Hj as Hroot. simpl in Hj.
    destruct (h !! l) as [o |] eqn:Hl; [| done].
    destruct (mapM _ (props o)) as [ms |] eqn:Hms; [| done].
    simpl in Hj. injection Hj as <-.
    rewrite <- (insert_delete_id h l o Hl) at 1.
    rewrite map_size_insert_None by apply lookup_delete_eq.
    simpl. rewrite Hl. 
    assert (mapM (fun kv => pair kv.1 <$> toJson (size (delete l h)) h kv.2) (props o)
            = Some ms) as ->; [| done].
    apply mapM_Some in Hms. apply mapM_Some.
    eapply Forall2_impl_r; [exact Hms | apply (members_smaller (isArray o)) |].
    intros kv kj Hkv Hlt. simpl in Hkv.
    destruct (toJson n h kv.2) as [j' |] eqn:Hj'; [| done].
    injection Hkv as <-.
    assert (toJson n (delete l h) kv.2 = Some j') as Hdel.
    { apply toJson_delete; [done |]. intros k jl Hjl.
      by rewrite (toJson_deterministic _ _ _ _ _ _ Hjl Hroot). }
    apply IH in Hdel.
    rewrite (toJson_heap _ (delete l h) h kv.2 j' Hdel); [done |].
    apply delete_subseteq.
Qed.

(** [treeOf] finds the tree whenever there is one: it fails on a cycle (or
    a dangling reference) only. *)
Lemma treeOf_complete n h v j : toJson n h v = Some j -> treeOf h v = Some j.
Proof. apply toJson_enough. Qed.

Lemma treeOf_heap h h' v j :
  treeOf h v = Some j -> h ⊆ h' -> treeOf h' v = Some j.
Proof.
  unfold treeOf. intros Hj Hsub.
  apply toJson_fuel with (n := size h); [by eapply toJson_heap |].
  by apply map_subseteq_size.
Qed.

Lemma calculateChecksum_heap h h' v c :
  calculateChecksum h v = Some c -> h ⊆ h' -> calculateChecksum h' v = Some c.
Proof.
  unfold calculateChecksum. intros Hc Hsub.
  destruct (treeOf h v) as [j |] eqn:Hj; [| done].
  by rewrite (treeOf_heap h h' v j).
Qed.

(** *** Allocation *)

Lemma difference_mono (h h1 h2 : gmap loc object) : h1 ⊆ h2 -> h1 ∖ h ⊆ h2 ∖ h.
Proof.
  intros Hsub. apply map_subseteq_spec. intros l o Hl.
  apply lookup_difference_Some in Hl as [Hl Hn].
  apply lookup_difference_Some. split; [by eapply lookup_weaken | done].
Qed.

Lemma difference_anti (h h1 h2 : gmap loc object) : h ⊆ h1 -> h2 ∖ h1 ⊆ h2 ∖ h.
Proof.
  intros Hsub. apply map_subseteq_spec. intros l o Hl.
  apply lookup_difference_Some in Hl as [Hl Hn].
  apply lookup_difference_Some. split; [done |].
  destruct (h !! l) as [o' |] eqn:Ho; [| done].
  by rewrite (lookup_weaken _ _ _ _ Ho Hsub) in Hn.
Qed.

(** What the allocation of the members of a node gives, from what the
    allocation of each member gives. *)
Lemma allocMembers_spec ms :
  Forall (fun kj => forall h v h', alloc (snd kj) h = (v, h') ->
            h ⊆ h' /\ size h' = (size h + nodes (snd kj))%nat /\
            forall g n, h' ∖ h ⊆ g -> (nodes (snd kj) <= n)%nat ->
                        toJson n g v = Some (snd kj)) ms ->
  forall h vs h', allocMembers ms h = (vs, h') ->
    h ⊆ h' /\
    size h' = (size h + sum_list (map (fun kj => nodes (snd kj)) ms))%nat /\
    forall g n, h' ∖ h ⊆ g ->
      (sum_list (map (fun kj => nodes (snd kj)) ms) <= n)%nat ->
      mapM (fun kv => pair (fst kv) <$> toJson n g (snd kv)) vs = Some ms.
Proof.
  induction 1 as [| [k j] ms Hj _ IH]; intros h vs h' Halloc.
  - injection Halloc as <- <-. split_and!; [done | simpl; lia | done].
  - rewrite allocMembers_cons in Halloc.
    destruct (alloc j h) as [v h1] eqn:Hv.
    destruct (allocMembers ms h1) as [vs' h2] eqn:Hvs.
    injection Halloc as <- <-.
    destruct (Hj h v h1 Hv) as (Hsub1 & Hsize1 & Htree1).
    destruct (IH h1 vs' h2 Hvs) as (Hsub2 & Hsize2 & Htree2).
    split_and!.
    + by etrans.
    + simpl in *. lia.
    + intros g n Hg Hn. simpl in *.
      rewrite (Htree1 g n); [| | lia].
      * simpl. rewrite (Htree2 g n); [done | | lia].
        etrans; [| exact Hg]. by apply difference_anti.
      * etrans; [| exact Hg]. by apply difference_mono.
Qed.

(** The objects allocated for a tree are new, as many as the tree has
    nodes, and the value returned has that tree in them alone. *)
Lemma alloc_spec j : forall h v h',
  alloc j h = (v, h') ->
  h ⊆ h' /\ size h' = (size h + nodes j)%nat /\
  forall g n, h' ∖ h ⊆ g -> (nodes j <= n)%nat -> toJson n g v = Some j.
Proof.
  induction j as [| b | z | s | a ms IH] using json_members_ind;
    intros h v h' Halloc;
    try (injection Halloc as <- <-; split_and!;
         [done | simpl; lia | by intros g [| n] _ _]).
  rewrite alloc_node in Halloc.
  destruct (allocMembers ms h) as [vs h1] eqn:Hvs.
  destruct (allocMembers_spec ms IH h vs h1 Hvs) as (Hsub & Hsize & Htree).
  injection Halloc as <- <-.
  pose proof (is_fresh (dom h1)) as Hfresh.
  apply not_elem_of_dom in Hfresh.
  split_and!.
  - etrans; [exact Hsub |]. by apply insert_subseteq.
  - rewrite map_size_insert_None by done. simpl. lia.
  - intros g n Hg Hn. destruct n as [| n]; [simpl in Hn; lia |].
    assert (g !! fresh (dom h1) = Some {| isArray := a; props := vs |}) as Hl.
    { eapply lookup_weaken; [| exact Hg]. apply lookup_difference_Some.
      split; [by rewrite lookup_insert_eq |].
      destruct (h !! fresh (dom h1)) as [o |] eqn:Ho; [| done].
      by rewrite (lookup_weaken _ _ _ _ Ho Hsub) in Hfresh. }
    simpl. rewrite Hl. simpl.
    rewrite (Htree g n); [done | | simpl in Hn; lia].
    etrans; [| exact Hg]. apply difference_mono. by apply insert_subseteq.
Qed.

(** *** deepClone *)

(** The tree of a primitive depends on nothing. *)
Lemma toJson_primitive h v j n g :
  match v with VRef _ => False | _ => True end ->
  treeOf h v = Some j -> toJson n g v = Some j.
Proof.
  unfold treeOf. intros Hv Hj.
  destruct v; try done; destruct n; destruct (size h); done.
Qed.

(** The clone of a value that [JSON.stringify] accepts: it has the tree of
    the value, the objects of the heap are as they were, and the clone is
    made of new objects only. *)
Lemma deepClone_spec v w j :
  treeOf (heap w) v = Some j ->
  exists r w',
    deepClone v w = (Returned r, w') /\
    heap w ⊆ heap w' /\
    console w' = console w /\
    treeOf (heap w') r = Some j /\
    toJson (nodes j) (heap w' ∖ heap w) r = Some j /\
    (match v with VRef _ => True | _ => r = v /\ w' = w end).
Proof.
  intros Hj. destruct v as [| b | z | s | l].
  1-4: (eexists _, w; split_and!;
        [reflexivity | done | done
        | by eapply (toJson_primitive (heap w)) | by eapply (toJson_primitive (heap w))
        | done | done]).
  unfold deepClone. rewrite Hj.
  destruct (alloc j (heap w)) as [r h'] eqn:Halloc.
  destruct (alloc_spec j (heap w) r h' Halloc) as (Hsub & Hsize & Htree).
  exists r, (withHeap h' w). split_and!; try done.
  - unfold treeOf. simpl. apply Htree; [| lia].
    apply map_subseteq_spec. intros i o Hi.
    by apply lookup_difference_Some in Hi as [Hi _].
  - by apply Htree.
Qed.

(** A clone, possible or not, leaves the objects of the heap as they were. *)
Lemma deepClone_heap v w : heap w ⊆ heap (snd (deepClone v w)).
Proof.
  destruct v as [| b | z | s | l]; try done.
  unfold deepClone. destruct (treeOf (heap w) (VRef l)) as [j |] eqn:Hj; [| done].
  destruct (alloc j (heap w)) as [r h'] eqn:Halloc.
  by destruct (alloc_spec j (heap w) r h' Halloc) as (Hsub & _).
Qed.

Section Methods.
Context {Env : Type}.
Implicit Types (g : GameValue Env) (w : World).

Lemma isChecksumValid_eq g w c :
  calculateChecksum (heap w) (currentValue g) = Some c ->
  isChecksumValid (g, w) = (Returned (bool_decide (c ∈ checksums g)), (g, w)).
Proof.
  intros Hc. unfold isChecksumValid, bind, this, gets, checksum, ret. simpl.
  by rewrite Hc.
Qed.

Lemma calculateChecksum_tree h v j :
  treeOf h v = Some j -> calculateChecksum h v = Some (checksumOf j).
Proof. unfold calculateChecksum. by intros ->. Qed.

(** [verify] reads, and changes nothing. *)
Lemma verify_frame env g w : snd (verify env (g, w)) = (g, w).
Proof.
  unfold verify, isChecksumValid, bind, this, gets, checksum, ret. simpl.
  by destruct (calculateChecksum _ _).
Qed.

(** [verify] on a container whose checksum is the one of its value. *)
Lemma verify_eq env g w c :
  calculateChecksum (heap w) (currentValue g) = Some c ->
  verify env (g, w) =
  (Returned (bool_decide (c ∈ checksums g) &&
             (if negb (bool_decide (c ∈ checksums g)) then false
              else match verificationCallback g with
                   | Some callback => callback env
                   | None => true
                   end)), (g, w)).
Proof.
  intros Hc. unfold verify, bind. rewrite (isChecksumValid_eq g w c Hc).
  reflexivity.
Qed.

(** [get] on a container whose value [JSON.stringify] accepts. *)
Lemma get_eq now g w j :
  treeOf (heap w) (currentValue g) = Some j ->
  exists r w',
    get now (g, w) = (Returned r, (accessed now g, w')) /\
    heap w ⊆ heap w' /\
    treeOf (heap w') r = Some j /\
    toJson (nodes j) (heap w' ∖ heap w) r = Some j /\
    (checksumOf j ∈ checksums g -> console w' = console w) /\
    (match currentValue g with VRef _ => True | _ => r = currentValue g end).
Proof.
  intros Hj. pose proof (calculateChecksum_tree _ _ _ Hj) as Hc.
  unfold get, bind, setThis, modify. simpl.
  rewrite (isChecksumValid_eq (accessed now g) w (checksumOf j)) by done.
  unfold this, gets. simpl.
  set (w0 := if bool_decide (checksumOf j ∈ checksums g) then w
             else consoleLog
                    ("[GameValue] Tampering detected when accessing: " +:+ key g) w).
  assert (heap w0 = heap w) as Hheap by (unfold w0; by case_bool_decide).
  destruct (deepClone_spec (currentValue g) w0 j) as
    (r & w' & Hclone & Hsub & Hcons & Htree & Hnew & Hprim);
    [by rewrite Hheap |].
  exists r, w'. rewrite Hheap in *. split_and!; try done.
  - unfold w0 in Hclone. case_bool_decide; simpl;
      unfold log, modify, ret, onWorld; simpl; by rewrite Hclone.
  - intros Hin. rewrite Hcons. unfold w0. by rewrite bool_decide_eq_true_2.
  - destruct (currentValue g); try done; by destruct Hprim.
Qed.

(** [set] of a value that [JSON.stringify] accepts, on a container whose
    value it accepts. *)
Lemma set_eq now g w v j0 j :
  treeOf (heap w) (currentValue g) = Some j0 ->
  treeOf (heap w) v = Some j ->
  exists r w',
    set now v (g, w)
    = (Returned tt,
       (withChecksums [checksumOf j] (withCurrentValue r (accessed now g)), w')) /\
    heap w ⊆ heap w' /\
    treeOf (heap w') r = Some j /\
    (match v with VRef _ => True | _ => r = v end).
Proof.
  intros Hj0 Hj. pose proof (calculateChecksum_tree _ _ _ Hj0) as Hc.
  unfold set, bind, setThis, modify. simpl.
  rewrite (isChecksumValid_eq (accessed now g) w (checksumOf j0)) by done.
  unfold this, gets. simpl.
  set (w0 := if bool_decide (checksumOf j0 ∈ checksums g) then w
             else consoleLog
                    ("[GameValue] Tampering detected when setting: " +:+ key g) w).
  assert (heap w0 = heap w) as Hheap by (unfold w0; by case_bool_decide).
  destruct (deepClone_spec v w0 j) as
    (r & w' & Hclone & Hsub & Hcons & Htree & Hnew & Hprim);
    [by rewrite Hheap |].
  exists r, w'. rewrite Hheap in *. split_and!; try done.
  - pose proof (calculateChecksum_tree _ _ _ Htree) as Hc'.
    unfold w0 in Hclone. case_bool_decide; simpl;
      unfold log, modify, ret, onWorld, updateChecksums, bind, this, gets,
        checksum, setThis, modify; simpl; rewrite Hclone; simpl; by rewrite Hc'.
  - destruct v; try done; by destruct Hprim.
Qed.

(** A container that the constructor returns holds a value that
    [JSON.stringify] accepts, and so does a container after a [set] that
    returns. *)
Lemma new_intact now k v (callback : option (Env -> bool)) w g w' :
  new now k v callback w = (Returned g, w') ->
  is_Some (treeOf (heap w') (currentValue g)).
Proof.
  unfold new, bind. destruct (deepClone v w) as [[original | e] w1]; [| done].
  destruct (deepClone v w1) as [[current | e] w2]; [| done].
  unfold calculateChecksum.
  destruct (treeOf (heap w2) current) as [j |] eqn:Hj; [| done].
  simpl. intros H. injection H as <- <-. simpl. by rewrite Hj.
Qed.

Lemma new_heap now k v (callback : option (Env -> bool)) w :
  heap w ⊆ heap (snd (new now k v callback w)).
Proof.
  unfold new, bind.
  pose proof (deepClone_heap v w) as H1.
  destruct (deepClone v w) as [[original | e] w1]; [| done].
  pose proof (deepClone_heap v w1) as H2.
  destruct (deepClone v w1) as [[current | e] w2]; [| by etrans].
  simpl in *. destruct (calculateChecksum (heap w2) current); simpl; by etrans.
Qed.

Lemma set_intact now v (g : GameValue Env) w g' w' :
  set now v (g, w) = (Returned tt, (g', w')) ->
  is_Some (treeOf (heap w') (currentValue g')).
Proof.
  unfold set, bind, setThis, modify. simpl.
  destruct (calculateChecksum (heap w) (currentValue g)) as [c |] eqn:Hc.
  - rewrite (isChecksumValid_eq (accessed now g) w c Hc).
    unfold this, gets. simpl.
    destruct (bool_decide (c ∈ checksums g)); unfold log, modify, ret, onWorld; simpl.
    all: match goal with
         | |- context [deepClone ?x ?w0] =>
             destruct (deepClone x w0) as [[r | e] w2]; [| done]
         end.
    all: unfold updateChecksums, bind, this, gets, checksum, setThis, modify; simpl.
    all: unfold calculateChecksum;
      destruct (treeOf (heap w2) r) as [j |] eqn:Hj; [| done].
    all: simpl; intros H; injection H as <- <-; simpl; by rewrite Hj.
  - unfold isChecksumValid, bind, this, gets, checksum. simpl. by rewrite Hc.
Qed.

(** C7, as amended.  On a container whose value [JSON.stringify] accepts,
    after [set(v)] of a value [v] it accepts: the stored checksum is the
    checksum of the current value; [get()] returns [v] (the value itself
    when it is a primitive, a copy with the same tree when it is an object)
    and warns of no tampering; and [verify()] returns true when the
    container has no verification callback or its callback answers true. *)
Theorem set_get_verify (g : GameValue Env) w now now' env v j0 j :
  treeOf (heap w) (currentValue g) = Some j0 ->
  treeOf (heap w) v = Some j ->
  (forall callback, verificationCallback g = Some callback -> callback env = true) ->
  exists g1 w1,
    set now v (g, w) = (Returned tt, (g1, w1)) /\
    checksums g1 = [checksumOf j] /\
    calculateChecksum (heap w1) (currentValue g1) = Some (checksumOf j) /\
    verify env (g1, w1) = (Returned true, (g1, w1)) /\
    exists r w2,
      get now' (g1, w1) = (Returned r, (accessed now' g1, w2)) /\
      treeOf (heap w2) r = Some j /\
      (match v with VRef _ => True | _ => r = v end) /\
      console w2 = console w1.
Proof.
  intros Hj0 Hj Hcallback.
  destruct (set_eq now g w v j0 j Hj0 Hj) as (r & w1 & Hset & Hsub & Htree & Hprim).
  set (g1 := withChecksums [checksumOf j] (withCurrentValue r (accessed now g))) in *.
  assert (treeOf (heap w1) (currentValue g1) = Some j) as Htree1 by done.
  pose proof (calculateChecksum_tree _ _ _ Htree1) as Hc.
  assert (checksumOf j ∈ checksums g1) as Hin by (simpl; set_solver).
  exists g1, w1. split_and!; try done.
  - rewrite (verify_eq env g1 w1 (checksumOf j) Hc).
    rewrite bool_decide_eq_true_2 by done. simpl.
    destruct (verificationCallback g) as [callback |] eqn:Hcb; [| done].
    by rewrite (Hcallback callback).
  - destruct (get_eq now' g1 w1 j Htree1)
      as (r' & w2 & Hget & _ & Htree2 & _ & Hconsole & Hprim').
    exists r', w2. split_and!; try done; [| by apply Hconsole].
    simpl in Hprim'. destruct v; try done; by subst.
Qed.

(** C9.  On a container whose value [JSON.stringify] accepts, [get()]
    returns a copy made of objects that were not in the heap before the
    call.  Whatever is then done to the objects that are not those of the
    heap before the call (in particular any change of an object of the
    copy), the stored value has the tree it had, its checksum and the stored
    checksums are the same, [verify()] answers what it answered and [get()]
    again returns a value with the same tree. *)
Theorem get_returns_clone (g : GameValue Env) w now j :
  treeOf (heap w) (currentValue g) = Some j ->
  exists r w1,
    get now (g, w) = (Returned r, (accessed now g, w1)) /\
    treeOf (heap w1) r = Some j /\
    toJson (nodes j) (heap w1 ∖ heap w) r = Some j /\
    (forall l o, heap w !! l = None -> heap w ⊆ <[l := o]> (heap w1)) /\
    forall h', heap w ⊆ h' ->
      let g1 := accessed now g in
      let w' := withHeap h' w1 in
      currentValue g1 = currentValue g /\
      checksums g1 = checksums g /\
      treeOf h' (currentValue g1) = Some j /\
      calculateChecksum h' (currentValue g1)
        = calculateChecksum (heap w) (currentValue g) /\
      (forall env, fst (verify env (g1, w')) = fst (verify env (g, w))) /\
      (forall now', exists r' w2,
         get now' (g1, w') = (Returned r', (accessed now' g1, w2)) /\
         treeOf (heap w2) r' = Some j).
Proof.
  intros Hj.
  destruct (get_eq now g w j Hj) as (r & w1 & Hget & Hsub & Htree & Hnew & _ & _).
  exists r, w1. split_and!; try done.
  - intros l o Hl. by apply insert_subseteq_r.
  - intros h' Hh'. simpl.
    pose proof (treeOf_heap _ _ _ _ Hj Hh') as Hj'.
    pose proof (calculateChecksum_tree _ _ _ Hj) as Hc.
    pose proof (calculateChecksum_tree _ _ _ Hj') as Hc'.
    split_and!; try done.
    + by rewrite Hc, Hc'.
    + intros env.
      rewrite (verify_eq env (accessed now g) (withHeap h' w1) (checksumOf j)) by done.
      by rewrite (verify_eq env g w (checksumOf j)).
    + intros now'.
      destruct (get_eq now' (accessed now g) (withHeap h' w1) j Hj')
        as (r' & w2 & Hget' & _ & Htree' & _).
      by exists r', w2.
Qed.

End Methods.

(** The container of the examples is the one the constructor makes. *)
Lemma new_stats {Env} (callback : option (Env -> bool)) :
  new 0 "stats" (VRef 1%positive) callback Examples.gameWorld
  = (Returned (Examples.statsValue callback), Examples.statsWorld).
Proof. vm_compute. reflexivity. Qed.

Lemma set_get_verify_witness :
  exists g1 w1,
    set 1 (VNum 42) (Examples.statsValue Examples.noCallback, Examples.statsWorld)
    = (Returned tt, (g1, w1)) /\
    verify tt (g1, w1) = (Returned true, (g1, w1)) /\
    exists w2, get 2 (g1, w1) = (Returned (VNum 42), (accessed 2 g1, w2)).
Proof.
  destruct (set_get_verify (Examples.statsValue Examples.noCallback) Examples.statsWorld 1 2 tt
              (VNum 42) Examples.statsTree (JsNum 42))
    as (g1 & w1 & Hset & _ & _ & Hverify & r & w2 & Hget & _ & Hr & _).
  - vm_compute. reflexivity.
  - vm_compute. reflexivity.
  - intros callback H. discriminate H.
  - exists g1, w1. split; [exact Hset |]. split; [exact Hverify |].
    exists w2. rewrite <- Hr. exact Hget.
Defined.

(** C7 as stated fails: [verify()] also asks the verification callback of
    the container, and answers false when the callback does, right after a
    [set] and with the checksum of the current value stored. *)
Lemma verify_after_set_counterexample :
  let s0 := (Examples.statsValue Examples.distrust, Examples.statsWorld) in
  let s1 := snd (set 1 (VNum 42) s0) in
  fst (set 1 (VNum 42) s0) = Returned tt /\
  calculateChecksum (heap (snd s1)) (currentValue (fst s1))
    = Some (checksumOf (JsNum 42)) /\
  checksums (fst s1) = [checksumOf (JsNum 42)] /\
  fst (verify tt s1) = Returned false.
Proof. vm_compute. repeat split. Qed.

Lemma get_returns_clone_witness :
  exists r w1,
    get 1 (Examples.statsValue Examples.noCallback, Examples.statsWorld)
    = (Returned r, (accessed 1 (Examples.statsValue Examples.noCallback), w1)) /\
    treeOf (heap w1) r = Some Examples.statsTree /\
    forall o,
      fst (verify tt (accessed 1 (Examples.statsValue Examples.noCallback),
                      withHeap (<[4%positive := o]> (heap w1)) w1))
      = fst (verify tt (Examples.statsValue Examples.noCallback, Examples.statsWorld)).
Proof.
  destruct (get_returns_clone (Examples.statsValue Examples.noCallback) Examples.statsWorld 1
              Examples.statsTree)
    as (r & w1 & Hget & Htree & _ & Hfresh & Hframe).
  - vm_compute. reflexivity.
  - exists r, w1. split; [exact Hget |]. split; [exact Htree |].
    intros o.
    destruct (Hframe (<[4%positive := o]> (heap w1))) as (_ & _ & _ & _ & Hverify & _).
    + apply Hfresh. vm_compute. reflexivity.
    + apply Hverify.
Defined.

(** The game changes the copy it got from [get()]: the container still
    verifies, and the next [get()] returns the stored tree. *)
Example mutate_the_clone :
  let s0 := (Examples.statsValue Examples.noCallback, Examples.statsWorld) in
  let r := fst (get 1 s0) in
  let s1 := snd (get 1 s0) in
  let s2 := (fst s1, withHeap (<[4%positive := Examples.cheated]> (heap (snd s1))) (snd s1)) in
  r = Returned (VRef 4%positive) /\
  fst (verify tt s2) = Returned true /\
  (let r' := fst (get 2 s2) in
   r' = Returned (VRef 5%positive) /\
   treeOf (heap (snd (snd (get 2 s2)))) (VRef 5%positive) = Some Examples.statsTree).
Proof. vm_compute. repeat split. Qed.

(** *** The hash of calculateChecksum *)

Lemma toInt32_spec z : exists k, toInt32 z = z + k * 2 ^ 32.
Proof.
  unfold toInt32. exists (- ((z + 2 ^ 31) / 2 ^ 32)).
  pose proof (Z.div_mod (z + 2 ^ 31) (2 ^ 32)). lia.
Qed.

Lemma toInt32_plus z k : toInt32 (z + k * 2 ^ 32) = toInt32 z.
Proof.
  unfold toInt32. replace (z + k * 2 ^ 32 + 2 ^ 31) with (z + 2 ^ 31 + k * 2 ^ 32) by lia.
  by rewrite Z_mod_plus_full.
Qed.

(** One turn of the loop multiplies by 31 and adds the character, in 32
    bits. *)
Lemma hashStep_eq h c : hashStep h c = toInt32 (31 * h + c).
Proof.
  unfold hashStep. rewrite Z.land_diag, Z.shiftl_mul_pow2 by lia.
  destruct (toInt32_spec h) as [k1 ->].
  destruct (toInt32_spec ((h + k1 * 2 ^ 32) * 2 ^ 5)) as [k2 ->].
  rewrite <- (toInt32_plus (31 * h + c) (32 * k1 + k2)). f_equal. lia.
Qed.

Lemma hashStep_toInt32 p c : hashStep (toInt32 p) c = toInt32 (31 * p + c).
Proof.
  rewrite hashStep_eq. destruct (toInt32_spec p) as [k ->].
  rewrite <- (toInt32_plus (31 * p + c) (31 * k)). f_equal. lia.
Qed.

Lemma fold_hashStep cs : forall p,
  fold_left hashStep cs (toInt32 p)
  = toInt32 (fold_left (fun p c => 31 * p + c) cs p).
Proof.
  induction cs as [| c cs IH]; intros p; [done |].
  simpl. by rewrite hashStep_toInt32, IH.
Qed.

(** X11. The loop of [calculateChecksum], which wraps to 32 bits at every
    turn, computes the 32-bit wrap of the polynomial with base 31 over the
    character codes of the string: ((c1 * 31 + c2) * 31 + c3) * 31 + ...,
    the hash code of Java strings. *)
Theorem hashOf_polynomial valueString :
  hashOf valueString
  = toInt32 (fold_left (fun p c => 31 * p + c) (charCodes valueString) 0).
Proof.
  unfold hashOf. change 0 with (toInt32 0) at 1. apply fold_hashStep.
Qed.

Lemma charCodes_app a b : charCodes (a +:+ b) = charCodes a ++ charCodes b.
Proof.
  unfold charCodes. induction a as [| c a IH]; [done |].
  simpl. by rewrite IH.
Qed.

Lemma append_assoc (a b c : string) : (a +:+ b) +:+ c = a +:+ b +:+ c.
Proof.
  induction a as [| x a IH]; [done |].
  change (String x ((a +:+ b) +:+ c) = String x (a +:+ b +:+ c)).
  by rewrite IH.
Qed.

Lemma escapeAll_app a b : escapeAll (a +:+ b) = escapeAll a +:+ escapeAll b.
Proof.
  induction a as [| c a IH]; [done |].
  change (escape c +:+ escapeAll (a +:+ b)
          = (escape c +:+ escapeAll a) +:+ escapeAll b).
  by rewrite IH, append_assoc.
Qed.

(** The strings [..Aa..] and [..BB..] have the same checksum. *)
Lemma checksumOf_collision a b :
  checksumOf (JsStr (a +:+ "Aa" +:+ b)) = checksumOf (JsStr (a +:+ "BB" +:+ b)).
Proof.
  unfold checksumOf. do 2 f_equal. rewrite !hashOf_polynomial. f_equal.
  change (stringify (JsStr (a +:+ "Aa" +:+ b))) with (quote (a +:+ "Aa" +:+ b)).
  change (stringify (JsStr (a +:+ "BB" +:+ b))) with (quote (a +:+ "BB" +:+ b)).
  unfold quote. rewrite !escapeAll_app.
  change (escapeAll "Aa") with "Aa". change (escapeAll "BB") with "BB".
  rewrite !charCodes_app, !fold_left_app. do 2 f_equal.
  unfold charCodes. simpl.
  match goal with
  | |- context [fold_left ?f ?l ?z] => generalize (fold_left f l z)
  end.
  intros p. change (31 * (31 * p + 65) + 97 = 31 * (31 * p + 66) + 66). lia.
Qed.

Section Tampering.
Context {Env : Type}.
Implicit Types (g : GameValue Env) (w : World).

(** X12. A collision goes undetected.  Since the checksum is a 32-bit
    polynomial hash, a protected string in which "Aa" is replaced by "BB"
    (anywhere, in memory, behind the back of the container) has the stored
    checksum: [verify()] answers what it answered before, and when the
    container verified before, [get()] hands out the changed string without
    a warning. *)
Theorem collision_goes_undetected g w env now a b :
  currentValue g = VStr (a +:+ "Aa" +:+ b) ->
  let g' := withCurrentValue (VStr (a +:+ "BB" +:+ b)) g in
  calculateChecksum (heap w) (currentValue g')
  = calculateChecksum (heap w) (currentValue g) /\
  fst (verify env (g', w)) = fst (verify env (g, w)) /\
  (checksumOf (JsStr (a +:+ "Aa" +:+ b)) ∈ checksums g ->
   get now (g', w) = (Returned (VStr (a +:+ "BB" +:+ b)), (accessed now g', w))).
Proof.
  intros Hcur g'.
  assert (calculateChecksum (heap w) (currentValue g)
          = Some (checksumOf (JsStr (a +:+ "Aa" +:+ b)))) as Hc.
  { rewrite Hcur. unfold calculateChecksum, treeOf. by destruct (size (heap w)). }
  assert (calculateChecksum (heap w) (currentValue g')
          = Some (checksumOf (JsStr (a +:+ "Aa" +:+ b)))) as Hc'.
  { rewrite checksumOf_collision. unfold calculateChecksum, treeOf. simpl.
    by destruct (size (heap w)). }
  split_and!.
  - by rewrite Hc, Hc'.
  - by rewrite (verify_eq env g' w _ Hc'), (verify_eq env g w _ Hc).
  - intros Hin. unfold get, bind, setThis, modify. simpl.
    rewrite (isChecksumValid_eq (accessed now g') w _ Hc').
    simpl. rewrite bool_decide_eq_true_2 by done. reflexivity.
Qed.

(** [get] on a container whose value has another checksum than the stored
    ones. *)
Lemma get_tampered now g w j :
  treeOf (heap w) (currentValue g) = Some j ->
  checksumOf j ∉ checksums g ->
  exists r w',
    get now (g, w) = (Returned r, (accessed now g, w')) /\
    treeOf (heap w') r = Some j /\
    console w'
    = console w ++ ["[GameValue] Tampering detected when accessing: " +:+ key g].
Proof.
  intros Hj Hnot. pose proof (calculateChecksum_tree _ _ _ Hj) as Hc.
  unfold get, bind, setThis, modify. simpl.
  rewrite (isChecksumValid_eq (accessed now g) w (checksumOf j)) by done.
  unfold this, gets. simpl. rewrite bool_decide_eq_false_2 by done.
  set (w0 := consoleLog
               ("[GameValue] Tampering detected when accessing: " +:+ key g) w).
  destruct (deepClone_spec (currentValue g) w0 j) as
    (r & w' & Hclone & Hsub & Hcons & Htree & Hnew & Hprim); [done |].
  exists r, w'. split_and!; try done.
  unfold log, modify, ret, onWorld. simpl. fold w0. by rewrite Hclone.
Qed.

(** X13. Tampering is detected, and the tampered value handed out.  When
    the current value of a container has a checksum that is not the stored
    one, [verify()] answers false whatever the callback would say, and
    [get()] writes a warning to the console and still returns (a copy of)
    the value it finds, not the original one. *)
Theorem tampering_is_detected g w now env j :
  treeOf (heap w) (currentValue g) = Some j ->
  checksumOf j ∉ checksums g ->
  verify env (g, w) = (Returned false, (g, w)) /\
  exists r w1,
    get now (g, w) = (Returned r, (accessed now g, w1)) /\
    treeOf (heap w1) r = Some j /\
    console w1
    = console w ++ ["[GameValue] Tampering detected when accessing: " +:+ key g].
Proof.
  intros Hj Hnot. split; [| by apply get_tampered].
  rewrite (verify_eq env g w (checksumOf j)) by (by apply calculateChecksum_tree).
  by rewrite bool_decide_eq_false_2.
Qed.

(** X14. [reset()] restores the original.  Whatever the current value of
    the container is (tampered with, or one that [JSON.stringify] rejects),
    when the original value is one it accepts [reset()] returns, the
    current value is then a new copy of the original, the stored checksum
    is its checksum, and [verify()] answers true when the container has no
    callback or its callback answers true. *)
Theorem reset_restores_original g w env j :
  treeOf (heap w) (originalValue g) = Some j ->
  (forall callback, verificationCallback g = Some callback -> callback env = true) ->
  exists g1 w1,
    reset (g, w) = (Returned tt, (g1, w1)) /\
    originalValue g1 = originalValue g /\
    heap w ⊆ heap w1 /\
    treeOf (heap w1) (originalValue g1) = Some j /\
    treeOf (heap w1) (currentValue g1) = Some j /\
    toJson (nodes j) (heap w1 ∖ heap w) (currentValue g1) = Some j /\
    checksums g1 = [checksumOf j] /\
    console w1 = console w ++ ["[GameValue] Reset value: " +:+ key g] /\
    verify env (g1, w1) = (Returned true, (g1, w1)).
Proof.
  intros Hj Hcallback.
  destruct (deepClone_spec (originalValue g) w j Hj) as
    (r & w' & Hclone & Hsub & Hcons & Htree & Hnew & Hprim).
  pose proof (calculateChecksum_tree _ _ _ Htree) as Hc.
  set (g1 := withChecksums [checksumOf j] (withCurrentValue r g)).
  exists g1, (consoleLog ("[GameValue] Reset value: " +:+ key g) w').
  assert (reset (g, w)
          = (Returned tt, (g1, consoleLog ("[GameValue] Reset value: " +:+ key g) w')))
    as Hreset.
  { unfold reset, bind, this, gets, onWorld. simpl. rewrite Hclone.
    unfold setThis, modify, updateChecksums, bind, this, gets, checksum. simpl.
    by rewrite Hc. }
  split_and!; try done.
  - by eapply treeOf_heap.
  - simpl. by rewrite Hcons.
  - rewrite (verify_eq env g1 _ (checksumOf j)) by done.
    rewrite bool_decide_eq_true_2 by (simpl; set_solver). simpl.
    destruct (verificationCallback g) as [callback |] eqn:Hcb; [| done].
    by rewrite (Hcallback callback).
Qed.

(** X15. A [set] that fails poisons the container.  When [set(v)] is
    given a value that [JSON.stringify] rejects (a cyclic structure), the
    copy fails and [v] itself becomes the current value before the checksum
    is computed, so [set] throws with the container changed: the current
    value is [v], the stored checksums are the old ones.  From then on
    [verify()], [get()] and every further [set] throw as well, and a
    further [set] leaves [v] in place. *)
Theorem failed_set_poisons g w now v j0 :
  treeOf (heap w) (currentValue g) = Some j0 ->
  treeOf (heap w) v = None ->
  exists g1 w1,
    set now v (g, w) = (Thrown "TypeError", (g1, w1)) /\
    currentValue g1 = v /\
    checksums g1 = checksums g /\
    originalValue g1 = originalValue g /\
    heap w1 = heap w /\
    (forall env, verify env (g1, w1) = (Thrown "TypeError", (g1, w1))) /\
    (forall now', fst (get now' (g1, w1)) = Thrown "TypeError") /\
    (forall now' u,
       set now' u (g1, w1) = (Thrown "TypeError", (accessed now' g1, w1))).
Proof.
  intros Hj0 Hv. pose proof (calculateChecksum_tree _ _ _ Hj0) as Hc.
  assert (exists l, v = VRef l) as [l ->].
  { destruct v; try (by unfold treeOf in Hv; destruct (size (heap w))). by eexists. }
  assert (forall h, h = heap w -> calculateChecksum h (VRef l) = None) as Hnone.
  { intros h ->. unfold calculateChecksum. by rewrite Hv. }
  set (w0 := if bool_decide (checksumOf j0 ∈ checksums g) then w
             else consoleLog
                    ("[GameValue] Tampering detected when setting: " +:+ key g) w).
  assert (heap w0 = heap w) as Hheap by (unfold w0; by case_bool_decide).
  set (w1 := consoleLog "[GameValue] Error cloning value" w0).
  set (g1 := withCurrentValue (VRef l) (accessed now g)).
  exists g1, w1.
  assert (forall (g2 : GameValue Env), currentValue g2 = VRef l ->
            isChecksumValid (g2, w1) = (Thrown "TypeError", (g2, w1))) as Hthrows.
  { intros g2 H2. unfold isChecksumValid, bind, this, gets, checksum. simpl.
    rewrite H2. by rewrite Hnone. }
  split_and!; try done.
  - unfold set, bind, setThis, modify. simpl.
    rewrite (isChecksumValid_eq (accessed now g) w (checksumOf j0)) by done.
    unfold this, gets. simpl.
    unfold w1, w0. case_bool_decide; simpl;
      unfold log, modify, ret, onWorld, updateChecksums, bind, this, gets,
        checksum, setThis, modify; simpl; rewrite Hv; simpl;
      by rewrite Hnone.
  - intros env. unfold verify, bind. by rewrite (Hthrows g1).
  - intros now'. unfold get, bind, setThis, modify. simpl.
    by rewrite (Hthrows (accessed now' g1)).
  - intros now' u. unfold set, bind, setThis, modify. simpl.
    by rewrite (Hthrows (accessed now' g1)).
Qed.

(** X16. The constructor keeps copies.  [new GameValue(key, v, callback)]
    on a value [v] that [JSON.stringify] accepts returns a container whose
    original and current values are made of objects allocated by the call:
    whatever is done afterwards to the other objects of the heap, the
    object [v] included, both still have the tree [v] had, and [verify()]
    answers true when there is no callback or the callback answers true. *)
Theorem constructor_isolates now k v (callback : option (Env -> bool)) w j :
  treeOf (heap w) v = Some j ->
  exists g w1,
    new now k v callback w = (Returned g, w1) /\
    heap w ⊆ heap w1 /\
    checksums g = [checksumOf j] /\
    verificationCallback g = callback /\
    forall h', heap w1 ∖ heap w ⊆ h' ->
      treeOf h' (originalValue g) = Some j /\
      treeOf h' (currentValue g) = Some j /\
      forall env,
        (forall c, callback = Some c -> c env = true) ->
        verify env (g, withHeap h' w1) = (Returned true, (g, withHeap h' w1)).
Proof.
  intros Hj.
  destruct (deepClone_spec v w j Hj) as
    (original & wa & Hclone1 & Hsub1 & Hcons1 & Htree1 & Hnew1 & _).
  pose proof (treeOf_heap _ _ _ _ Hj Hsub1) as Hj'.
  destruct (deepClone_spec v wa j Hj') as
    (current & wb & Hclone2 & Hsub2 & Hcons2 & Htree2 & Hnew2 & _).
  pose proof (calculateChecksum_tree _ _ _ Htree2) as Hc.
  eexists _, _. split_and!.
  - unfold new, bind. rewrite Hclone1, Hclone2, Hc. reflexivity.
  - simpl. by etrans.
  - done.
  - done.
  - intros h' Hh'. simpl in Hh'.
    assert (treeOf h' original = Some j) as Ho.
    { apply (treeOf_complete (nodes j)).
      apply (toJson_heap _ (heap wa ∖ heap w)); [done |].
      etrans; [| exact Hh']. by apply difference_mono. }
    assert (treeOf h' current = Some j) as Hcur.
    { apply (treeOf_complete (nodes j)).
      apply (toJson_heap _ (heap wb ∖ heap wa)); [done |].
      etrans; [| exact Hh']. by apply difference_anti. }
    split_and!; [done | done |].
    intros env Hcb.
    rewrite (verify_eq env _ _ (checksumOf j))
      by (by apply calculateChecksum_tree).
    simpl. rewrite bool_decide_eq_true_2 by set_solver. simpl.
    destruct callback as [c |]; [| done]. by rewrite (Hcb c).
Qed.

End Tampering.

Lemma collision_goes_undetected_witness :
  let g := Examples.named Examples.noCallback "Aaron" in
  let g' := withCurrentValue (VStr "BBron") g in
  fst (verify tt (g', Examples.gameWorld)) = fst (verify tt (g, Examples.gameWorld)) /\
  fst (verify tt (g, Examples.gameWorld)) = Returned true.
Proof.
  split.
  - apply (collision_goes_undetected (Examples.named Examples.noCallback "Aaron")
             Examples.gameWorld tt 0 EmptyString "ron").
    reflexivity.
  - vm_compute. reflexivity.
Defined.

Lemma tampering_is_detected_witness :
  verify tt (withCurrentValue (VNum 999999) (Examples.statsValue Examples.noCallback),
             Examples.statsWorld)
  = (Returned false,
     (withCurrentValue (VNum 999999) (Examples.statsValue Examples.noCallback),
      Examples.statsWorld)).
Proof.
  apply (tampering_is_detected
           (withCurrentValue (VNum 999999) (Examples.statsValue Examples.noCallback))
           Examples.statsWorld 1 tt (JsNum 999999)).
  - vm_compute. reflexivity.
  - vm_compute. intros H. apply list_elem_of_singleton in H. discriminate H.
Defined.

Lemma reset_restores_original_witness :
  exists g1 w1,
    reset (withCurrentValue (VNum 999999) (Examples.statsValue Examples.noCallback),
           Examples.statsWorld)
    = (Returned tt, (g1, w1)) /\
    treeOf (heap w1) (currentValue g1) = Some Examples.statsTree /\
    verify tt (g1, w1) = (Returned true, (g1, w1)).
Proof.
  destruct (reset_restores_original
              (withCurrentValue (VNum 999999) (Examples.statsValue Examples.noCallback))
              Examples.statsWorld tt Examples.statsTree)
    as (g1 & w1 & Hreset & _ & _ & _ & Htree & _ & _ & _ & Hverify).
  - vm_compute. reflexivity.
  - intros callback H. discriminate H.
  - exists g1, w1. split_and!; [exact Hreset | exact Htree | exact Hverify].
Defined.

Lemma failed_set_poisons_witness :
  exists g1 w1,
    set 1 (VRef 9%positive)
      (Examples.statsValue Examples.noCallback, Examples.knotWorld)
    = (Thrown "TypeError", (g1, w1)) /\
    currentValue g1 = VRef 9%positive /\
    fst (get 2 (g1, w1)) = Thrown "TypeError".
Proof.
  destruct (failed_set_poisons (Examples.statsValue Examples.noCallback)
              Examples.knotWorld 1 (VRef 9%positive) Examples.statsTree)
    as (g1 & w1 & Hset & Hcur & _ & _ & _ & _ & Hget & _).
  - vm_compute. reflexivity.
  - vm_compute. reflexivity.
  - exists g1, w1. split_and!; [exact Hset | exact Hcur | apply Hget].
Defined.

Lemma constructor_isolates_witness :
  exists g w1,
    new 0 "stats" (VRef 1%positive) Examples.noCallback Examples.gameWorld
    = (Returned g, w1) /\
    verify tt (g, withHeap (<[1%positive := Examples.cheated]> (heap w1)) w1)
    = (Returned true, (g, withHeap (<[1%positive := Examples.cheated]> (heap w1)) w1)).
Proof.
  destruct (constructor_isolates 0 "stats" (VRef 1%positive) Examples.noCallback
              Examples.gameWorld Examples.statsTree)
    as (g & w1 & Hnew & Hsub & _ & _ & Hkept).
  - vm_compute. reflexivity.
  - exists g, w1. split; [exact Hnew |].
    apply (Hkept (<[1%positive := Examples.cheated]> (heap w1))).
    + apply map_subseteq_spec. intros l o Hl.
      apply lookup_difference_Some in Hl as [Hl Hnot].
      rewrite lookup_insert_ne; [exact Hl |].
      intros <-. vm_compute in Hnot. discriminate Hnot.
    + intros c H. discriminate H.
Defined.

End GameValueFacts.

(** ** The orchestrator *)

Module ShieldFacts.
Import Shield.

Lemma ran_advance c cs s : ran c (advance cs s) = advance (cs ++ [c]) s.
Proof. unfold ran, advance. simpl. f_equal. by rewrite <- app_assoc. Qed.

Lemma ran_eq c s : ran c s = advance [c] s.
Proof. reflexivity. Qed.

Lemma same_state (r : CheatToolDetectionResult) a b c d e f g h cs cs' es :
  cs = cs' ->
  (Returned r, {| isRunning := a; checkInterval := b; intervalId := c;
                  protectedValues := d; isVerifying := e;
                  detectedTamperingAttempts := f; world := g; timers := h;
                  checksRun := cs; events := es |})
  = (Returned r, {| isRunning := a; checkInterval := b; intervalId := c;
                    protectedValues := d; isVerifying := e;
                    detectedTamperingAttempts := f; world := g; timers := h;
                    checksRun := cs'; events := es |}).
Proof. by intros ->. Qed.

(** [detectCheatTools] runs its detections in order and stops at the first
    that finds something. *)
Lemma detectCheatTools_eq p s :
  exists r,
    detectCheatTools p s = (Returned r, advance (toolChecks p) s) /\
    detected r = toolDetected p.
Proof.
  destruct p as [apps procs sigs dbg emu mem].
  unfold detectCheatTools, toolChecks, toolDetected, detect, bind, modify, ret.
  simpl.
  destruct apps; simpl; [eexists; split; [reflexivity | done] |].
  destruct procs; simpl;
    [eexists; split; [apply same_state; simpl; by rewrite <- ?app_assoc | done] |].
  destruct sigs; simpl;
    [eexists; split; [apply same_state; simpl; by rewrite <- ?app_assoc | done] |].
  destruct dbg; simpl;
    [eexists; split; [apply same_state; simpl; by rewrite <- ?app_assoc | done] |].
  destruct emu; simpl;
    eexists; (split; [apply same_state; simpl; by rewrite <- ?app_assoc | done]).
Qed.

(** The verification of the protected values: every value is verified, in
    order, and nothing but the record of the checks changes. *)
Lemma verifyValues_spec vs : forall s r s',
  verifyValues vs s = (r, s') ->
  control s' = control s /\
  events s' = events s /\
  world s' = world s /\
  (forall keys, r = Returned keys ->
     checksRun s' = checksRun s ++ map (fun kv => VerifyValue (fst kv)) vs).
Proof.
  induction vs as [| [k g] vs IH]; intros s r s' Hrun.
  - injection Hrun as <- <-. split_and!; try done.
    intros keys _. by rewrite app_nil_r.
  - simpl in Hrun. unfold bind, verifyValue in Hrun.
    pose proof (GameValueFacts.verify_frame (isVerifying s) g
                  (world (ran (VerifyValue k) s))) as Hframe.
    destruct (GameValue.verify (isVerifying s) (g, world (ran (VerifyValue k) s)))
      as [ok gw] eqn:Hverify.
    simpl in Hframe. subst gw. simpl in Hrun.
    destruct ok as [ok | e].
    + destruct (verifyValues vs (withWorld (world s) (ran (VerifyValue k) s)))
        as [r1 s1] eqn:Hrest.
      destruct (IH _ _ _ Hrest) as (Hc & He & Hw & Hchecks).
      destruct r1 as [keys | e]; injection Hrun as <- <-;
        (split_and!; [done | done | done |]).
      * intros keys' _. rewrite (Hchecks keys eq_refl). simpl.
        by rewrite <- app_assoc.
      * intros keys' Heq. discriminate Heq.
    + injection Hrun as <- <-. split_and!; try done.
Qed.

(** A run of the checks that returns: the detections of [ToolDetector],
    then the memory scan, then every protected value, whatever was found on
    the way; the flag is set by any of the three findings. *)
Lemma runChecks_spec p s flag s' :
  runChecks p s = (Returned flag, s') ->
  exists r keys,
    detected r = toolDetected p /\
    flag = toolDetected p || memoryTampered p || negb (bool_decide (keys = [])) /\
    control s' = control s /\
    checksRun s' = checksRun s ++ toolChecks p
                     ++ ScanMemoryForTampering :: valueChecks s /\
    events s' = events s ++ reported r p keys.
Proof.
  intros Hrun. destruct (detectCheatTools_eq p s) as (r & Hdet & Hr).
  unfold runChecks, bind in Hrun. rewrite Hdet in Hrun.
  unfold handleCheatDetected, scanMemoryForTampering, bind, modify, ret, gets
    in Hrun.
  exists r. unfold reported. rewrite <- Hr.
  set (tc := toolChecks p) in *.
  destruct (detected r), (memoryTampered p); simpl in Hrun;
    match type of Hrun with
    | context [verifyValues ?vs ?s0] =>
        destruct (verifyValues vs s0) as [rk s6] eqn:Hv;
        destruct (verifyValues_spec _ _ _ _ Hv) as (Hc & He & _ & Hchecks)
    end;
    (destruct rk as [keys | e]; [| discriminate Hrun]);
    specialize (Hchecks keys eq_refl); exists keys;
    destruct (bool_decide (keys = [])); simpl in Hrun;
    injection Hrun as <- <-; simpl in *.
  all: split_and!; try done.
  all: try (rewrite Hchecks; unfold valueChecks; by rewrite <- !app_assoc).
  all: rewrite He, <- ?app_assoc, ?app_nil_r; reflexivity.
Qed.

(** With intact values the verification returns. *)
Lemma verifyValues_returns vs : forall s,
  Forall (fun kv => is_Some (GameValue.treeOf (GameValue.heap (world s))
                               (GameValue.currentValue (snd kv)))) vs ->
  exists keys s', verifyValues vs s = (Returned keys, s').
Proof.
  induction vs as [| [k g] vs IH]; intros s Hvs; [by eexists _, _ |].
  apply Forall_cons in Hvs as [[j Hj] Hvs]. simpl in Hj.
  simpl. unfold bind, verifyValue.
  rewrite (GameValueFacts.verify_eq (isVerifying s) g
             (world (ran (VerifyValue k) s))
             (GameValue.checksumOf j))
    by (by apply GameValueFacts.calculateChecksum_tree).
  simpl. destruct (IH (withWorld (world s) (ran (VerifyValue k) s)) Hvs)
    as (keys & s' & ->).
  by eexists _, _.
Qed.

(** With intact values a run of the checks returns. *)
Lemma runChecks_returns p s :
  intact s -> exists flag s', runChecks p s = (Returned flag, s').
Proof.
  intros Hs. destruct (detectCheatTools_eq p s) as (r & Hdet & _).
  unfold runChecks, bind. rewrite Hdet.
  unfold handleCheatDetected, scanMemoryForTampering, bind, modify, ret, gets.
  destruct (detected r), (memoryTampered p); simpl;
    match goal with
    | |- context [verifyValues ?vs ?s0] =>
        destruct (verifyValues_returns vs s0 Hs) as (keys & s6 & ->)
    end;
    destruct (bool_decide (keys = [])); simpl; by eexists _, _.
Qed.

(** [start] on a shield that is not running follows the initial check. *)
Lemma start_eq p s :
  isRunning s = false ->
  start p s =
  match runChecks p s with
  | (Returned true, s1) => (Returned false, s1)
  | (Returned false, s1) => (Returned true, started s1)
  | (Thrown e, s1) => (Thrown e, s1)
  end.
Proof.
  intros Hs. unfold start, bind, gets. rewrite Hs.
  destruct (runChecks p s) as [[[|] | e] s1]; reflexivity.
Qed.


(** [protectValue] gives the value a callback that always answers true,
    and keeps the values of the shield intact. *)
Lemma verificationCallback_true b : verificationCallback b = true.
Proof. by destruct b. Qed.

Lemma mapSet_Forall (P : string * GameValue.GameValue bool -> Prop) key g values :
  P (key, g) -> Forall P values -> Forall P (mapSet key g values).
Proof.
  intros Hg. induction 1 as [| [k g'] rest Hk Hrest IH]; simpl.
  - by constructor.
  - destruct (String.eqb k key); by constructor.
Qed.

Lemma protectValue_spec now key v s g s' :
  protectValue now key v s = (Returned g, s') ->
  GameValue.verificationCallback g = Some verificationCallback /\
  (intact s -> intact s').
Proof.
  unfold protectValue.
  pose proof (GameValueFacts.new_heap now key v (Some verificationCallback) (world s))
    as Hheap.
  destruct (GameValue.new now key v (Some verificationCallback) (world s))
    as [[g0 | e] w] eqn:Hnew; [| done].
  intros H. injection H as <- <-. split.
  - unfold GameValue.new, bind in Hnew.
    destruct (GameValue.deepClone v (world s)) as [[original | e] w1]; [| done].
    destruct (GameValue.deepClone v w1) as [[current | e] w2]; [| done].
    destruct (GameValue.calculateChecksum _ _); [| done].
    by injection Hnew as <- _.
  - intros Hs. unfold intact. simpl. apply mapSet_Forall.
    + by apply GameValueFacts.new_intact in Hnew.
    + eapply Forall_impl; [exact Hs |]. intros [k g'] [j Hj]. exists j.
      by eapply GameValueFacts.treeOf_heap.
Qed.

(** The shield of the examples is a new shield that has protected the
    stats of the game. *)
Lemma shield_protects_stats :
  protectValue 0 "stats" (GameValue.VRef 1%positive) (fresh [] Examples.gameWorld)
  = (Returned (Examples.statsValue (Some verificationCallback)), Examples.shield).
Proof. vm_compute. reflexivity. Qed.

(** The shield of the examples is intact. *)
Lemma shield_intact : intact Examples.shield.
Proof.
  repeat constructor. exists Examples.statsTree. vm_compute. reflexivity.
Qed.

Lemma started_intact s : intact s -> intact (started s).
Proof. done. Qed.



(** C5, as amended.  A cycle of a running shield whose protected values
    are intact returns, and it has run: the detections of [ToolDetector] in
    the order cheat-tool apps, suspicious processes, memory signatures,
    debugger, emulator, up to and including the first that finds something;
    then, whatever was found, the memory scan; then, whatever was found, the
    verification of every protected value. *)
Theorem checks_of_a_cycle p s i :
  intervalId s = Some i ->
  intact s ->
  exists s',
    cycle p s = (Returned tt, s') /\
    checksRun s' =
    checksRun s ++ toolChecks p ++ ScanMemoryForTampering :: valueChecks s.
Proof.
  intros Hi Hintact. unfold cycle. rewrite Hi.
  destruct (runChecks_returns p s Hintact) as (flag & s1 & Hrun).
  rewrite Hrun. exists s1. split; [done |].
  by destruct (runChecks_spec p s flag s1 Hrun) as (r & keys & _ & _ & _ & Hchecks & _).
Qed.

Lemma checks_of_a_cycle_witness :
  exists s',
    cycle Examples.toolAndMemory (started Examples.shield) = (Returned tt, s') /\
    checksRun s'
    = checksRun (started Examples.shield) ++ toolChecks Examples.toolAndMemory
        ++ ScanMemoryForTampering :: valueChecks (started Examples.shield).
Proof.
  apply (checks_of_a_cycle Examples.toolAndMemory (started Examples.shield) 0%nat).
  - reflexivity.
  - apply started_intact. apply shield_intact.
Defined.

(** C5 as stated fails.  When the first detection finds a cheat tool, the
    memory scan and the verification of the values still run in that
    cycle; and when nothing is found, the memory scan comes after the
    debugger and the emulator detections, not before. *)
Lemma no_short_circuit_counterexample :
  let running := snd (start Examples.quiet Examples.shield) in
  checksRun (snd (cycle Examples.toolAndMemory running))
  = checksRun running
      ++ [DetectCheatToolApps; ScanMemoryForTampering; VerifyValue "stats"] /\
  events (snd (cycle Examples.toolAndMemory running))
  = [toolEvent (found "installed_package" "high" true); memoryEvent] /\
  checksRun (snd (cycle Examples.quiet running))
  = checksRun running
      ++ [DetectCheatToolApps; DetectSuspiciousProcesses; DetectMemorySignatures;
          DetectDebugger; DetectEmulator; ScanMemoryForTampering;
          VerifyValue "stats"].
Proof. vm_compute. repeat split. Qed.

(** *** The values of a cycle *)

Lemma withWorld_ran c s : withWorld (world s) (ran c s) = ran c s.
Proof. by destruct s. Qed.

Lemma advance_ran c cs s : advance cs (ran c s) = advance (c :: cs) s.
Proof. unfold ran, advance. simpl. f_equal. by rewrite <- app_assoc. Qed.

Lemma advance_nil s : advance [] s = s.
Proof. destruct s. unfold advance. simpl. by rewrite app_nil_r. Qed.

(** The verification of intact values, with the flag [isVerifying] set:
    the keys that come back are those of the values that fail. *)
Lemma verifyValues_exact vs : forall s,
  isVerifying s = true ->
  Forall (fun kv => is_Some (GameValue.treeOf (GameValue.heap (world s))
                               (GameValue.currentValue (snd kv)))) vs ->
  verifyValues vs s
  = (Returned (map fst (List.filter (fun kv => negb (verifies (world s) (snd kv))) vs)),
     advance (map (fun kv => VerifyValue (fst kv)) vs) s).
Proof.
  induction vs as [| [k g] vs IH]; intros s Hflag Hvs.
  - simpl. by rewrite advance_nil.
  - apply Forall_cons in Hvs as [[j Hj] Hvs]. simpl in Hj.
    pose proof (GameValueFacts.calculateChecksum_tree _ _ _ Hj) as Hc.
    simpl. unfold bind, verifyValue, verifies. rewrite Hflag.
    rewrite (GameValueFacts.verify_eq true g (world (ran (VerifyValue k) s))
               (GameValue.checksumOf j)) by done.
    rewrite (GameValueFacts.verify_eq true g (world s) (GameValue.checksumOf j))
      by done.
    simpl. rewrite withWorld_ran.
    rewrite (IH (ran (VerifyValue k) s)) by done.
    simpl. rewrite advance_ran.
    by destruct (bool_decide _ && _).
Qed.

(** A run of the checks on intact values, in full. *)
Lemma runChecks_exact p s :
  intact s ->
  exists r s',
    runChecks p s
    = (Returned (toolDetected p || memoryTampered p
                 || negb (bool_decide (failing s = []))), s') /\
    detected r = toolDetected p /\
    events s' = events s ++ reported r p (failing s) /\
    detectedTamperingAttempts s'
    = detectedTamperingAttempts s + Z.of_nat (length (reported r p (failing s))) /\
    isVerifying s' = false /\
    world s' = world s /\
    control s' = control s.
Proof.
  intros Hs. destruct (detectCheatTools_eq p s) as (r & Hdet & Hr).
  exists r. unfold runChecks, bind. rewrite Hdet.
  unfold handleCheatDetected, scanMemoryForTampering, bind, modify, ret, gets.
  unfold reported, failing. rewrite <- Hr.
  set (tc := toolChecks p) in *.
  destruct (detected r), (memoryTampered p); simpl;
    (rewrite verifyValues_exact; [| reflexivity | exact Hs]); simpl;
    destruct (bool_decide _); simpl;
    (eexists; split; [reflexivity |]; split_and!; simpl;
     rewrite <- ?app_assoc, ?app_nil_r; first [reflexivity | lia]).
Qed.

Lemma elem_of_failing key s :
  key ∈ failing s <->
  exists g, (key, g) ∈ protectedValues s /\ verifies (world s) g = false.
Proof.
  unfold failing. rewrite list_elem_of_fmap. split.
  - intros ([k g] & -> & Hin). apply list_elem_of_In, filter_In in Hin as [Hin Hv].
    exists g. split; [by apply list_elem_of_In |]. by apply negb_true_iff in Hv.
  - intros (g & Hin & Hv). exists (key, g). split; [done |].
    apply list_elem_of_In, filter_In. split; [by apply list_elem_of_In |].
    simpl. by rewrite Hv.
Qed.

(** X17. The value event names exactly the failing values.  A run of the
    checks on a shield whose protected values are intact returns, with the
    flag set by any of the three findings; it reports at most three events,
    in the order tool, memory, values, and the event of the values lists
    the keys of the values whose [verify()] is false, and no other key; the
    counter of the protector grows by the number of events; the values, the
    heap and the console are as they were and the flag [isVerifying] is
    cleared. *)
Theorem value_event_names_the_failing p s :
  intact s ->
  exists r s',
    runChecks p s
    = (Returned (toolDetected p || memoryTampered p
                 || negb (bool_decide (failing s = []))), s') /\
    detected r = toolDetected p /\
    events s' = events s ++ reported r p (failing s) /\
    (forall key, key ∈ failing s <->
       exists g, (key, g) ∈ protectedValues s /\ verifies (world s) g = false) /\
    (length (reported r p (failing s)) <= 3)%nat /\
    detectedTamperingAttempts s'
    = detectedTamperingAttempts s + Z.of_nat (length (reported r p (failing s))) /\
    isVerifying s' = false /\
    world s' = world s /\
    protectedValues s' = protectedValues s.
Proof.
  intros Hs.
  destruct (runChecks_exact p s Hs) as (r & s' & Hrun & Hr & He & Hn & Hf & Hw & Hc).
  exists r, s'. split_and!; try done.
  - intros key. apply elem_of_failing.
  - unfold reported.
    destruct (detected r), (memoryTampered p), (bool_decide (failing s = []));
      simpl; lia.
  - by injection Hc.
Qed.

Lemma value_event_names_the_failing_witness :
  exists r s',
    runChecks Examples.quiet Examples.forged = (Returned true, s') /\
    events s' = reported r Examples.quiet ["stats"].
Proof.
  destruct (value_event_names_the_failing Examples.quiet Examples.forged)
    as (r & s' & Hrun & _ & Hevents & _).
  - repeat constructor. exists (GameValue.JsNum 999999). vm_compute. reflexivity.
  - exists r, s'. split; [exact Hrun | exact Hevents].
Defined.

(** *** Values that come from protectValue *)

Lemma verifies_eq w g j :
  GameValue.treeOf (GameValue.heap w) (GameValue.currentValue g) = Some j ->
  verifies w g
  = bool_decide (GameValue.checksumOf j ∈ GameValue.checksums g)
    && (if negb (bool_decide (GameValue.checksumOf j ∈ GameValue.checksums g))
        then false
        else match GameValue.verificationCallback g with
             | Some callback => callback true
             | None => true
             end).
Proof.
  intros Hj. unfold verifies.
  by rewrite (GameValueFacts.verify_eq true g w (GameValue.checksumOf j))
    by (by apply GameValueFacts.calculateChecksum_tree).
Qed.

(** What the constructor returns, when it returns. *)
Lemma new_returns {Env} now k v (callback : option (Env -> bool)) w g w' :
  GameValue.new now k v callback w = (Returned g, w') ->
  exists j,
    GameValue.treeOf (GameValue.heap w') (GameValue.currentValue g) = Some j /\
    GameValue.checksums g = [GameValue.checksumOf j] /\
    GameValue.verificationCallback g = callback.
Proof.
  unfold GameValue.new, bind.
  destruct (GameValue.deepClone v w) as [[original | e] w1]; [| done].
  destruct (GameValue.deepClone v w1) as [[current | e] w2]; [| done].
  unfold GameValue.calculateChecksum.
  destruct (GameValue.treeOf (GameValue.heap w2) current) as [j |] eqn:Hj; [| done].
  simpl. intros H. injection H as <- <-. exists j. simpl. by rewrite Hj.
Qed.

Lemma protectValue_frame now key v s r s' :
  protectValue now key v s = (r, s') ->
  isRunning s' = isRunning s /\ intervalId s' = intervalId s /\
  timers s' = timers s /\ events s' = events s /\ checksRun s' = checksRun s /\
  detectedTamperingAttempts s' = detectedTamperingAttempts s.
Proof.
  unfold protectValue.
  destruct (GameValue.new now key v (Some verificationCallback) (world s))
    as [[g | e] w]; intros H; injection H as <- <-; done.
Qed.

Lemma protectValue_allVerify now key v s g s' :
  protectValue now key v s = (Returned g, s') -> allVerify s -> allVerify s'.
Proof.
  unfold protectValue.
  pose proof (GameValueFacts.new_heap now key v (Some verificationCallback) (world s))
    as Hheap.
  destruct (GameValue.new now key v (Some verificationCallback) (world s))
    as [[g0 | e] w] eqn:Hnew; [| done].
  intros H. injection H as <- <-. intros Hs. unfold allVerify. simpl.
  apply mapSet_Forall.
  - destruct (new_returns _ _ _ _ _ _ _ Hnew) as (j & Hj & Hc & Hcb).
    split; [by exists j |]. simpl.
    rewrite (verifies_eq w g0 j Hj), Hc, Hcb.
    by rewrite bool_decide_eq_true_2 by set_solver.
  - eapply Forall_impl; [exact Hs |]. intros [k g'] [[j Hj] Hv]. simpl in *.
    pose proof (GameValueFacts.treeOf_heap _ _ _ _ Hj Hheap) as Hj'.
    split; [by exists j |].
    by rewrite (verifies_eq w g' j Hj'), <- (verifies_eq (world s) g' j Hj).
Qed.

Lemma protectAll_spec items : forall s s',
  protectAll items s = (Returned tt, s') ->
  allVerify s ->
  allVerify s' /\ isRunning s' = isRunning s /\ events s' = events s /\
  detectedTamperingAttempts s' = detectedTamperingAttempts s.
Proof.
  induction items as [| [[now key] v] items IH]; intros s s' Hrun Hs.
  - by injection Hrun as <-.
  - simpl in Hrun. unfold bind in Hrun.
    destruct (protectValue now key v s) as [[g | e] s1] eqn:Hp; [| done].
    destruct (protectValue_frame _ _ _ _ _ _ Hp) as (H1 & _ & _ & H2 & _ & H3).
    destruct (IH s1 s' Hrun (protectValue_allVerify _ _ _ _ _ _ Hp Hs))
      as (Hs' & H1' & H2' & H3').
    split_and!; [done | congruence | congruence | congruence].
Qed.

Lemma allVerify_intact s : allVerify s -> intact s.
Proof.
  intros Hs. eapply Forall_impl; [exact Hs |]. by intros kv [H _].
Qed.

Lemma allVerify_failing s : allVerify s -> failing s = [].
Proof.
  unfold allVerify, failing. induction 1 as [| kv vs [_ Hkv] _ IH]; [done |].
  simpl. by rewrite Hkv.
Qed.

(** X18. Values that come from [protectValue] pass.  On a new shield,
    after any calls of [protectValue] that returned, [start()] with no
    cheat tool found and no memory region tampered with finds every
    protected value in order: it returns true, the shield is running, and
    no event has been reported. *)
Theorem protected_values_pass items w p s :
  protectAll items (fresh [] w) = (Returned tt, s) ->
  toolDetected p = false ->
  memoryTampered p = false ->
  exists s',
    start p s = (Returned true, s') /\
    isRunning s' = true /\
    events s' = [] /\
    detectedTamperingAttempts s' = 0.
Proof.
  intros Hrun Htool Hmem.
  destruct (protectAll_spec items (fresh [] w) s Hrun) as (Hs & Hr & He & Hc);
    [by constructor |].
  destruct (runChecks_exact p s (allVerify_intact s Hs))
    as (r & s1 & Hchecks & Hdet & Hevents & Hcount & _).
  rewrite (allVerify_failing s Hs) in Hchecks, Hevents, Hcount.
  unfold reported in Hevents, Hcount.
  rewrite Hdet, Htool, Hmem in Hevents, Hcount.
  rewrite Htool, Hmem in Hchecks. simpl in *.
  rewrite start_eq, Hchecks by congruence.
  exists (started s1). split_and!; [done | done | |]; simpl.
  - rewrite Hevents, ?app_nil_r, He. done.
  - rewrite Hcount, Hc. simpl. lia.
Qed.

Lemma protected_values_pass_witness :
  exists s',
    start Examples.quiet Examples.shield = (Returned true, s') /\ events s' = [].
Proof.
  destruct (protected_values_pass [(0, "stats", GameValue.VRef 1%positive)]
              Examples.gameWorld Examples.quiet Examples.shield)
    as (s' & Hstart & _ & Hevents & _).
  - vm_compute. reflexivity.
  - reflexivity.
  - reflexivity.
  - exists s'. split; [exact Hstart | exact Hevents].
Defined.

(** *** The timer *)

(** A run of the checks leaves the control fields alone, whether it
    returns or throws. *)
Lemma runChecks_control p s r s' :
  runChecks p s = (r, s') -> control s' = control s.
Proof.
  destruct (detectCheatTools_eq p s) as (t & Hdet & _).
  unfold runChecks, bind. rewrite Hdet.
  unfold handleCheatDetected, scanMemoryForTampering, bind, modify, ret, gets.
  set (tc := toolChecks p) in *.
  destruct (detected t), (memoryTampered p); simpl;
    match goal with
    | |- context [verifyValues ?vs ?s0] =>
        destruct (verifyValues vs s0) as [rk s6] eqn:Hv;
        destruct (verifyValues_spec _ _ _ _ Hv) as (Hc & _)
    end;
    (destruct rk as [keys | e]; [destruct (bool_decide (keys = [])) |]); simpl;
    intros H; injection H as <- <-; exact Hc.
Qed.

Lemma after_timer c s :
  (isRunning s = true <-> is_Some (intervalId s)) ->
  (isRunning (after c s) = true <-> is_Some (intervalId (after c s))).
Proof.
  intros Hs. destruct c as [p | | p | now key v]; simpl.
  - unfold start, bind, gets.
    destruct (isRunning s) eqn:Hrun; [simpl; by rewrite Hrun |].
    destruct (runChecks p s) as [r s1] eqn:Hchecks.
    apply runChecks_control in Hchecks. injection Hchecks as H1 _ H2 _ _.
    destruct r as [[|] | e]; simpl; rewrite ?H1, ?H2, ?Hrun; done.
  - unfold stop, bind, gets.
    destruct (isRunning s) eqn:Hrun; simpl; [| by rewrite Hrun].
    split; [done | by intros [i Hi]].
  - unfold cycle.
    destruct (intervalId s) as [i |] eqn:Hi; [| simpl; by rewrite Hi].
    destruct (runChecks p s) as [r s1] eqn:Hchecks.
    apply runChecks_control in Hchecks. injection Hchecks as H1 _ H2 _ _.
    simpl. by rewrite H1, H2, Hi.
  - destruct (protectValue now key v s) as [r s1] eqn:Hp.
    destruct (protectValue_frame _ _ _ _ _ _ Hp) as (H1 & H2 & _).
    simpl. by rewrite H1, H2.
Qed.

Lemma history_timer cs : forall s,
  (isRunning s = true <-> is_Some (intervalId s)) ->
  (isRunning (history cs s) = true <-> is_Some (intervalId (history cs s))).
Proof.
  induction cs as [| c cs IH]; intros s Hs; [done |].
  apply IH. by apply after_timer.
Qed.

(** X19. A timer is pending exactly when the shield is running.  After
    any calls of [start], [stop] and [protectValue] and any firings of the
    timer on a new shield, whether they returned or threw, [intervalId] is
    set exactly when [isRunning] is; so [start] never schedules a second
    timer over a pending one, and once [stop] has been called a firing of
    the timer runs no check and changes nothing. *)
Theorem timer_iff_running cs values w :
  (isRunning (history cs (fresh values w)) = true
   <-> is_Some (intervalId (history cs (fresh values w)))) /\
  (forall p, after (Tick p) (after Stop (history cs (fresh values w)))
             = after Stop (history cs (fresh values w))).
Proof.
  assert (isRunning (history cs (fresh values w)) = true
          <-> is_Some (intervalId (history cs (fresh values w)))) as Hs.
  { apply history_timer. simpl. split; [done | by intros [i Hi]]. }
  split; [exact Hs |].
  intros p. pose proof (after_timer Stop _ Hs) as Hstop.
  assert (isRunning (after Stop (history cs (fresh values w))) = false) as Hoff.
  { simpl. unfold stop, bind, gets.
    by destruct (isRunning (history cs (fresh values w))) eqn:E. }
  destruct (intervalId (after Stop (history cs (fresh values w)))) as [i |] eqn:Hi.
  - rewrite Hoff in Hstop. destruct Hstop as [_ Hstop].
    by specialize (Hstop (ex_intro _ i eq_refl)).
  - simpl. unfold cycle. simpl in Hi. by rewrite Hi.
Qed.

(** *** A value that JSON.stringify rejects *)

Lemma verify_throws {Env} env (g : GameValue.GameValue Env) w :
  GameValue.treeOf (GameValue.heap w) (GameValue.currentValue g) = None ->
  GameValue.verify env (g, w) = (Thrown "TypeError", (g, w)).
Proof.
  intros Hg.
  unfold GameValue.verify, GameValue.isChecksumValid, bind, GameValue.this, gets,
    GameValue.checksum, GameValue.calculateChecksum. simpl.
  by rewrite Hg.
Qed.

Lemma verifyValues_poisoned before key g rest : forall s,
  isVerifying s = true ->
  Forall (fun kv => is_Some (GameValue.treeOf (GameValue.heap (world s))
                               (GameValue.currentValue (snd kv)))) before ->
  GameValue.treeOf (GameValue.heap (world s)) (GameValue.currentValue g) = None ->
  verifyValues (before ++ (key, g) :: rest) s
  = (Thrown "TypeError",
     advance (map (fun kv => VerifyValue (fst kv)) before ++ [VerifyValue key]) s).
Proof.
  induction before as [| [k g'] before IH]; intros s Hflag Hbefore Hg.
  - simpl. unfold bind, verifyValue.
    rewrite (verify_throws (isVerifying s) g (world (ran (VerifyValue key) s)))
      by done.
    simpl. by rewrite withWorld_ran.
  - apply Forall_cons in Hbefore as [[j Hj] Hbefore]. simpl in Hj.
    pose proof (GameValueFacts.calculateChecksum_tree _ _ _ Hj) as Hc.
    simpl. unfold bind, verifyValue.
    rewrite (GameValueFacts.verify_eq (isVerifying s) g'
               (world (ran (VerifyValue k) s)) (GameValue.checksumOf j)) by done.
    simpl. rewrite withWorld_ran.
    rewrite (IH (ran (VerifyValue k) s)) by done.
    by rewrite advance_ran.
Qed.

(** X20. A value that [JSON.stringify] rejects blinds the value check.
    When one of the protected values holds such a value (as after a [set]
    that failed), a run of the checks throws at that value: the tool
    detector and the memory scan have run and reported, the values before
    it in the map have been verified, no value event is reported even if
    one of those failed, the values after it are not looked at, and the
    flag [isVerifying] stays set; [start()] on such a shield throws and the
    shield is not running. *)
Theorem rejected_value_blinds_the_check p s before key g rest :
  protectedValues s = before ++ (key, g) :: rest ->
  Forall (fun kv => is_Some (GameValue.treeOf (GameValue.heap (world s))
                               (GameValue.currentValue (snd kv)))) before ->
  GameValue.treeOf (GameValue.heap (world s)) (GameValue.currentValue g) = None ->
  exists r s',
    runChecks p s = (Thrown "TypeError", s') /\
    detected r = toolDetected p /\
    events s'
    = events s ++ (if detected r then [toolEvent r] else [])
        ++ (if memoryTampered p then [memoryEvent] else []) /\
    checksRun s'
    = checksRun s ++ toolChecks p
        ++ ScanMemoryForTampering :: map (fun kv => VerifyValue (fst kv)) before
        ++ [VerifyValue key] /\
    isVerifying s' = true /\
    (isRunning s = false ->
     start p s = (Thrown "TypeError", s') /\ isRunning s' = false).
Proof.
  intros Hvalues Hbefore Hg.
  destruct (detectCheatTools_eq p s) as (r & Hdet & Hr).
  exists r.
  assert (exists s', runChecks p s = (Thrown "TypeError", s') /\
            events s'
            = events s ++ (if detected r then [toolEvent r] else [])
                ++ (if memoryTampered p then [memoryEvent] else []) /\
            checksRun s'
            = checksRun s ++ toolChecks p
                ++ ScanMemoryForTampering
                   :: map (fun kv => VerifyValue (fst kv)) before
                ++ [VerifyValue key] /\
            isVerifying s' = true /\ isRunning s' = isRunning s)
    as (s' & Hrun & He & Hc & Hf & Hrunning).
  { unfold runChecks, bind. rewrite Hdet.
    unfold handleCheatDetected, scanMemoryForTampering, bind, modify, ret, gets.
    set (tc := toolChecks p) in *.
    destruct (detected r), (memoryTampered p); simpl; rewrite Hvalues;
      (rewrite verifyValues_poisoned; [| reflexivity | exact Hbefore | exact Hg]);
      (eexists; split; [reflexivity |]; split_and!; simpl;
       rewrite <- ?app_assoc, ?app_nil_r; reflexivity). }
  exists s'. split_and!; try done.
  intros Hoff. split; [| congruence].
  rewrite start_eq by done. by rewrite Hrun.
Qed.

Lemma rejected_value_blinds_the_check_witness :
  exists r s',
    runChecks Examples.quiet Examples.knotted = (Thrown "TypeError", s') /\
    detected r = toolDetected Examples.quiet /\
    isVerifying s' = true.
Proof.
  destruct (rejected_value_blinds_the_check Examples.quiet Examples.knotted []
              "stats"
              (GameValue.withCurrentValue (GameValue.VRef 9%positive)
                 (Examples.statsValue (Some verificationCallback)))
              [])
    as (r & s' & Hrun & Hr & _ & _ & Hflag & _).
  - reflexivity.
  - constructor.
  - vm_compute. reflexivity.
  - exists r, s'. split_and!; [exact Hrun | exact Hr | exact Hflag].
Defined.

End ShieldFacts.

(** ** The memory scanner *)

Module ScannerFacts.
Import Scanner.

(** A scan whose clock reading is positive and more than five seconds
    after the last scan, or before it. *)
Lemma scan_unusual_time m c :
  0 < time c (reads c) ->
  5000 < time c (reads c) - lastScanTime m \/ time c (reads c) - lastScanTime m < 0 ->
  scanMemoryForTampering (m, c)
  = (Returned {| tampered := true; regions := None;
                 details := Some (TimeManipulation
                                    (time c (reads c) - lastScanTime m) 5000) |},
     (withLastScanTime (time c (reads c)) m,
      {| time := time c; reads := S (reads c) |})).
Proof.
  intros Hpos Hdiff.
  unfold scanMemoryForTampering, bind, Date_now, this, gets, modify, ret. simpl.
  assert ((0 <? time c (reads c))%Z
          && ((5000 <? time c (reads c) - lastScanTime m)%Z
              || (time c (reads c) - lastScanTime m <? 0)%Z) = true) as ->; [| done].
  apply andb_true_iff. split; [lia |]. apply orb_true_iff. lia.
Qed.

(** What the constructor leaves: no scan made yet, three clock readings
    used, the three regions of the source monitored. *)
Lemma new_spec c :
  lastScanTime (fst (new c)) = 0 /\
  time (snd (new c)) = time c /\
  reads (snd (new c)) = S (S (S (reads c))) /\
  sensitiveAddresses (fst (new c))
  = ["0x12340000:1024"; "0x12350000:512"; "0x12360000:256"].
Proof. split_and!; reflexivity. Qed.

(** X21. The first scan of a new scanner reports tampering.  A scanner
    starts with [lastScanTime] at zero and compares the clock with it after
    having stored the clock in it: whenever the clock reads more than 5000
    (any date after the first five seconds of 1970) the first scan answers
    [tampered: true] with the reason "time_manipulation", and computes no
    checksum.  The shield scans with a scanner it has just made, so its
    first [start()] finds a memory issue, reports it, returns false and
    leaves the shield stopped, whatever else is the case. *)
Theorem first_scan_is_flagged c p s :
  5000 < time c (3 + reads c) ->
  Shield.isRunning s = false ->
  Shield.intact s ->
  let scan := scanMemoryForTampering (new c) in
  fst scan
  = Returned {| tampered := true; regions := None;
                details := Some (TimeManipulation (time c (3 + reads c)) 5000) |} /\
  memoryChecksums (fst (snd scan)) = memoryChecksums (fst (new c)) /\
  reads (snd (snd scan)) = (4 + reads c)%nat /\
  exists s',
    Shield.start (scanned p (fst scan)) s = (Returned false, s') /\
    Shield.isRunning s' = false /\
    Shield.intervalId s' = Shield.intervalId s /\
    Shield.memoryEvent ∈ Shield.events s'.
Proof.
  intros Hclock Hoff Hs scan.
  destruct (new_spec c) as (Hlast & Htime & Hreads & _).
  assert (scan
          = (Returned {| tampered := true; regions := None;
                         details := Some (TimeManipulation (time c (3 + reads c)) 5000) |},
             (withLastScanTime (time c (3 + reads c)) (fst (new c)),
              {| time := time c; reads := (4 + reads c)%nat |}))) as Hscan.
  { unfold scan. destruct (new c) as [m c1] eqn:Hnew.
    simpl in Hlast, Htime, Hreads, Hclock |- *.
    rewrite scan_unusual_time.
    - by rewrite Htime, Hreads, Hlast, Z.sub_0_r.
    - rewrite Htime, Hreads. lia.
    - rewrite Htime, Hreads, Hlast. lia. }
  rewrite Hscan. simpl. split_and!; [done | done | done |].
  set (p' := scanned p _).
  destruct (ShieldFacts.runChecks_exact p' s Hs)
    as (r & s' & Hrun & Hr & He & _ & _ & _ & Hc).
  assert (Shield.memoryTampered p' = true) as Hmem by done.
  rewrite Hmem, orb_true_r in Hrun. simpl in Hrun.
  exists s'. injection Hc as H1 _ H2 _ _. split_and!.
  - rewrite ShieldFacts.start_eq by done. by rewrite Hrun.
  - congruence.
  - done.
  - rewrite He. unfold Shield.reported. rewrite Hmem.
    rewrite !elem_of_app. right. right. left. by apply list_elem_of_singleton.
Qed.

Lemma first_scan_is_flagged_witness :
  fst (scanMemoryForTampering (new Examples.wallClock))
  = Returned {| tampered := true; regions := None;
                details := Some (TimeManipulation (Examples.T0 + 3) 5000) |} /\
  exists s',
    Shield.start
      (scanned Examples.quiet (fst (scanMemoryForTampering (new Examples.wallClock))))
      Examples.shield
    = (Returned false, s').
Proof.
  destruct (first_scan_is_flagged Examples.wallClock Examples.quiet Examples.shield)
    as (Hscan & _ & _ & s' & Hstart & _).
  - vm_compute. reflexivity.
  - reflexivity.
  - apply ShieldFacts.shield_intact.
  - split; [exact Hscan |]. exists s'. exact Hstart.
Defined.

(** *** Region keys *)













End ScannerFacts.

(** ** The protector *)

Module ProtectorFacts.
Import Protector.

Lemma applied_spec k : forall p,
  detectedTamperingAttempts p = 0 ->
  detectedTamperingAttempts (Nat.iter k applyCountermeasures p) = Z.of_nat k /\
  maxTamperingAttempts (Nat.iter k applyCountermeasures p) = maxTamperingAttempts p /\
  console (Nat.iter k applyCountermeasures p)
  = console p ++ flat_map (linesOf (maxTamperingAttempts p)) (seq 1 k).
Proof.
  induction k as [| k IH]; intros p Hp.
  - simpl. by rewrite app_nil_r.
  - destruct (IH p Hp) as (Hn & Hm & Hc).
    rewrite seq_S, flat_map_app. simpl Nat.iter.
    unfold applyCountermeasures at 1. simpl.
    rewrite Hn, Hm, Hc. split_and!; [lia | done |].
    rewrite <- app_assoc. do 2 f_equal. unfold linesOf. simpl.
    replace (Z.of_nat k + 1) with (Z.pos (Pos.of_succ_nat k)) by lia.
    reflexivity.
Qed.

(** X23. The countermeasures escalate at the threshold.  After
    [setMaxTamperingAttempts(n)] and [resetTamperingAttempts()], the
    counter after [k] applications of countermeasures is [k], and the
    [i]-th application is a terminal one exactly when [i] has reached
    [Math.max(1, n)] and a warning before that: with [n] at most one, the
    first detection is terminal already, and once terminal every further
    application is. *)
Theorem countermeasures_escalate p n k :
  getTamperingAttempts
    (Nat.iter k applyCountermeasures
       (resetTamperingAttempts (setMaxTamperingAttempts n p))) = Z.of_nat k /\
  console (Nat.iter k applyCountermeasures
             (resetTamperingAttempts (setMaxTamperingAttempts n p)))
  = console (resetTamperingAttempts (setMaxTamperingAttempts n p))
    ++ flat_map (fun i => [attemptLine (Z.of_nat i) (Z.max 1 n);
                           if (Z.max 1 n <=? Z.of_nat i)%Z
                           then terminalLine else warningLine])
         (seq 1 k).
Proof.
  destruct (applied_spec k (resetTamperingAttempts (setMaxTamperingAttempts n p)))
    as (Hn & _ & Hc); [done |].
  split; [exact Hn |]. rewrite Hc. reflexivity.
Qed.

End ProtectorFacts.

(** ** The lists of the tool detector *)

Module ToolDetectorFacts.
Import ToolDetector.

Lemma includes_elem_of l s : JS.includes l s = true <-> s ∈ l.
Proof.
  unfold JS.includes. rewrite existsb_exists. split.
  - intros (x & Hx & Heq). apply String.eqb_eq in Heq. subst.
    by apply list_elem_of_In.
  - intros H. exists s. split; [by apply list_elem_of_In | apply String.eqb_refl].
Qed.

(** What an addition to a list does. *)
Lemma added_spec (l : list string) name :
  let l' := if negb (JS.includes l name) then l ++ [name] else l in
  (NoDup l -> NoDup l') /\ l `prefix_of` l' /\
  forall x, x ∈ l' <-> x ∈ l \/ x = name.
Proof.
  simpl. destruct (JS.includes l name) eqn:E; simpl.
  - apply includes_elem_of in E. split_and!; [done | done |].
    intros x. split; [by left | by intros [H | ->]].
  - assert (name ∉ l) as Hnot.
    { intros H. apply includes_elem_of in H. congruence. }
    split_and!.
    + intros Hl. apply NoDup_app. split_and!; [done | | apply NoDup_singleton].
      intros x Hx Hx'. apply list_elem_of_singleton in Hx'. by subst.
    + by apply prefix_app_r.
    + intros x. rewrite elem_of_app, list_elem_of_singleton. done.
Qed.

Lemma packages_spec packages : forall t,
  NoDup (knownCheatTools t) ->
  NoDup (knownCheatTools (fold_left (fun t name => addCheatToolPackage name t)
                            packages t)) /\
  knownCheatTools t
    `prefix_of` knownCheatTools (fold_left (fun t name => addCheatToolPackage name t)
                                   packages t) /\
  suspiciousProcesses (fold_left (fun t name => addCheatToolPackage name t)
                         packages t)
  = suspiciousProcesses t /\
  forall x, x ∈ knownCheatTools (fold_left (fun t name => addCheatToolPackage name t)
                                   packages t)
            <-> x ∈ knownCheatTools t \/ x ∈ packages.
Proof.
  induction packages as [| name packages IH]; intros t Ht; simpl.
  - split_and!; try done. intros x. split; [by left |].
    intros [H | H]; [done | by apply elem_of_nil in H].
  - destruct (added_spec (knownCheatTools t) name) as (Hnodup & Hpre & Hin).
    assert (knownCheatTools (addCheatToolPackage name t)
            = if negb (JS.includes (knownCheatTools t) name)
              then knownCheatTools t ++ [name] else knownCheatTools t) as Hk.
    { unfold addCheatToolPackage. by destruct (negb _). }
    assert (suspiciousProcesses (addCheatToolPackage name t)
            = suspiciousProcesses t) as Hp.
    { unfold addCheatToolPackage. by destruct (negb _). }
    destruct (IH (addCheatToolPackage name t)) as (H1 & H2 & H3 & H4).
    { rewrite Hk. by apply Hnodup. }
    split_and!; [done | | congruence |].
    + etrans; [| exact H2]. by rewrite Hk.
    + intros x. rewrite H4, Hk, Hin, elem_of_cons. tauto.
Qed.

Lemma processes_spec processes : forall t,
  NoDup (suspiciousProcesses t) ->
  NoDup (suspiciousProcesses (fold_left (fun t name => addSuspiciousProcess name t)
                                processes t)) /\
  suspiciousProcesses t
    `prefix_of` suspiciousProcesses (fold_left (fun t name => addSuspiciousProcess name t)
                                       processes t) /\
  knownCheatTools (fold_left (fun t name => addSuspiciousProcess name t) processes t)
  = knownCheatTools t /\
  forall x, x ∈ suspiciousProcesses (fold_left (fun t name => addSuspiciousProcess name t)
                                       processes t)
            <-> x ∈ suspiciousProcesses t \/ x ∈ processes.
Proof.
  induction processes as [| name processes IH]; intros t Ht; simpl.
  - split_and!; try done. intros x. split; [by left |].
    intros [H | H]; [done | by apply elem_of_nil in H].
  - destruct (added_spec (suspiciousProcesses t) name) as (Hnodup & Hpre & Hin).
    assert (suspiciousProcesses (addSuspiciousProcess name t)
            = if negb (JS.includes (suspiciousProcesses t) name)
              then suspiciousProcesses t ++ [name] else suspiciousProcesses t) as Hk.
    { unfold addSuspiciousProcess. by destruct (negb _). }
    assert (knownCheatTools (addSuspiciousProcess name t)
            = knownCheatTools t) as Hp.
    { unfold addSuspiciousProcess. by destruct (negb _). }
    destruct (IH (addSuspiciousProcess name t)) as (H1 & H2 & H3 & H4).
    { rewrite Hk. by apply Hnodup. }
    split_and!; [done | | congruence |].
    + etrans; [| exact H2]. by rewrite Hk.
    + intros x. rewrite H4, Hk, Hin, elem_of_cons. tauto.
Qed.

(** An index drawn with a random number of [0, 1) is an index of the
    list. *)
Lemma pick_in_range random l :
  (0 <= random)%Q -> (random < 1)%Q -> l <> [] ->
  exists name, pick random l = Some name /\ name ∈ l.
Proof.
  intros H0 H1 Hl. unfold pick.
  set (n := Z.of_nat (length l)).
  assert (0 < n) as Hn by (destruct l; [done | unfold n; simpl; lia]).
  assert (0 <= inject_Z n)%Q as Hn0 by (unfold Qle; simpl; lia).
  assert (0 < inject_Z n)%Q as Hn1 by (unfold Qlt; simpl; lia).
  set (x := (random * inject_Z n)%Q).
  assert (0 <= x)%Q as Hx0 by (by apply Qmult_le_0_compat).
  assert (x < inject_Z n)%Q as Hx1.
  { pose proof (Qmult_lt_compat_r random 1 (inject_Z n) Hn1 H1) as H.
    rewrite Qmult_1_l in H. exact H. }
  assert (0 <= Qfloor x) as Hf0.
  { change 0 with (Qfloor 0). by apply Qfloor_resp_le. }
  assert (Qfloor x < n) as Hf1.
  { rewrite Zlt_Qlt. eapply Qle_lt_trans; [apply Qfloor_le | exact Hx1]. }
  destruct (Z.ltb_spec (Qfloor x) 0) as [? | _]; [lia |].
  destruct (lookup_lt_is_Some_2 l (Z.to_nat (Qfloor x))) as [name Hname];
    [unfold n in Hf1; lia |].
  exists name. split; [done |]. by eapply list_elem_of_lookup_2.
Qed.

(** X24. The lists of the tool detector.  After any additions of package
    and process names to a new detector, each list has no duplicates, still
    begins with the names it is shipped with, in their order, and holds
    exactly those and the names added; and a detection of an installed
    package or of a running process names an entry of its list, whatever
    the two random numbers were. *)
Theorem detection_lists packages processes random1 random2 :
  (0 <= random2)%Q -> (random2 < 1)%Q ->
  let t := extended packages processes in
  NoDup (knownCheatTools t) /\ NoDup (suspiciousProcesses t) /\
  knownCheatTools new `prefix_of` knownCheatTools t /\
  suspiciousProcesses new `prefix_of` suspiciousProcesses t /\
  (forall x, x ∈ knownCheatTools t <-> x ∈ knownCheatTools new \/ x ∈ packages) /\
  (forall x, x ∈ suspiciousProcesses t
             <-> x ∈ suspiciousProcesses new \/ x ∈ processes) /\
  (detected (detectCheatToolApps random1 random2 t) = true ->
   exists name, toolName (detectCheatToolApps random1 random2 t) = Some name /\
                name ∈ knownCheatTools t) /\
  (detected (detectSuspiciousProcesses random1 random2 t) = true ->
   exists name, toolName (detectSuspiciousProcesses random1 random2 t) = Some name /\
                name ∈ suspiciousProcesses t).
Proof.
  intros H0 H1. simpl. unfold extended.
  assert (NoDup (knownCheatTools new)) as Hk
    by (apply (bool_decide_unpack _); vm_compute; exact I).
  assert (NoDup (suspiciousProcesses new)) as Hp
    by (apply (bool_decide_unpack _); vm_compute; exact I).
  destruct (packages_spec packages new Hk) as (Hk1 & Hk2 & Hk3 & Hk4).
  set (t1 := fold_left (fun t name => addCheatToolPackage name t) packages new) in *.
  destruct (processes_spec processes t1) as (Hp1 & Hp2 & Hp3 & Hp4);
    [by rewrite Hk3 |].
  set (t := fold_left (fun t name => addSuspiciousProcess name t) processes t1) in *.
  rewrite Hk3 in Hp2, Hp4.
  split_and!; try done.
  - by rewrite Hp3.
  - by rewrite Hp3.
  - intros x. by rewrite Hp3.
  - unfold detectCheatToolApps. destruct (negb _); [| done]. intros _. simpl.
    apply pick_in_range; [done | done |].
    intros Hnil. rewrite Hp3 in Hnil. destruct Hk2 as [k Hk2].
    rewrite Hk2 in Hnil. discriminate Hnil.
  - unfold detectSuspiciousProcesses. destruct (negb _); [| done]. intros _. simpl.
    apply pick_in_range; [done | done |].
    intros Hnil. destruct Hp2 as [k Hp2]. rewrite Hp2 in Hnil. discriminate Hnil.
Qed.

Lemma detection_lists_witness :
  NoDup (knownCheatTools (extended ["com.example.trainer"; "com.xmodgame"] ["frida"])) /\
  exists name,
    toolName (detectCheatToolApps (1 # 100) (99 # 100)
                (extended ["com.example.trainer"; "com.xmodgame"] ["frida"]))
    = Some name /\
    name ∈ knownCheatTools (extended ["com.example.trainer"; "com.xmodgame"] ["frida"]).
Proof.
  destruct (detection_lists ["com.example.trainer"; "com.xmodgame"] ["frida"]
              (1 # 100) (99 # 100))
    as (Hnodup & _ & _ & _ & _ & _ & Hname & _).
  - vm_compute. discriminate.
  - vm_compute. reflexivity.
  - split; [exact Hnodup |]. apply Hname. reflexivity.
Defined.

End ToolDetectorFacts.

(** ** The native library *)

Module NativeFacts.
Import Native.

(** One turn of the loop multiplies by 33 and adds the byte, in 32 bits. *)
Lemma checksum_step c b :
  uint32 (uint32 (uint32 (Z.shiftl c 5) + c) + b) = (33 * c + b) mod 2 ^ 32.
Proof.
  unfold uint32. rewrite Z.shiftl_mul_pow2 by lia.
  rewrite Zplus_mod_idemp_l, <- Z.add_assoc, Zplus_mod_idemp_l. f_equal. lia.
Qed.

(** Multiplication by 33 loses nothing in 32 bits. *)
Lemma step_injective c1 c2 b1 b2 :
  (33 * c1 + b1) mod 2 ^ 32 = (33 * c2 + b2) mod 2 ^ 32 ->
  b1 mod 2 ^ 32 = b2 mod 2 ^ 32 ->
  c1 mod 2 ^ 32 = c2 mod 2 ^ 32.
Proof.
  intros Hstep Hb.
  assert ((2 ^ 32 | 33 * (c1 - c2))) as Hdiv.
  { apply Z.mod_divide; [lia |].
    replace (33 * (c1 - c2)) with ((33 * c1 + b1) - (33 * c2 + b2) - (b1 - b2)) by lia.
    rewrite Zminus_mod, (Zminus_mod (33 * c1 + b1)), Hstep, Z.sub_diag.
    rewrite (Zminus_mod b1), Hb, Z.sub_diag. reflexivity. }
  apply Z.gauss in Hdiv.
  - apply Z.mod_divide in Hdiv; [| lia].
    rewrite <- (Z.sub_add c2 c1), Zplus_mod, Hdiv, Z.add_0_l, Z.mod_mod by lia.
    reflexivity.
  - reflexivity.
Qed.

(** The loop reads the bytes of the region only. *)
Lemma checksumLoop_ext mem mem' n : forall ptr c,
  (forall a, ptr <= a < ptr + Z.of_nat n -> uint8 (mem' a) = uint8 (mem a)) ->
  checksumLoop mem' ptr n c = checksumLoop mem ptr n c.
Proof.
  induction n as [| n IH]; intros ptr c Hsame; [done |].
  simpl. rewrite (Hsame ptr) by lia. apply IH. intros a Ha. apply Hsame. lia.
Qed.

(** Different checksums on the way stay different to the end. *)
Lemma checksumLoop_injective mem n : forall ptr c1 c2,
  c1 mod 2 ^ 32 <> c2 mod 2 ^ 32 ->
  (checksumLoop mem ptr n c1) mod 2 ^ 32 <> (checksumLoop mem ptr n c2) mod 2 ^ 32.
Proof.
  induction n as [| n IH]; intros ptr c1 c2 Hne; [done |].
  simpl. apply IH. rewrite !checksum_step, !Z.mod_mod by lia.
  intros Heq. apply Hne. by eapply step_injective.
Qed.

(** A change of one byte of the bytes read changes the result. *)
Lemma checksumLoop_one_byte mem mem' n : forall ptr c a,
  ptr <= a < ptr + Z.of_nat n ->
  uint8 (mem' a) <> uint8 (mem a) ->
  (forall b, ptr <= b < ptr + Z.of_nat n -> b <> a -> uint8 (mem' b) = uint8 (mem b)) ->
  (checksumLoop mem' ptr n c) mod 2 ^ 32 <> (checksumLoop mem ptr n c) mod 2 ^ 32.
Proof.
  induction n as [| n IH]; intros ptr c a Ha Hbyte Hrest; [lia |].
  simpl. destruct (decide (a = ptr)) as [-> | Hne].
  - rewrite (checksumLoop_ext mem mem' n (ptr + 1))
      by (intros b Hb; apply Hrest; lia).
    apply checksumLoop_injective. rewrite !checksum_step, !Z.mod_mod by lia.
    intros Heq. apply Hbyte.
    clear IH Hrest Hbyte Ha. revert Heq. unfold uint8.
    generalize (mem' ptr) (mem ptr). intros x y Heq.
    pose proof (Z.mod_pos_bound x (2 ^ 8)) as Hx.
    pose proof (Z.mod_pos_bound y (2 ^ 8)) as Hy.
    pose proof (Z.div_mod (33 * c + x mod 2 ^ 8) (2 ^ 32)) as H1.
    pose proof (Z.div_mod (33 * c + y mod 2 ^ 8) (2 ^ 32)) as H2.
    rewrite Heq in H1.
    set (q1 := (33 * c + x mod 2 ^ 8) / 2 ^ 32) in *.
    set (q2 := (33 * c + y mod 2 ^ 8) / 2 ^ 32) in *.
    set (r := (33 * c + y mod 2 ^ 8) mod 2 ^ 32) in *.
    set (bx := x mod 2 ^ 8) in *. set (by' := y mod 2 ^ 8) in *.
    change (2 ^ 8) with 256 in *. change (2 ^ 32) with 4294967296 in *.
    lia.
  - rewrite (Hrest ptr) by lia. apply (IH (ptr + 1) _ a); [lia | done |].
    intros b Hb Hba. apply Hrest; [lia | done].
Qed.

(** A region whose checksum is not the stored one raises the alarm. *)
Lemma check_finds mem regions : forall region,
  In region regions -> valid region = true ->
  calculateChecksum mem (address region) (size region) <> checksum region ->
  nativeCheckProtectedMemory mem regions = true.
Proof.
  induction regions as [| r regions IH]; intros region Hin Hvalid Hne; [done |].
  simpl. destruct (valid r) eqn:Hr; simpl.
  - destruct (Z.eqb_spec (calculateChecksum mem (address r) (size r)) (checksum r))
      as [Heq | _]; [| done].
    simpl. destruct Hin as [-> | Hin]; [done |]. by apply (IH region).
  - destruct Hin as [-> | Hin]; [congruence |]. by apply (IH region).
Qed.

(** X25. The check of the protected memory.  For regions that carry the
    checksums of their bytes, as they do when they were protected with
    them: while every byte of every valid region is what it was,
    [nativeCheckProtectedMemory] answers false; and whenever exactly one
    byte of a valid region (at an address that is not null) has changed, it
    answers true, whatever the new byte is and however long the region:
    the checksum, which multiplies by 33 in 32 bits, misses no change of a
    single byte. *)
Theorem protected_memory_check mem mem' regions :
  protectedAt mem regions ->
  ((forall region, In region regions -> valid region = true ->
      sameBytes mem mem' region) ->
   nativeCheckProtectedMemory mem' regions = false) /\
  (forall region a,
     In region regions -> valid region = true ->
     address region <> 0 ->
     address region <= a < address region + size region ->
     uint8 (mem' a) <> uint8 (mem a) ->
     (forall b, address region <= b < address region + size region -> b <> a ->
                uint8 (mem' b) = uint8 (mem b)) ->
     nativeCheckProtectedMemory mem' regions = true).
Proof.
  intros Hprotected. split.
  - induction Hprotected as [| r regions Hr _ IH]; intros Hsame; [done |].
    simpl. destruct (valid r) eqn:Hv; simpl.
    + assert (calculateChecksum mem' (address r) (size r) = checksum r) as ->.
      { rewrite Hr. unfold calculateChecksum.
        destruct (_ || _); [done |].
        apply checksumLoop_ext. intros a Ha.
        apply (Hsame r); [by left | done |].
        destruct (size r); simpl in Ha; lia. }
      rewrite Z.eqb_refl. simpl. apply IH. intros region Hin. apply Hsame. by right.
    + apply IH. intros region Hin. apply Hsame. by right.
  - intros region a Hin Hvalid Haddr Ha Hbyte Hrest.
    apply (check_finds mem' regions region Hin Hvalid).
    apply Forall_forall with (x := region) in Hprotected; [| by apply list_elem_of_In].
    rewrite Hprotected. unfold calculateChecksum.
    assert ((address region =? 0)%Z = false) as -> by lia.
    assert ((size region =? 0)%Z = false) as -> by lia.
    simpl. intros Heq.
    apply (checksumLoop_one_byte mem mem' (Z.to_nat (size region))
             (address region) 0 a); [lia | done | | by rewrite Heq].
    intros b Hb. apply Hrest. lia.
Qed.

Lemma protected_memory_check_witness :
  nativeCheckProtectedMemory (fun a => if (a =? 4098)%Z then 7 else 0)
    (nativeProtectMemoryRegion (fun _ => 0) 4096 16 [])
  = true.
Proof.
  apply (protected_memory_check (fun _ => 0) (fun a => if (a =? 4098)%Z then 7 else 0)
           (nativeProtectMemoryRegion (fun _ => 0) 4096 16 []))
    with (region := {| address := 4096; size := 16;
                       checksum := calculateChecksum (fun _ => 0) 4096 16;
                       valid := true |})
         (a := 4098).
  - repeat constructor.
  - left. reflexivity.
  - reflexivity.
  - discriminate.
  - simpl. lia.
  - vm_compute. discriminate.
  - intros b Hb Hne. simpl. destruct (Z.eqb_spec b 4098) as [-> | _]; [done |].
    reflexivity.
Defined.

End NativeFacts.

(** ** The Android shield *)

Module AndroidFacts.
Import Android.

(** What the three checks find: the tool detector first, the memory when
    no tool was found, the values when the memory is in order; and the
    values are never found tampered with. *)
Lemma detection_eq tools mem regions :
  detection tools mem regions
  = (DetectCheatTools ::
     (if tools then []
      else CheckProtectedMemory ::
           if Native.nativeCheckProtectedMemory mem regions then []
           else [CheckProtectedValues]),
     if tools then Some "cheat_tool"
     else if Native.nativeCheckProtectedMemory mem regions
          then Some "memory_tampering" else None).
Proof.
  unfold detection.
  destruct tools, (Native.nativeCheckProtectedMemory mem regions); reflexivity.
Qed.

Lemma int_small z : - 2 ^ 31 <= z < 2 ^ 31 -> int z = z.
Proof. intros Hz. unfold int. rewrite Z.mod_small by lia. lia. Qed.

(** One check of the executor on a state with [k] violations counted. *)
Lemma integrityCheck_spec tools mem s (k : nat) :
  currentViolations s = Z.of_nat k ->
  Z.of_nat k + 1 < 2 ^ 31 ->
  let s' := integrityCheck tools mem s in
  let failed := tools || Native.nativeCheckProtectedMemory mem (g_memoryRegions s) in
  currentViolations s' = Z.of_nat (if failed then S k else k) /\
  countermeasures s'
  = countermeasures s
    ++ (if failed then [violationAt (maxViolations s) (S k) (tools, mem)] else []) /\
  notifications s'
  = notifications s
    ++ (if failed && cheatListener s
        then [violationAt (maxViolations s) (S k) (tools, mem)] else []) /\
  cheatListener s' = cheatListener s /\
  maxViolations s' = maxViolations s /\
  g_memoryRegions s' = g_memoryRegions s.
Proof.
  intros Hk Hbound. unfold integrityCheck. rewrite detection_eq, Hk.
  rewrite int_small by lia. unfold violationAt.
  replace (Z.of_nat (S k)) with (Z.of_nat k + 1) by lia.
  destruct tools; simpl.
  - destruct (cheatListener s); split_and!; first [done | lia | by rewrite app_nil_r].
  - destruct (Native.nativeCheckProtectedMemory mem (g_memoryRegions s)); simpl.
    + destruct (cheatListener s); split_and!; first [done | lia | by rewrite app_nil_r].
    + by rewrite !app_nil_r.
Qed.

(** The checks of the executor from a state with [k] violations counted. *)
Lemma integrityChecks_spec inputs : forall s (k : nat),
  currentViolations s = Z.of_nat k ->
  Z.of_nat k + Z.of_nat (length inputs) < 2 ^ 31 ->
  currentViolations (integrityChecks inputs s)
  = Z.of_nat (k + length (failures (g_memoryRegions s) inputs)) /\
  countermeasures (integrityChecks inputs s)
  = countermeasures s
    ++ violationsFrom (maxViolations s) (S k) (failures (g_memoryRegions s) inputs) /\
  notifications (integrityChecks inputs s)
  = notifications s
    ++ (if cheatListener s
        then violationsFrom (maxViolations s) (S k)
               (failures (g_memoryRegions s) inputs)
        else []).
Proof.
  induction inputs as [| [tools mem] inputs IH]; intros s k Hk Hbound.
  - simpl. rewrite Nat.add_0_r. destruct (cheatListener s); by rewrite !app_nil_r.
  - simpl in Hbound.
    destruct (integrityCheck_spec tools mem s k Hk) as (H1 & H2 & H3 & H4 & H5 & H6);
      [lia |].
    change (integrityChecks ((tools, mem) :: inputs) s)
      with (integrityChecks inputs (integrityCheck tools mem s)).
    change (failures (g_memoryRegions s) ((tools, mem) :: inputs))
      with (if tools || Native.nativeCheckProtectedMemory mem (g_memoryRegions s)
            then (tools, mem) :: failures (g_memoryRegions s) inputs
            else failures (g_memoryRegions s) inputs).
    destruct (tools || Native.nativeCheckProtectedMemory mem (g_memoryRegions s)).
    + destruct (IH (integrityCheck tools mem s) (S k)) as (I1 & I2 & I3);
        [done | lia |].
      rewrite I1, I2, I3, H2, H3, H4, H5, H6. simpl.
      split_and!; [f_equal; lia | by rewrite <- app_assoc |].
      destruct (cheatListener s); by rewrite <- app_assoc.
    + destruct (IH (integrityCheck tools mem s) k) as (I1 & I2 & I3);
        [done | lia |].
      rewrite I1, I2, I3, H2, H3, H4, H5, H6. simpl.
      by rewrite !app_nil_r.
Qed.

Lemma violationsFrom_types max failed : forall i,
  Forall (fun v => violationType v = "cheat_tool"
                   \/ violationType v = "memory_tampering")
    (violationsFrom max i failed).
Proof.
  induction failed as [| [tools mem] failed IH]; intros i; [constructor |].
  simpl. constructor; [| apply IH]. simpl. destruct tools; [by left | by right].
Qed.

(** X26. The violations of the Android shield escalate.  After
    [setMaxViolations(n)], on a shield that has counted no violation yet,
    any number of integrity checks (fewer than 2^31) counts exactly the
    checks that failed: those where a cheat tool was found or the memory
    check answered true.  The countermeasures of the [i]-th failure, and
    the notification of the listener, have severity 2 exactly when [i] has
    reached [Math.max(1, n)], and 1 before; the counter is never reset.
    The type is "cheat_tool" or "memory_tampering" and never
    "value_tampering": the native check of the values answers false. *)
Theorem android_violations_escalate n inputs s :
  currentViolations s = 0 ->
  Z.of_nat (length inputs) < 2 ^ 31 ->
  currentViolations (integrityChecks inputs (setMaxViolations n s))
  = Z.of_nat (length (failures (g_memoryRegions s) inputs)) /\
  countermeasures (integrityChecks inputs (setMaxViolations n s))
  = countermeasures s
    ++ violationsFrom (Z.max 1 n) 1 (failures (g_memoryRegions s) inputs) /\
  (cheatListener s = true ->
   notifications (integrityChecks inputs (setMaxViolations n s))
   = notifications s
     ++ violationsFrom (Z.max 1 n) 1 (failures (g_memoryRegions s) inputs)) /\
  Forall (fun v => violationType v = "cheat_tool"
                   \/ violationType v = "memory_tampering")
    (violationsFrom (Z.max 1 n) 1 (failures (g_memoryRegions s) inputs)).
Proof.
  intros Hzero Hbound.
  destruct (integrityChecks_spec inputs (setMaxViolations n s) 0)
    as (H1 & H2 & H3); [done | simpl; lia |].
  simpl in H1, H2, H3. split_and!; [done | done | | apply violationsFrom_types].
  intros Hlistener. by rewrite Hlistener in H3.
Qed.

Lemma android_violations_escalate_witness :
  countermeasures
    (integrityChecks [(true, fun _ => 0); (false, fun _ => 0); (true, fun _ => 0)]
       (setMaxViolations 2 Examples.phone))
  = [{| severity := 1; violationType := "cheat_tool" |};
     {| severity := 2; violationType := "cheat_tool" |}].
Proof.
  destruct (android_violations_escalate 2
              [(true, fun _ => 0); (false, fun _ => 0); (true, fun _ => 0)]
              Examples.phone)
    as (_ & Hc & _).
  - reflexivity.
  - simpl. lia.
  - rewrite Hc. reflexivity.
Defined.

(** *** The protected values *)






(** *** The reports *)

(** X28. What the server makes of the reports of the Android shield.  A
    report of the shield that carries the API key of the server is stored
    with its type and device id (cut to 50 and 100 characters).  The shield
    names its severities "critical" and "warning": a violation of severity
    2 is stored as "critical" and answered 403 with action "ban"; any other
    is stored with the severity "unknown", since "warning" is none of the
    severities the server knows, and answered 200 with action "warn". *)
Theorem android_reports_on_the_server cfg now uuid t deviceInfo v s st :
  Server.validateApiKey cfg (apiKey s) = true ->
  exists e,
    Server.files (snd (Server.postLogTampering cfg now uuid
                         (reportRequest t deviceInfo v s) st))
    = Server.files st ++ [e] /\
    Server.ev_type e = JS.substring0 50 (violationType v) /\
    Server.ev_deviceId e = JS.substring0 100 (uniqueId s) /\
    Server.ev_playerId e = JS.substring0 100 <$> playerId s /\
    (severity v = 2 ->
       Server.ev_severity e = "critical" /\
       fst (Server.postLogTampering cfg now uuid (reportRequest t deviceInfo v s) st)
       = Server.respond 403
           (Server.TamperingBan (Server.terminalMessage cfg) (Server.banDuration cfg)
              uuid)) /\
    (severity v <> 2 ->
       Server.ev_severity e = "unknown" /\
       fst (Server.postLogTampering cfg now uuid (reportRequest t deviceInfo v s) st)
       = Server.respond 200 (Server.TamperingWarn (Server.warningMessage cfg) uuid)).
Proof.
  intros Hkey.
  rewrite ServerFacts.postLogTampering_accepted by done.
  exists (Server.sanitize now uuid (reportBody t deviceInfo v s)).
  unfold reportRequest, reportBody. simpl.
  destruct (playerId s) as [id |]; simpl;
    (split_and!; [done | done | done | first [done | by case_bool_decide] | |]).
  all: destruct (Z.eqb_spec (severity v) 2) as [H2 | H2]; simpl.
  all: first [by intros _ | by intros ? | intros H; by destruct H].
Qed.

Lemma android_reports_on_the_server_witness :
  exists e,
    Server.files (snd (Server.postLogTampering Server.deployConfig Examples.T0 "id-1"
                         (reportRequest Examples.T0 (JObj [])
                            {| severity := 1; violationType := "cheat_tool" |}
                            Examples.phone)
                         (Examples.serverWith Examples.alice)))
    = [e] /\
    Server.ev_severity e = "unknown".
Proof.
  destruct (android_reports_on_the_server Server.deployConfig Examples.T0 "id-1" Examples.T0
              (JObj []) {| severity := 1; violationType := "cheat_tool" |}
              Examples.phone (Examples.serverWith Examples.alice))
    as (e & Hfiles & _ & _ & _ & _ & Hwarning).
  - reflexivity.
  - exists e. split; [exact Hfiles |]. apply Hwarning. discriminate.
Defined.

End AndroidFacts.
